(** * bankr-tracker: a shallow embedding of the launch pipeline

    The development follows the TypeScript sources:
    - [types.ts]                  records [TokenLaunch], [DexScreenerPair], [Alert]
    - [database/store.ts]         module [LaunchStore]
    - [services/alertChecker.ts]  module [AlertChecker]
    - [services/dexscreener.ts]   module [DexScreenerService]
    - [discord/commands/alert.ts] module [AlertCommand]
    - [utils/formatters.ts]       module [Formatters]

    Modelling conventions.
    - A JavaScript [number] is an exact rational ([Q]); NaN and the
      infinities are not represented, and rounding is not modelled.
    - A nullable SQL column ([REAL], [INTEGER] without [NOT NULL]) and an
      optional TypeScript field are [option]s.
    - Strings are byte strings; case conversion and the character classes
      of the regular expressions are the ASCII ones.
    - The SQLite tables are finite maps or lists owned by a store record;
      asynchronous code is written in a state-and-exception monad over an
      explicit world (clock, pacing gate, request counter, event trace). *)

From Stdlib Require Import QArith Qabs Qround Lqa Ascii String.
From stdpp Require Import gmap strings list sorting pretty.

Local Open Scope string_scope.
Local Open Scope Z_scope.

(** ** JavaScript values *)

Module JS.

(** [x || 0] on an optional number: [undefined], [null] and [0] are falsy. *)
Definition truthy (o : option Q) : bool :=
  match o with
  | Some v => negb (Qeq_bool v 0)
  | None => false
  end.

Definition orZero (o : option Q) : Q :=
  match o with
  | Some v => if Qeq_bool v 0 then 0%Q else v
  | None => 0%Q
  end.

(** [ToNumber] of a column read back from SQLite: [null] becomes [0]. *)
Definition toNumber (o : option Q) : Q := default 0%Q o.

Definition Qltb (a b : Q) : bool := negb (Qle_bool b a).

(** [String.prototype.toLowerCase] / [toUpperCase] on ASCII. *)
Definition lowerAscii (c : ascii) : ascii :=
  let n := nat_of_ascii c in
  if ((65 <=? n) && (n <=? 90))%nat then ascii_of_nat (n + 32) else c.

Definition upperAscii (c : ascii) : ascii :=
  let n := nat_of_ascii c in
  if ((97 <=? n) && (n <=? 122))%nat then ascii_of_nat (n - 32) else c.

Fixpoint toLowerCase (s : string) : string :=
  match s with
  | EmptyString => EmptyString
  | String c r => String (lowerAscii c) (toLowerCase r)
  end.

Fixpoint toUpperCase (s : string) : string :=
  match s with
  | EmptyString => EmptyString
  | String c r => String (upperAscii c) (toUpperCase r)
  end.

(** The class [\s] restricted to ASCII: space, TAB, LF, VT, FF, CR. *)
Definition isSpace (c : ascii) : bool :=
  let n := nat_of_ascii c in
  ((n =? 32) || ((9 <=? n) && (n <=? 13)))%nat.

(** The class [\d]. *)
Definition isDigit (c : ascii) : bool :=
  let n := nat_of_ascii c in ((48 <=? n) && (n <=? 57))%nat.

(** The class [\w]. *)
Definition isWord (c : ascii) : bool :=
  let n := nat_of_ascii c in
  (((48 <=? n) && (n <=? 57)) || ((65 <=? n) && (n <=? 90))
   || ((97 <=? n) && (n <=? 122)) || (n =? 95))%nat.

Definition isUpper (c : ascii) : bool :=
  let n := nat_of_ascii c in ((65 <=? n) && (n <=? 90))%nat.

Definition isHex (c : ascii) : bool :=
  let n := nat_of_ascii c in
  (((48 <=? n) && (n <=? 57)) || ((65 <=? n) && (n <=? 70))
   || ((97 <=? n) && (n <=? 102)))%nat.

Definition digitVal (c : ascii) : Z := Z.of_nat (nat_of_ascii c) - 48.

(** The rest of a string after its leading white space. *)
Fixpoint dropSpaces (s : string) : string :=
  match s with
  | String c s' => if isSpace c then dropSpaces s' else s
  | EmptyString => s
  end.

End JS.

(** ** types.ts *)

Inductive ConditionType := price | volume | mcap.
Inductive Operator := OpGt | OpLt | OpEq.
Inductive SortOption := SortVolume | SortMcap | SortAge.

Module TokenLaunch.
(** One row of table [launches]; the numeric columns are nullable. *)
Record t := mk {
  pairAddress : string;
  tokenAddress : string;
  name : string;
  symbol : string;
  dexId : string;
  priceUsd : option Q;
  marketCap : option Q;
  volume24h : option Q;
  liquidityUsd : option Q;
  priceChange24h : option Q;
  pairCreatedAt : option Z;
  dexscreenerUrl : string;
  lastUpdated : Z
}.
End TokenLaunch.

Module Alert.
(** One row of table [alerts]. *)
Record t := mk {
  id : Z;
  userId : string;
  tokenAddress : string;
  conditionType : ConditionType;
  operator : Operator;
  threshold : Q;
  triggered : bool;
  createdAt : Z
}.
End Alert.

(** ** database/store.ts *)

Module LaunchStore.

Import TokenLaunch.

(** The database: [launches] is keyed by [pair_address] (PRIMARY KEY),
    [alerts] is kept in rowid order and [alertSeq] is the AUTOINCREMENT
    counter. *)
Record t := mk {
  launches : gmap string TokenLaunch.t;
  alerts : list Alert.t;
  alertSeq : Z
}.

(** [ON CONFLICT(pair_address) DO UPDATE SET ...]: the six assigned
    columns come from the new row, every other column stays. *)
Definition onConflict (old new : TokenLaunch.t) : TokenLaunch.t :=
  {| pairAddress := pairAddress old;
     tokenAddress := tokenAddress old;
     name := name old;
     symbol := symbol old;
     dexId := dexId old;
     priceUsd := priceUsd new;
     marketCap := marketCap new;
     volume24h := volume24h new;
     liquidityUsd := liquidityUsd new;
     priceChange24h := priceChange24h new;
     pairCreatedAt := pairCreatedAt old;
     dexscreenerUrl := dexscreenerUrl old;
     lastUpdated := lastUpdated new |}.

Definition upsertRow (launch : TokenLaunch.t)
    (tbl : gmap string TokenLaunch.t) : gmap string TokenLaunch.t :=
  match tbl !! pairAddress launch with
  | Some old => <[pairAddress launch := onConflict old launch]> tbl
  | None => <[pairAddress launch := launch]> tbl
  end.

Definition upsertLaunch (launch : TokenLaunch.t) (db : t) : t :=
  {| launches := upsertRow launch (launches db);
     alerts := alerts db;
     alertSeq := alertSeq db |}.

(** The transaction body: a [for ... of] loop of [upsertLaunch]. *)
Definition upsertLaunches (items : list TokenLaunch.t) (db : t) : t :=
  foldl (fun acc launch => upsertLaunch launch acc) db items.


(** *** Queries over [launches] *)

(** The rows of [launches], in the order the map enumerates them. *)
Definition rows (db : t) : list TokenLaunch.t := (map_to_list (launches db)).*2.

(** [ORDER BY k DESC NULLS LAST]: [descNullsLast a b] holds when a row
    with key [a] may stand before a row with key [b].  SQLite orders
    NULL below every value, so a plain [DESC] puts NULLs last as well. *)
Definition descNullsLast (a b : option Q) : bool :=
  match a, b with
  | _, None => true
  | None, Some _ => false
  | Some x, Some y => Qle_bool y x
  end.

Definition orderedBy (key : TokenLaunch.t -> option Q) : relation TokenLaunch.t :=
  fun a b => descNullsLast (key a) (key b) = true.

#[global] Instance orderedBy_dec key a b : Decision (orderedBy key a b).
Proof. unfold orderedBy. apply _. Defined.

(** SQLite leaves the order of rows with equal keys open; the model
    sorts with a merge sort, and no statement below depends on how ties
    fall. *)
Definition orderBy (key : TokenLaunch.t -> option Q)
    (l : list TokenLaunch.t) : list TokenLaunch.t :=
  merge_sort (orderedBy key) l.

(** [LIMIT ?]: a negative limit means no upper bound in SQLite. *)
Definition sqlLimit {A} (limit : Z) (l : list A) : list A :=
  if limit <? 0 then l else take (Z.to_nat limit) l.

(** [WHERE pair_created_at >= ?] *)
Definition createdSince (cutoffTime : Q) (l : TokenLaunch.t) : bool :=
  match pairCreatedAt l with
  | Some c => Qle_bool cutoffTime (inject_Z c)
  | None => false
  end.

(** [WHERE col > 0] on a nullable column. *)
Definition positive (o : option Q) : bool :=
  match o with
  | Some v => negb (Qle_bool v 0)
  | None => false
  end.

(** The [switch (sortBy)] that picks the [ORDER BY] clause. *)
Definition sortKey (sortBy : SortOption) (l : TokenLaunch.t) : option Q :=
  match sortBy with
  | SortMcap => marketCap l
  | SortAge => inject_Z <$> pairCreatedAt l
  | SortVolume => volume24h l
  end.

(** [getLaunches]; [now] is the value of [Date.now()]. *)
Definition getLaunches (timeframeHours : Q) (sortBy : SortOption) (limit : Z)
    (now : Z) (db : t) : list TokenLaunch.t :=
  let cutoffTime := (inject_Z now - timeframeHours * 60 * 60 * 1000)%Q in
  sqlLimit limit
    (orderBy (sortKey sortBy) (filter (fun l => createdSince cutoffTime l = true) (rows db))).

(** [WHERE token_address = ? ORDER BY volume_24h DESC LIMIT 1], with the
    argument lower-cased. *)
Definition getLaunchByToken (tokenAddress : string) (db : t) : option TokenLaunch.t :=
  let key := JS.toLowerCase tokenAddress in
  head (orderBy volume24h
          (filter (fun l => TokenLaunch.tokenAddress l = key) (rows db))).

(** [volume_24h * ABS(COALESCE(price_change_24h, 0) + 1)] *)
Definition trendingScore (l : TokenLaunch.t) : option Q :=
  match volume24h l with
  | Some v => Some (v * Qabs (default 0%Q (priceChange24h l) + 1))%Q
  | None => None
  end.

(** [WHERE pair_created_at >= ? AND volume_24h > 0 AND liquidity_usd > 0] *)
Definition isTrendingCandidate (cutoffTime : Q) (l : TokenLaunch.t) : bool :=
  createdSince cutoffTime l && positive (volume24h l) && positive (liquidityUsd l).

Definition getTrendingLaunches (limit : Z) (now : Z) (db : t) : list TokenLaunch.t :=
  let cutoffTime := (inject_Z now - 24 * 60 * 60 * 1000)%Q in
  sqlLimit limit
    (orderBy trendingScore
       (filter (fun l => isTrendingCandidate cutoffTime l = true) (rows db))).

(** [DELETE FROM launches WHERE pair_created_at < ?]; returns the number
    of deleted rows and the new database. *)
Definition isStale (cutoffTime : Q) (l : TokenLaunch.t) : bool :=
  match pairCreatedAt l with
  | Some c => negb (Qle_bool cutoffTime (inject_Z c))
  | None => false
  end.

Definition pruneOldLaunches (maxAgeHours : Q) (now : Z) (db : t) : Z * t :=
  let cutoffTime := (inject_Z now - maxAgeHours * 60 * 60 * 1000)%Q in
  let kept := filter (fun kv => isStale cutoffTime kv.2 = false) (launches db) in
  (Z.of_nat (size (launches db)) - Z.of_nat (size kept),
   {| launches := kept; alerts := alerts db; alertSeq := alertSeq db |}).

(** *** Table [alerts] *)

(** [INSERT INTO alerts ...]: [triggered] takes its default 0; the result
    is [lastInsertRowid]. *)
Definition createAlert (userId tokenAddress : string)
    (conditionType : ConditionType) (operator : Operator) (threshold : Q)
    (now : Z) (db : t) : Z * t :=
  let rowid := alertSeq db + 1 in
  (rowid,
   {| launches := launches db;
      alerts := alerts db ++
        [ {| Alert.id := rowid;
             Alert.userId := userId;
             Alert.tokenAddress := JS.toLowerCase tokenAddress;
             Alert.conditionType := conditionType;
             Alert.operator := operator;
             Alert.threshold := threshold;
             Alert.triggered := false;
             Alert.createdAt := now |} ];
      alertSeq := rowid |}).

(** [DELETE FROM alerts WHERE id = ? AND user_id = ?]; the result is
    [changes > 0]. *)
Definition deleteAlert (alertId : Z) (userId : string) (db : t) : bool * t :=
  let doomed (a : Alert.t) :=
    bool_decide (Alert.id a = alertId) && bool_decide (Alert.userId a = userId) in
  let kept := List.filter (fun a => negb (doomed a)) (alerts db) in
  (existsb doomed (alerts db),
   {| launches := launches db; alerts := kept; alertSeq := alertSeq db |}).

(** [SELECT ... FROM alerts WHERE triggered = 0] *)
Definition getActiveAlerts (db : t) : list Alert.t :=
  List.filter (fun a => negb (Alert.triggered a)) (alerts db).

Definition setTriggered (a : Alert.t) : Alert.t :=
  {| Alert.id := Alert.id a;
     Alert.userId := Alert.userId a;
     Alert.tokenAddress := Alert.tokenAddress a;
     Alert.conditionType := Alert.conditionType a;
     Alert.operator := Alert.operator a;
     Alert.threshold := Alert.threshold a;
     Alert.triggered := true;
     Alert.createdAt := Alert.createdAt a |}.

(** [UPDATE alerts SET triggered = 1 WHERE id = ?] *)
Definition markAlertTriggered (alertId : Z) (db : t) : t :=
  {| launches := launches db;
     alerts := List.map (fun a => if bool_decide (Alert.id a = alertId)
                                  then setTriggered a else a) (alerts db);
     alertSeq := alertSeq db |}.

End LaunchStore.

(** ** utils/formatters.ts *)

Module Formatters.

Fixpoint zeros (k : nat) : string :=
  match k with
  | O => ""
  | S k' => String "0" (zeros k')
  end.

(** [Number.prototype.toFixed]: the sign is split off, the magnitude is
    rounded to the nearest multiple of [10^-digits] (ties go up) and
    printed with exactly [digits] decimals. *)
Definition toFixed (digits : nat) (x : Q) : string :=
  let n := Qfloor (Qabs x * inject_Z (10 ^ Z.of_nat digits) + (1 # 2))%Q in
  let m := pretty (Z.to_N n) in
  let body :=
    if (digits =? 0)%nat then m
    else
      let padded := zeros (S digits - String.length m) ++ m in
      let k := (String.length padded - digits)%nat in
      substring 0 k padded ++ "." ++ substring k digits padded in
  (if JS.Qltb x 0 then "-" else "") ++ body.

Definition formatUsd (amount : option Q) : string :=
  match amount with
  | None => "$0"
  | Some a =>
      let absAmount := Qabs a in
      if Qle_bool 1000000000 absAmount then "$" ++ toFixed 2 (a / 1000000000) ++ "B"
      else if Qle_bool 1000000 absAmount then "$" ++ toFixed 2 (a / 1000000) ++ "M"
      else if Qle_bool 1000 absAmount then "$" ++ toFixed 2 (a / 1000) ++ "K"
      else if Qle_bool 1 absAmount then "$" ++ toFixed 2 a
      else "$" ++ toFixed 6 a
  end.

Definition formatPrice (price : option Q) : string :=
  match price with
  | None => "$0"
  | Some p =>
      if Qle_bool 1 p then "$" ++ toFixed 2 p
      else if Qle_bool (1 # 10000) p then "$" ++ toFixed 6 p
      else "$" ++ toFixed 10 p
  end.

(** [address.slice(-endChars)] is the whole string when [endChars] is 0. *)
Definition truncateAddress (address : string) (startChars endChars : nat) : string :=
  let len := String.length address in
  if (len <=? startChars + endChars)%nat then address
  else substring 0 startChars address ++ "..."
         ++ (if (endChars =? 0)%nat then address
             else substring (len - endChars) endChars address).

(** The value is printed as it is and suffixed with a percent sign: the
    unit of a price change is one percent. *)
Definition formatPercent (value : option Q) : string :=
  match value with
  | None => "0%"
  | Some v => (if Qle_bool 0 v then "+" else "") ++ toFixed 2 v ++ "%"
  end.

End Formatters.

(** ** services/alertChecker.ts *)

Module AlertChecker.

Import Formatters.

(** What [discordClient.users.fetch] and [user.send] can do.  [code] is
    the [code] property of the rejected error when it is numeric
    (50007: cannot send messages to this user). *)
Record DiscordError := { code : option Z }.

Inductive FetchResult := UserFound | UserNull | FetchRejected (e : DiscordError).
Inductive SendResult := Sent | SendRejected (e : DiscordError).

Record DiscordClient := {
  usersFetch : string -> FetchResult;
  userSend : string -> string -> SendResult
}.

Inductive Completion := Resolved | Rejected (e : DiscordError).

Inductive LogLine :=
| LogUserNotFound (userId : string) (alertId : Z)
| LogTriggered (alertId : Z) (userId : string)
| LogDmClosed (userId : string)
| LogSendError (e : DiscordError).

(** The first [switch] of [evaluateAlert]; its [default] branch cannot be
    reached at a [ConditionType]. *)
Definition currentValue (alert : Alert.t) (launch : TokenLaunch.t) : option Q :=
  match Alert.conditionType alert with
  | price => TokenLaunch.priceUsd launch
  | volume => TokenLaunch.volume24h launch
  | mcap => TokenLaunch.marketCap launch
  end.

(** A column that reads back as [null] takes part in the comparison as
    the number 0. *)
Definition evaluateAlert (alert : Alert.t) (launch : TokenLaunch.t) : bool :=
  let currentValue := JS.toNumber (currentValue alert launch) in
  match Alert.operator alert with
  | OpGt => JS.Qltb (Alert.threshold alert) currentValue
  | OpLt => JS.Qltb currentValue (Alert.threshold alert)
  | OpEq =>
      let tolerance := (Alert.threshold alert * (1 # 100))%Q in
      Qle_bool (Qabs (currentValue - Alert.threshold alert)) tolerance
  end.

Definition operatorStr (o : Operator) : string :=
  match o with OpGt => ">" | OpLt => "<" | OpEq => "=" end.

Definition formatCondition (alert : Alert.t) : string :=
  let typeStr := match Alert.conditionType alert with
                 | mcap => "Market Cap"
                 | price => "Price"
                 | volume => "24h Volume"
                 end in
  let thresholdStr := match Alert.conditionType alert with
                      | price => formatPrice (Some (Alert.threshold alert))
                      | _ => formatUsd (Some (Alert.threshold alert))
                      end in
  typeStr ++ " " ++ operatorStr (Alert.operator alert) ++ " " ++ thresholdStr.

Definition getCurrentValue (alert : Alert.t) (launch : TokenLaunch.t) : string :=
  match Alert.conditionType alert with
  | price => formatPrice (TokenLaunch.priceUsd launch)
  | volume => formatUsd (TokenLaunch.volume24h launch)
  | mcap => formatUsd (TokenLaunch.marketCap launch)
  end.

Definition newline : string := String (ascii_of_nat 10) "".

Definition alertMessage (alert : Alert.t) (launch : TokenLaunch.t) : string :=
  String.concat newline
    [ "**Alert Triggered!**";
      "";
      "**Token:** " ++ TokenLaunch.name launch ++ " (" ++ TokenLaunch.symbol launch ++ ")";
      "**Condition:** " ++ formatCondition alert;
      "**Current Value:** " ++ getCurrentValue alert launch;
      "";
      "**Price:** " ++ formatPrice (TokenLaunch.priceUsd launch);
      "**Market Cap:** " ++ formatUsd (TokenLaunch.marketCap launch);
      "**24h Volume:** " ++ formatUsd (TokenLaunch.volume24h launch);
      "";
      "**Contract:** `" ++ truncateAddress (TokenLaunch.tokenAddress launch) 6 4 ++ "`";
      "**DexScreener:** " ++ TokenLaunch.dexscreenerUrl launch ].

(** [triggerAlert]: the whole body sits in one [try]; the [catch] logs
    and falls through in both of its branches. *)
Definition triggerAlert (discord : DiscordClient)
    (alert : Alert.t) (launch : TokenLaunch.t) : list LogLine * Completion :=
  match usersFetch discord (Alert.userId alert) with
  | UserNull => ([LogUserNotFound (Alert.userId alert) (Alert.id alert)], Resolved)
  | UserFound =>
      match userSend discord (Alert.userId alert) (alertMessage alert launch) with
      | Sent => ([LogTriggered (Alert.id alert) (Alert.userId alert)], Resolved)
      | SendRejected e =>
          if bool_decide (code e = Some 50007)
          then ([LogDmClosed (Alert.userId alert)], Resolved)
          else ([LogSendError e], Resolved)
      end
  | FetchRejected e =>
      if bool_decide (code e = Some 50007)
      then ([LogDmClosed (Alert.userId alert)], Resolved)
      else ([LogSendError e], Resolved)
  end.

(** One iteration of the loop of [checkAlerts], with its [try]/[catch]:
    a rejection of [triggerAlert] would skip [markAlertTriggered]. *)
Definition checkAlert (discord : DiscordClient) (st : list LogLine * LaunchStore.t)
    (alert : Alert.t) : list LogLine * LaunchStore.t :=
  let '(console, db) := st in
  match LaunchStore.getLaunchByToken (Alert.tokenAddress alert) db with
  | None => (console, db)
  | Some launch =>
      if evaluateAlert alert launch then
        match triggerAlert discord alert launch with
        | (out, Resolved) =>
            ((console ++ out)%list, LaunchStore.markAlertTriggered (Alert.id alert) db)
        | (out, Rejected _) => ((console ++ out)%list, db)
        end
      else (console, db)
  end.

Definition checkAlerts (discord : DiscordClient) (db : LaunchStore.t)
    : list LogLine * LaunchStore.t :=
  let activeAlerts := LaunchStore.getActiveAlerts db in
  foldl (checkAlert discord) ([], db) activeAlerts.

End AlertChecker.

(** ** services/dexscreener.ts *)

Module DexScreenerPair.
Record BaseToken := {
  address : string;
  name : string;
  symbol : string
}.

(** The fields of a pair that the service reads; [volume], [priceChange]
    and [liquidity] are flattened to their [h24] / [usd] members. *)
Record t := mk {
  chainId : string;
  dexId : string;
  url : string;
  pairAddress : string;
  baseToken : option BaseToken;
  priceUsd : option string;
  volume_h24 : option Q;
  priceChange_h24 : option Q;
  liquidity_usd : option Q;
  fdv : option Q;
  marketCap : option Q;
  pairCreatedAt : option Z
}.
End DexScreenerPair.

Module TokenListing.
(** [TokenProfile] and [DexScreenerBoost], restricted to the two fields
    the service reads. *)
Record t := mk {
  chainId : string;
  tokenAddress : string
}.
End TokenListing.

Module Config.
(** [config.filters], parsed with [parseInt] from the environment. *)
Record Filters := {
  minLiquidityUsd : Z;
  minVolumeUsd : Z;
  minPairAgeMinutes : Z
}.
End Config.

Module DexScreenerService.

(** *** The world of an asynchronous call *)

(** A rejected request: [status] is [error.response?.status]. *)
Record AxiosError := {
  status : option Z;
  message : string
}.

Inductive Thrown := ThrownNull | ThrownError (e : AxiosError).

Inductive Result (A : Type) :=
| Ok (a : A)
| Throw (e : Thrown).
Arguments Ok {A} a.
Arguments Throw {A} e.

Inductive Endpoint :=
| EpSearch (q : string)
| EpTokenBoostsTop
| EpTokenBoostsLatest
| EpTokenProfilesLatest
| EpTokens (addressList : string)
| EpPairs (pairAddress : string)
| EpTokenPairs (tokenAddress : string).

(** [EvPace] is the timer of [rateLimitedRequest], [EvBackoff] the timer
    of [retryWithBackoff], [EvGet] a dispatched request. *)
Inductive Event :=
| EvPace (ms : Z)
| EvBackoff (ms : Z)
| EvGet (ep : Endpoint).

Record World := {
  clock : Z;
  lastRequestTime : Z;
  requests : nat;
  trace : list Event
}.

Inductive Reply (A : Type) :=
| Fulfilled (data : A)
| Failed (e : AxiosError).
Arguments Fulfilled {A} data.
Arguments Failed {A} e.

(** The market-data API: the answer to the [n]-th dispatched request,
    per endpoint, and the time the request takes.  The bodies are those
    of the declared response types, read as follows.
    [Fulfilled (Some l)]: the array that the closure of the request
    reads is [l]; this is the body itself, and its member [pairs] for
    the search, pairs and token-pairs endpoints.
    [Fulfilled None]: that body or member is missing or falsy, which
    [|| []] and [?.] read as no entries; for [tokens], whose closure
    tests [Array.isArray], also every body that is no array.
    [Failed e]: the closure of the request throws [e]; either the
    request is rejected, or the closure itself throws a TypeError on the
    body it received, an error without [response], so that
    [status e = None]: reading [.pairs] of a [null] body, and, in
    [fetchLatestBoosts], calling [.filter] on a body that is truthy and
    no array.
    In every other place a truthy value that is no array, where the
    declared type has an array, is no value of that type and has no
    reply here: [fetchTopBoosts], [fetchLatestProfiles], [searchPairs]
    and [fetchTokenPairs] would hand it on unread. *)
Record Upstream := {
  latency : nat -> Z;
  search : nat -> string -> Reply (option (list DexScreenerPair.t));
  tokenBoostsTop : nat -> Reply (option (list TokenListing.t));
  tokenBoostsLatest : nat -> Reply (option (list TokenListing.t));
  tokenProfilesLatest : nat -> Reply (option (list TokenListing.t));
  tokens : nat -> string -> Reply (option (list DexScreenerPair.t));
  pairs : nat -> string -> Reply (option (list DexScreenerPair.t));
  tokenPairs : nat -> string -> Reply (option (list DexScreenerPair.t))
}.

Definition M (A : Type) : Type := World -> Result A * World.

#[global] Instance M_ret : MRet M := fun A a w => (Ok a, w).

#[global] Instance M_bind : MBind M := fun A B f m w =>
  match m w with
  | (Ok a, w') => f a w'
  | (Throw e, w') => (Throw e, w')
  end.

Definition throw {A} (e : Thrown) : M A := fun w => (Throw e, w).

(** [try { body } catch (e) { handler e }]: the effects of a failed body
    stay. *)
Definition tryCatch {A} (body : M A) (handler : Thrown -> M A) : M A := fun w =>
  match body w with
  | (Ok a, w') => (Ok a, w')
  | (Throw e, w') => handler e w'
  end.

(** [await new Promise(resolve => setTimeout(resolve, ms))] *)
Definition sleep (ev : Z -> Event) (ms : Z) (w : World) : World :=
  {| clock := clock w + ms;
     lastRequestTime := lastRequestTime w;
     requests := requests w;
     trace := trace w ++ [ev ms] |}.

Definition minRequestInterval : Z := 500.

Definition rateLimitedRequest {A} (fn : M A) : M A := fun w =>
  let now := clock w in
  let timeSinceLastRequest := now - lastRequestTime w in
  let w1 := if timeSinceLastRequest <? minRequestInterval
            then sleep EvPace (minRequestInterval - timeSinceLastRequest) w
            else w in
  fn {| clock := clock w1;
        lastRequestTime := clock w1;
        requests := requests w1;
        trace := trace w1 |}.

(** The [for] loop of [retryWithBackoff]: [remaining] counts the
    iterations left, [attempt] is the loop variable. *)
Fixpoint retryLoop {A} (fn : M A) (maxRetries : nat) (remaining attempt : nat)
    (lastError : Thrown) : M A :=
  match remaining with
  | O => throw lastError
  | S remaining' => fun w =>
      match fn w with
      | (Ok a, w') => (Ok a, w')
      | (Throw error, w') =>
          let w'' := if Z.of_nat attempt <? Z.of_nat maxRetries - 1
                     then sleep EvBackoff (2 ^ Z.of_nat attempt * 1000) w'
                     else w' in
          retryLoop fn maxRetries remaining' (S attempt) error w''
      end
  end.

Definition retryWithBackoff {A} (fn : M A) (maxRetries : nat) : M A :=
  retryLoop fn maxRetries maxRetries 0 ThrownNull.

Definition defaultMaxRetries : nat := 3.

Definition SEARCH_TERMS : list string :=
  [ "ai"; "agent"; "gpt"; "trump"; "elon"; "musk";
    "dog"; "cat"; "frog"; "pepe"; "wojak";
    "moon"; "rocket"; "lambo"; "rich"; "based";
    "meme"; "degen"; "ape"; "chad"; "gigachad";
    "coin"; "token"; "inu"; "shib"; "floki" ].

Section Client.

Variable api : Upstream.

(** [this.client.get(url)] *)
Definition clientGet {A} (ep : Endpoint) (reply : nat -> Reply A) : M A := fun w =>
  let n := requests w in
  let w' := {| clock := clock w + latency api n;
               lastRequestTime := lastRequestTime w;
               requests := S n;
               trace := trace w ++ [EvGet ep] |} in
  match reply n with
  | Fulfilled data => (Ok data, w')
  | Failed e => (Throw (ThrownError e), w')
  end.

Definition isBase (chainId : string) : bool := bool_decide (chainId = "base").

Definition searchPairs (query : string) : M (list DexScreenerPair.t) :=
  retryWithBackoff
    (rateLimitedRequest
       (data ← clientGet (EpSearch query) (fun n => search api n query);
        mret (default [] data)))
    defaultMaxRetries.

Definition fetchTopBoosts : M (list TokenListing.t) :=
  retryWithBackoff
    (rateLimitedRequest
       (data ← clientGet EpTokenBoostsTop (tokenBoostsTop api);
        mret (default [] data)))
    defaultMaxRetries.

Definition fetchLatestProfiles : M (list TokenListing.t) :=
  retryWithBackoff
    (rateLimitedRequest
       (data ← clientGet EpTokenProfilesLatest (tokenProfilesLatest api);
        mret (default [] data)))
    defaultMaxRetries.

(** [(response.data || []).filter(boost => boost.chainId === 'base')]
    inside the retried closure: a missing body gives no entries; a
    truthy body without [filter] makes the closure throw, which is the
    reply [Failed] of [tokenBoostsLatest] and is retried like a rejected
    request. *)
Definition fetchLatestBoosts : M (list TokenListing.t) :=
  retryWithBackoff
    (rateLimitedRequest
       (data ← clientGet EpTokenBoostsLatest (tokenBoostsLatest api);
        mret (List.filter (fun boost => isBase (TokenListing.chainId boost))
                (default [] data))))
    defaultMaxRetries.

(** [for (i = 0; i < n; i += 30) batches.push(slice(i, i + 30))] *)
Fixpoint batchesFrom (count : nat) (l : list string) : list (list string) :=
  match count with
  | O => []
  | S count' => take 30 l :: batchesFrom count' (drop 30 l)
  end.

Definition batchesOf (tokenAddresses : list string) : list (list string) :=
  batchesFrom (Nat.div (length tokenAddresses + 29) 30) tokenAddresses.

Definition fetchBatch (batch : list string) : M (list DexScreenerPair.t) :=
  let addressList := String.concat "," batch in
  retryWithBackoff
    (rateLimitedRequest
       (data ← clientGet (EpTokens addressList) (fun n => tokens api n addressList);
        mret (default [] data)))
    defaultMaxRetries.

Fixpoint fetchBatches (batches : list (list string))
    (allPairs : list DexScreenerPair.t) : M (list DexScreenerPair.t) :=
  match batches with
  | [] => mret allPairs
  | batch :: rest =>
      allPairs' ← tryCatch (pairs ← fetchBatch batch; mret (allPairs ++ pairs)%list)
                           (fun _ => mret allPairs);
      fetchBatches rest allPairs'
  end.

Definition fetchMultipleTokens (tokenAddresses : list string)
    : M (list DexScreenerPair.t) :=
  if (length tokenAddresses =? 0)%nat then mret []
  else fetchBatches (batchesOf tokenAddresses) [].

(** The request of [fetchPairByAddress]: a [try] around the [get], whose
    [catch] turns a [404] into [null] and rethrows anything else. *)
Definition pairLookup (pairAddress : string) : M (option DexScreenerPair.t) :=
  tryCatch
    (data ← clientGet (EpPairs pairAddress) (fun n => pairs api n pairAddress);
     mret (data ≫= head))
    (fun error =>
       match error with
       | ThrownError e =>
           if bool_decide (status e = Some 404) then mret None else throw error
       | ThrownNull => throw error
       end).

Definition fetchPairByAddress (pairAddress : string) : M (option DexScreenerPair.t) :=
  retryWithBackoff (rateLimitedRequest (pairLookup pairAddress)) defaultMaxRetries.

Definition fetchTokenPairs (tokenAddress : string) : M (list DexScreenerPair.t) :=
  retryWithBackoff
    (rateLimitedRequest
       (data ← clientGet (EpTokenPairs tokenAddress) (fun n => tokenPairs api n tokenAddress);
        mret (default [] data)))
    defaultMaxRetries.

(** *** [fetchBasePairs] *)

Section Aggregation.

(** The closure [addPairs] and the state it captures. *)
Context {Acc : Type} (addPairs : list DexScreenerPair.t -> Acc -> Acc).

(** Strategies 1 to 3: a listing call, the Base entries of it, a
    batched pair lookup, all inside one [try]. *)
Definition listingStrategy (fetchListings : M (list TokenListing.t))
    (acc : Acc) : M Acc :=
  tryCatch
    (listings ← fetchListings;
     let baseListings :=
       List.filter (fun p => isBase (TokenListing.chainId p)) listings in
     if (0 <? length baseListings)%nat then
       pairs ← fetchMultipleTokens (List.map TokenListing.tokenAddress baseListings);
       mret (addPairs pairs acc)
     else mret acc)
    (fun _ => mret acc).

(** Strategy 4: one search per term, each in its own [try]. *)
Fixpoint searchStrategy (terms : list string) (acc : Acc) : M Acc :=
  match terms with
  | [] => mret acc
  | term :: rest =>
      acc' ← tryCatch
               (pairs ← searchPairs term;
                let basePairs :=
                  List.filter (fun p => isBase (DexScreenerPair.chainId p)) pairs in
                mret (addPairs basePairs acc))
               (fun _ => mret acc);
      searchStrategy rest acc'
  end.

Definition fetchBasePairsWith (init : Acc) : M Acc :=
  acc1 ← listingStrategy fetchLatestProfiles init;
  acc2 ← listingStrategy fetchLatestBoosts acc1;
  acc3 ← listingStrategy fetchTopBoosts acc2;
  searchStrategy SEARCH_TERMS acc3.

End Aggregation.

(** [allPairs] and [seenAddresses]. *)
Definition Seen : Type := list DexScreenerPair.t * gset string.

Definition addPair (acc : Seen) (pair : DexScreenerPair.t) : Seen :=
  let addr := JS.toLowerCase (DexScreenerPair.pairAddress pair) in
  if decide (addr ∈ acc.2) then acc
  else ((acc.1 ++ [pair])%list, {[addr]} ∪ acc.2).

Definition addPairs (pairs : list DexScreenerPair.t) (acc : Seen) : Seen :=
  foldl addPair acc pairs.

Definition fetchBasePairs : M (list DexScreenerPair.t) :=
  acc ← fetchBasePairsWith addPairs ([], ∅);
  mret acc.1.

End Client.


(** *** [filterValidPairs] *)

Definition BLOCKED_SYMBOLS : list string :=
  [ "WETH"; "WBTC"; "WSOL"; "WMATIC"; "WAVAX"; "WBNB"; "WFTM";
    "CBETH"; "CBBTC"; "CBTC"; "CBLTC"; "CBXRP"; "CBSOL"; "CBDOGE";
    "RETH"; "STETH"; "WSTETH"; "TBTC"; "RENBTC"; "HBTC";
    "USDC"; "USDT"; "DAI"; "BUSD"; "TUSD"; "USDP"; "GUSD"; "FRAX"; "LUSD";
    "SUSD"; "USDD"; "USDBC"; "EURC"; "PYUSD";
    "ETH"; "BTC"; "SOL"; "MATIC"; "AVAX"; "BNB"; "FTM"; "OP"; "ARB"; "LTC";
    "XRP"; "DOGE"; "ADA"; "DOT";
    "LINK"; "UNI"; "AAVE"; "CRV"; "MKR"; "SNX"; "COMP"; "SUSHI"; "YFI"; "BAL";
    "PEPE"; "SHIB"; "FLOKI"; "BONK"; "WIF"; "BRETT"; "TOSHI"; "DEGEN" ].

(** The rest of [s] after a case-insensitive match of the lower-case
    literal [pat] at its start. *)
Fixpoint afterPrefixCI (pat s : string) : option string :=
  match pat, s with
  | EmptyString, _ => Some s
  | String p pat', String c s' =>
      if bool_decide (JS.lowerAscii c = p) then afterPrefixCI pat' s' else None
  | String _ _, EmptyString => None
  end.

(** [\b] after a word character: the next character is no word character. *)
Definition wordEnds (rest : string) : bool :=
  match rest with
  | EmptyString => true
  | String c _ => negb (JS.isWord c)
  end.

(** [/\bwrapped\b/i] and [/\bbridge[d]?\b/i] tried at one position;
    [prev] is the character before it. *)
Definition wordAt (matchHere : string -> bool) (prev : option ascii) (s : string) : bool :=
  match prev with
  | Some c => negb (JS.isWord c) && matchHere s
  | None => matchHere s
  end.

Fixpoint searchWord (matchHere : string -> bool) (prev : option ascii) (s : string) : bool :=
  wordAt matchHere prev s ||
  match s with
  | String c s' => searchWord matchHere (Some c) s'
  | EmptyString => false
  end.

Definition wrappedHere (s : string) : bool :=
  match afterPrefixCI "wrapped" s with
  | Some rest => wordEnds rest
  | None => false
  end.

Definition bridgedHere (s : string) : bool :=
  match afterPrefixCI "bridge" s with
  | Some rest =>
      wordEnds rest ||
      match rest with
      | String c rest' => bool_decide (JS.lowerAscii c = "d"%char) && wordEnds rest'
      | EmptyString => false
      end
  | None => false
  end.

Definition BLOCKED_NAME_PATTERNS : list (string -> bool) :=
  [ (* /^wrapped\s/i *)
    (fun name => match afterPrefixCI "wrapped" name with
                 | Some (String c _) => JS.isSpace c
                 | _ => false
                 end);
    (* /^bridged\s/i *)
    (fun name => match afterPrefixCI "bridged" name with
                 | Some (String c _) => JS.isSpace c
                 | _ => false
                 end);
    (* /\bwrapped\b/i *)
    searchWord wrappedHere None;
    (* /\bbridge[d]?\b/i *)
    searchWord bridgedHere None;
    (* /^coinbase\s+wrapped/i *)
    (fun name => match afterPrefixCI "coinbase" name with
                 | Some (String c rest) =>
                     JS.isSpace c && bool_decide (is_Some (afterPrefixCI "wrapped" (JS.dropSpaces rest)))
                 | _ => false
                 end);
    (* /^USD\s?Coin/i *)
    (fun name => match afterPrefixCI "usd" name with
                 | Some rest =>
                     bool_decide (is_Some (afterPrefixCI "coin" rest)) ||
                     match rest with
                     | String c rest' =>
                         JS.isSpace c && bool_decide (is_Some (afterPrefixCI "coin" rest'))
                     | EmptyString => false
                     end
                 | None => false
                 end);
    (* /^Tether/i *)
    (fun name => bool_decide (is_Some (afterPrefixCI "tether" name)));
    (* /^cb[A-Z]/ *)
    (fun name => match name with
                 | String "c" (String "b" (String c _)) => JS.isUpper c
                 | _ => false
                 end) ].

Definition MAX_MCAP_FOR_NEW_LAUNCH : Q := 50000000.

Section Filter.

Variable filters : Config.Filters.
(** The value of [Date.now()] at the start of the call. *)
Variable now : Z.

Definition effectiveLiquidity (pair : DexScreenerPair.t) : Q :=
  JS.orZero (DexScreenerPair.liquidity_usd pair).

Definition effectiveVolume (pair : DexScreenerPair.t) : Q :=
  JS.orZero (DexScreenerPair.volume_h24 pair).

(** [pair.marketCap || pair.fdv || 0] *)
Definition effectiveMarketCap (pair : DexScreenerPair.t) : Q :=
  if JS.truthy (DexScreenerPair.marketCap pair)
  then JS.orZero (DexScreenerPair.marketCap pair)
  else JS.orZero (DexScreenerPair.fdv pair).

(** The predicate handed to [pairs.filter]. *)
Definition isValidPair (pair : DexScreenerPair.t) : bool :=
  let minAgeMs := Config.minPairAgeMinutes filters * 60 * 1000 in
  let maxAgeMs := 7 * 24 * 60 * 60 * 1000 in
  match DexScreenerPair.baseToken pair with
  | None => false
  | Some baseToken =>
      let name := DexScreenerPair.name baseToken in
      if bool_decide (name = "") || bool_decide (DexScreenerPair.symbol baseToken = "")
      then false
      else
        let symbol := JS.toUpperCase (DexScreenerPair.symbol baseToken) in
        if bool_decide (symbol ∈ BLOCKED_SYMBOLS) then false
        else if existsb (fun pattern => pattern name) BLOCKED_NAME_PATTERNS then false
        else
          match DexScreenerPair.pairCreatedAt pair with
          | None => false
          | Some createdAt =>
              if createdAt =? 0 then false
              else
                let ageMs := now - createdAt in
                if ageMs <? minAgeMs then false
                else if maxAgeMs <? ageMs then false
                else if JS.Qltb (effectiveLiquidity pair)
                          (inject_Z (Config.minLiquidityUsd filters)) then false
                else if JS.Qltb (effectiveVolume pair)
                          (inject_Z (Config.minVolumeUsd filters)) then false
                else if JS.Qltb MAX_MCAP_FOR_NEW_LAUNCH (effectiveMarketCap pair) then false
                else true
          end
  end.

Definition filterValidPairs (pairs : list DexScreenerPair.t) : list DexScreenerPair.t :=
  List.filter isValidPair pairs.

End Filter.

End DexScreenerService.

(** ** discord/commands/alert.ts *)

Module AlertCommand.

Record ParsedCondition := {
  type : ConditionType;
  operator : Operator;
  threshold : Q
}.

(** [input.replace(/\s/g, '')] *)
Fixpoint removeSpaces (s : string) : string :=
  match s with
  | EmptyString => EmptyString
  | String c s' => if JS.isSpace c then removeSpaces s' else String c (removeSpaces s')
  end.

Fixpoint afterPrefix (pat s : string) : option string :=
  match pat, s with
  | EmptyString, _ => Some s
  | String p pat', String c s' =>
      if bool_decide (c = p) then afterPrefix pat' s' else None
  | String _ _, EmptyString => None
  end.

Fixpoint allDigits (s : string) : bool :=
  match s with
  | EmptyString => true
  | String c s' => JS.isDigit c && allDigits s'
  end.

(** [\d*$] after the optional dot, then [\.?\d*$] after the first digit. *)
Fixpoint numeralTail (s : string) : bool :=
  match s with
  | EmptyString => true
  | String c s' =>
      if JS.isDigit c then numeralTail s'
      else bool_decide (c = "."%char) && allDigits s'
  end.

(** [\d+\.?\d*$] *)
Definition isNumeral (s : string) : bool :=
  match s with
  | String c s' => JS.isDigit c && numeralTail s'
  | EmptyString => false
  end.

(** The groups of a successful match. *)
Record Match := {
  group1 : string;
  group2 : string;
  group3 : string
}.

(** An operator [[><]=?] and a numeral up to the end of the input, after
    the keyword [kw]; the optional [=] is tried first, as the greedy
    quantifier does. *)
Definition matchTail (kw rest : string) : option Match :=
  match rest with
  | String c rest1 =>
      if bool_decide (c = ">"%char) || bool_decide (c = "<"%char) then
        let op := String c "" in
        match rest1 with
        | String "=" rest2 =>
            if isNumeral rest2
            then Some {| group1 := kw; group2 := op ++ "="; group3 := rest2 |}
            else if isNumeral rest1
                 then Some {| group1 := kw; group2 := op; group3 := rest1 |}
                 else None
        | _ =>
            if isNumeral rest1
            then Some {| group1 := kw; group2 := op; group3 := rest1 |}
            else None
        end
      else None
  | EmptyString => None
  end.

(** The alternation [(price|mcap|vol|volume|marketcap)], left to right. *)
Fixpoint matchKeywords (kws : list string) (cleaned : string) : option Match :=
  match kws with
  | [] => None
  | kw :: kws' =>
      match afterPrefix kw cleaned ≫= matchTail kw with
      | Some m => Some m
      | None => matchKeywords kws' cleaned
      end
  end.

Definition conditionPattern (cleaned : string) : option Match :=
  matchKeywords ["price"; "mcap"; "vol"; "volume"; "marketcap"] cleaned.

(** [parseFloat] on an unsigned decimal numeral: the digits before the
    dot, then the digits after it scaled by their count. *)
Fixpoint digitsValue (acc : Z) (s : string) : Z * string :=
  match s with
  | String c s' =>
      if JS.isDigit c then digitsValue (10 * acc + JS.digitVal c) s' else (acc, s)
  | EmptyString => (acc, s)
  end.

Definition parseFloat (s : string) : option Q :=
  match s with
  | String c _ =>
      if JS.isDigit c then
        let '(whole, rest) := digitsValue 0 s in
        match rest with
        | String "." frac =>
            let '(num, rest') := digitsValue 0 frac in
            let digits := (String.length frac - String.length rest')%nat in
            Some (inject_Z whole + inject_Z num / inject_Z (10 ^ Z.of_nat digits))%Q
        | _ => Some (inject_Z whole)
        end
      else None
  | EmptyString => None
  end.

Definition parseCondition (input : string) : option ParsedCondition :=
  let cleaned := JS.toLowerCase (removeSpaces input) in
  match conditionPattern cleaned with
  | None => None
  | Some m =>
      let type :=
        if bool_decide (group1 m = "price") then Some price
        else if bool_decide (group1 m = "mcap") || bool_decide (group1 m = "marketcap")
             then Some mcap
        else if bool_decide (group1 m = "vol") || bool_decide (group1 m = "volume")
             then Some volume
        else None in
      let operator :=
        if bool_decide (group2 m = ">") || bool_decide (group2 m = ">=") then Some OpGt
        else if bool_decide (group2 m = "<") || bool_decide (group2 m = "<=") then Some OpLt
        else if bool_decide (group2 m = "=") then Some OpEq
        else None in
      match type, operator with
      | Some type, Some operator =>
          match parseFloat (group3 m) with
          | None => None
          | Some threshold =>
              if JS.Qltb threshold 0 then None
              else Some {| type := type; operator := operator; threshold := threshold |}
          end
      | _, _ => None
      end
  end.

(** [/^0x[a-fA-F0-9]{40}$/] *)
Fixpoint allHex (s : string) : bool :=
  match s with
  | EmptyString => true
  | String c s' => JS.isHex c && allHex s'
  end.

Definition isValidAddress (address : string) : bool :=
  match address with
  | String "0" (String "x" digits) =>
      (String.length digits =? 40)%nat && allHex digits
  | _ => false
  end.

(** [parseInt(s, 10)]: leading white space, an optional sign, then the
    longest run of digits; [None] is NaN. *)
Definition parseInt (s : string) : option Z :=
  let unsigned (t : string) : option Z :=
    match t with
    | String c _ => if JS.isDigit c then Some (digitsValue 0 t).1 else None
    | EmptyString => None
    end in
  match JS.dropSpaces s with
  | String "-" t => Z.opp <$> unsigned t
  | String "+" t => unsigned t
  | t => unsigned t
  end.

(** What the command answers with. *)
Inductive Response :=
| ShowAlerts
| DeleteUsage
| InvalidAlertId
| Deleted (alertId : Z)
| NotDeleted
| AlertHelp
| InvalidAddress
| AlertCreated (alertId : Z).

(** [author] is [message.author.id], [now] the value of [Date.now()]. *)
Definition createAlert (author tokenAddress conditionStr : string) (now : Z)
    (store : LaunchStore.t) : Response * LaunchStore.t :=
  if negb (isValidAddress tokenAddress) then (InvalidAddress, store)
  else
    match parseCondition conditionStr with
    | None => (AlertHelp, store)
    | Some condition =>
        let '(alertId, store') :=
          LaunchStore.createAlert author tokenAddress
            (type condition) (operator condition) (threshold condition) now store in
        (AlertCreated alertId, store')
    end.

Definition deleteAlert (author alertIdStr : string)
    (store : LaunchStore.t) : Response * LaunchStore.t :=
  match parseInt alertIdStr with
  | None => (InvalidAlertId, store)
  | Some alertId =>
      let '(deleted, store') := LaunchStore.deleteAlert alertId author store in
      (if deleted then Deleted alertId else NotDeleted, store')
  end.

Definition handleAlert (author : string) (args : list string) (now : Z)
    (store : LaunchStore.t) : Response * LaunchStore.t :=
  match args with
  | [] => (ShowAlerts, store)
  | arg0 :: rest =>
      let subcommand := JS.toLowerCase arg0 in
      if bool_decide (subcommand = "list") then (ShowAlerts, store)
      else if bool_decide (subcommand = "delete") || bool_decide (subcommand = "rm")
              || bool_decide (subcommand = "remove") then
        match rest with
        | [] => (DeleteUsage, store)
        | arg1 :: _ => deleteAlert author arg1 store
        end
      else
        match rest with
        | [] => (AlertHelp, store)
        | _ => createAlert author arg0 (String.concat "" rest) now store
        end
  end.

End AlertCommand.

(** ** Vocabulary of the statements *)

Local Open Scope list_scope.

Module Frame.

Import TokenLaunch.

(** The columns an upsert must leave alone. *)
Definition sameIdentity (a b : TokenLaunch.t) : Prop :=
  pairAddress a = pairAddress b /\ tokenAddress a = tokenAddress b /\
  name a = name b /\ symbol a = symbol b /\ dexId a = dexId b /\
  pairCreatedAt a = pairCreatedAt b /\ dexscreenerUrl a = dexscreenerUrl b.

(** The columns an upsert overwrites. *)
Definition sameMarket (a b : TokenLaunch.t) : Prop :=
  priceUsd a = priceUsd b /\ marketCap a = marketCap b /\
  volume24h a = volume24h b /\ liquidityUsd a = liquidityUsd b /\
  priceChange24h a = priceChange24h b /\ lastUpdated a = lastUpdated b.

(** The last launch of [items] observed for pool [k], or [cur] when the
    batch has none. *)
Fixpoint latestObservation (k : string) (items : list TokenLaunch.t)
    (cur : TokenLaunch.t) : TokenLaunch.t :=
  match items with
  | [] => cur
  | l :: rest => latestObservation k rest (if decide (pairAddress l = k) then l else cur)
  end.

End Frame.

Module AlertLoop.

(** What one pass of the loop keeps: the launches, the ids in the alerts
    table, and the alerts already triggered. *)
Definition alertsAdvance (db db' : LaunchStore.t) : Prop :=
  LaunchStore.launches db' = LaunchStore.launches db /\
  Alert.id <$> LaunchStore.alerts db' = Alert.id <$> LaunchStore.alerts db /\
  forall i, (forall x, x ∈ LaunchStore.alerts db -> Alert.id x = i -> Alert.triggered x = true) ->
            (forall x, x ∈ LaunchStore.alerts db' -> Alert.id x = i -> Alert.triggered x = true).

End AlertLoop.

Module Retry.

Import DexScreenerService.

(** The world in which the next attempt starts after [n] failed attempts
    in a row, the first of them numbered [attempt]: each failure numbered
    [i] is followed by a wait of [2^i * 1000] ms.  [None] when one of the
    [n] attempts succeeds. *)
Fixpoint afterFailuresFrom {A} (fn : M A) (attempt n : nat) (w : World) : option World :=
  match n with
  | O => Some w
  | S n' =>
      match fn w with
      | (Throw _, w') =>
          afterFailuresFrom fn (S attempt) n' (sleep EvBackoff (2 ^ Z.of_nat attempt * 1000) w')
      | (Ok _, _) => None
      end
  end.

Definition afterFailures {A} (fn : M A) (n : nat) (w : World) : option World :=
  afterFailuresFrom fn 0 n w.

(** The durations of the backoff timers of a trace, in order. *)
Definition backoffs (t : list Event) : list Z :=
  omap (fun ev => match ev with EvBackoff ms => Some ms | _ => None end) t.

(** The requests of a trace, in order. *)
Definition gets (t : list Event) : list Endpoint :=
  omap (fun ev => match ev with EvGet ep => Some ep | _ => None end) t.

End Retry.

Module Dedup.

Import DexScreenerService.

Definition poolKey (p : DexScreenerPair.t) : string :=
  JS.toLowerCase (DexScreenerPair.pairAddress p).

(** [p] stands in [arrivals] at a position before which no pair has its
    lower-cased pool address. *)
Definition firstOccurrence (arrivals : list DexScreenerPair.t) (p : DexScreenerPair.t) : Prop :=
  exists pre post, arrivals = pre ++ p :: post /\ poolKey p ∉ poolKey <$> pre.

(** A computation feeds batches to the closure when its final state is
    the fold of the closure over a list of batches that does not depend
    on the closure. *)
Definition feeds (run : forall Acc, (list DexScreenerPair.t -> Acc -> Acc) -> Acc -> M Acc)
    (w : World) (batches : list (list DexScreenerPair.t)) (w' : World) : Prop :=
  forall Acc (add : list DexScreenerPair.t -> Acc -> Acc) (acc : Acc),
    run Acc add acc w = (Ok (foldl (fun a ps => add ps a) acc batches), w').

End Dedup.

Module Boundary.

(** An alert as the command boundary may store it. *)
Definition fromCommand (a : Alert.t) : Prop :=
  (Alert.operator a = OpGt \/ Alert.operator a = OpLt) /\
  (0 <= Alert.threshold a)%Q /\ Alert.triggered a = false.

End Boundary.


(** ** Sample data *)

Module Samples.

Definition emptyStore : LaunchStore.t :=
  {| LaunchStore.launches := ∅; LaunchStore.alerts := []; LaunchStore.alertSeq := 0 |}.

Definition launch (pair token : string) (priceUsd marketCap volume24h liquidityUsd
    priceChange24h : Q) (pairCreatedAt lastUpdated : Z) : TokenLaunch.t :=
  {| TokenLaunch.pairAddress := pair;
     TokenLaunch.tokenAddress := token;
     TokenLaunch.name := "Sample"%string;
     TokenLaunch.symbol := "SMP"%string;
     TokenLaunch.dexId := "uniswap"%string;
     TokenLaunch.priceUsd := Some priceUsd;
     TokenLaunch.marketCap := Some marketCap;
     TokenLaunch.volume24h := Some volume24h;
     TokenLaunch.liquidityUsd := Some liquidityUsd;
     TokenLaunch.priceChange24h := Some priceChange24h;
     TokenLaunch.pairCreatedAt := Some pairCreatedAt;
     TokenLaunch.dexscreenerUrl := "https://dexscreener.com/base/sample"%string;
     TokenLaunch.lastUpdated := lastUpdated |}.

(** A fixed instant, in milliseconds since the epoch. *)
Definition now : Z := 1700000000000.

Definition minutes (n : Z) : Z := n * 60 * 1000.
Definition hours (n : Z) : Z := n * 60 * 60 * 1000.

Definition aged10min : TokenLaunch.t :=
  launch "0xpool1" "0xtoken1" 2 1000000 5000 20000 12 (now - minutes 10) now.
Definition aged2h : TokenLaunch.t :=
  launch "0xpool2" "0xtoken2" 1 500000 9000 15000 (-3) (now - hours 2) now.
Definition aged10h : TokenLaunch.t :=
  launch "0xpool3" "0xtoken3" 3 700000 70000 30000 40 (now - hours 10) now.
Definition aged30h : TokenLaunch.t :=
  launch "0xpool4" "0xtoken4" 4 900000 80000 40000 5 (now - hours 30) now.

Definition fourLaunches : LaunchStore.t :=
  LaunchStore.upsertLaunches [aged10min; aged2h; aged10h; aged30h] emptyStore.

(** A second observation of pool 1: every column differs from [aged10min]
    except the pool address. *)
Definition reobserved : TokenLaunch.t :=
  {| TokenLaunch.pairAddress := "0xpool1";
     TokenLaunch.tokenAddress := "0xother";
     TokenLaunch.name := "Renamed"%string;
     TokenLaunch.symbol := "REN"%string;
     TokenLaunch.dexId := "aerodrome"%string;
     TokenLaunch.priceUsd := Some 5%Q;
     TokenLaunch.marketCap := Some 2000000%Q;
     TokenLaunch.volume24h := Some 7777%Q;
     TokenLaunch.liquidityUsd := Some 31000%Q;
     TokenLaunch.priceChange24h := Some 55%Q;
     TokenLaunch.pairCreatedAt := Some now;
     TokenLaunch.dexscreenerUrl := "https://dexscreener.com/base/other"%string;
     TokenLaunch.lastUpdated := now + 30000 |}.

(** Two pools of equal volume and liquidity created an hour ago: one
    lost its whole price in 24 hours (shown as -100.00%), one did not move. *)
Definition collapsed : TokenLaunch.t :=
  launch "0xpoolA" "0xtokenA" 0 0 1000 500 (-100) (now - hours 1) now.
Definition steady : TokenLaunch.t :=
  launch "0xpoolB" "0xtokenB" 1 100000 1000 500 0 (now - hours 1) now.
(** A pool that lost one percent. *)
Definition dipped : TokenLaunch.t :=
  launch "0xpoolC" "0xtokenC" 1 100000 1000 500 (-1) (now - hours 1) now.

Definition trendingStore : LaunchStore.t :=
  LaunchStore.upsertLaunches [collapsed; steady; dipped] emptyStore.

(** An alert of user [u1] on token 1: price above 1. *)
Definition alertStore : LaunchStore.t :=
  (LaunchStore.createAlert "u1" "0xTOKEN1" price OpGt 1 now fourLaunches).2.

Definition priceAlert : Alert.t :=
  {| Alert.id := 1; Alert.userId := "u1"; Alert.tokenAddress := "0xtoken1";
     Alert.conditionType := price; Alert.operator := OpGt; Alert.threshold := 1;
     Alert.triggered := false; Alert.createdAt := now |}.

(** An alert with the equality operator: price = 100. *)
Definition equalityAlert : Alert.t :=
  {| Alert.id := 2; Alert.userId := "u1"; Alert.tokenAddress := "0xtoken5";
     Alert.conditionType := price; Alert.operator := OpEq; Alert.threshold := 100;
     Alert.triggered := false; Alert.createdAt := now |}.

Definition pricedAt (p : Q) : TokenLaunch.t :=
  launch "0xpool5" "0xtoken5" p 1000000 5000 20000 0 (now - hours 1) now.

(** A Discord client whose [send] is rejected by a failure that is not
    "cannot send messages to this user": the error carries no code 50007. *)
Definition outage : AlertChecker.DiscordError := {| AlertChecker.code := None |}.

Definition failingDiscord : AlertChecker.DiscordClient :=
  {| AlertChecker.usersFetch := fun _ => AlertChecker.UserFound;
     AlertChecker.userSend := fun _ _ => AlertChecker.SendRejected outage |}.

Definition workingDiscord : AlertChecker.DiscordClient :=
  {| AlertChecker.usersFetch := fun _ => AlertChecker.UserFound;
     AlertChecker.userSend := fun _ _ => AlertChecker.Sent |}.

(** [config.filters] with the defaults of [loadConfig]. *)
Definition defaultFilters : Config.Filters :=
  {| Config.minLiquidityUsd := 1000;
     Config.minVolumeUsd := 500;
     Config.minPairAgeMinutes := 5 |}.

(** A pool created an hour ago that passes every rule when its liquidity
    is 5000 and its market cap 100000. *)
Definition candidate (liquidity : option Q) (marketCap fdv : option Q) : DexScreenerPair.t :=
  {| DexScreenerPair.chainId := "base";
     DexScreenerPair.dexId := "uniswap";
     DexScreenerPair.url := "https://dexscreener.com/base/0xpool9";
     DexScreenerPair.pairAddress := "0xPool9";
     DexScreenerPair.baseToken :=
       Some {| DexScreenerPair.address := "0xToken9";
               DexScreenerPair.name := "Moon Cat";
               DexScreenerPair.symbol := "mcat" |};
     DexScreenerPair.priceUsd := Some "0.0042"%string;
     DexScreenerPair.volume_h24 := Some 10000%Q;
     DexScreenerPair.priceChange_h24 := Some 12%Q;
     DexScreenerPair.liquidity_usd := liquidity;
     DexScreenerPair.fdv := fdv;
     DexScreenerPair.marketCap := marketCap;
     DexScreenerPair.pairCreatedAt := Some (now - hours 1) |}.

Definition goodCandidate : DexScreenerPair.t :=
  candidate (Some 5000%Q) (Some 100000%Q) None.
Definition thinCandidate : DexScreenerPair.t :=
  candidate (Some 999%Q) (Some 100000%Q) None.
Definition largeCandidate : DexScreenerPair.t :=
  candidate (Some 5000%Q) (Some 50000001%Q) None.
Definition dilutedCandidate : DexScreenerPair.t :=
  candidate (Some 5000%Q) None (Some 50000001%Q).

(** *** Upstream behaviours *)

Definition serverError : DexScreenerService.AxiosError :=
  {| DexScreenerService.status := Some 503;
     DexScreenerService.message := "Request failed with status code 503" |}.

Definition networkError : DexScreenerService.AxiosError :=
  {| DexScreenerService.status := None;
     DexScreenerService.message := "socket hang up" |}.

Definition notFound : DexScreenerService.AxiosError :=
  {| DexScreenerService.status := Some 404;
     DexScreenerService.message := "Request failed with status code 404" |}.

(** Every endpoint answers with an empty body after 100 ms. *)
Definition quietApi : DexScreenerService.Upstream :=
  {| DexScreenerService.latency := fun _ => 100;
     DexScreenerService.search := fun _ _ => DexScreenerService.Fulfilled None;
     DexScreenerService.tokenBoostsTop := fun _ => DexScreenerService.Fulfilled None;
     DexScreenerService.tokenBoostsLatest := fun _ => DexScreenerService.Fulfilled None;
     DexScreenerService.tokenProfilesLatest := fun _ => DexScreenerService.Fulfilled None;
     DexScreenerService.tokens := fun _ _ => DexScreenerService.Fulfilled None;
     DexScreenerService.pairs := fun _ _ => DexScreenerService.Fulfilled None;
     DexScreenerService.tokenPairs := fun _ _ => DexScreenerService.Fulfilled None |}.

(** The first two requests fail with a 503, later ones succeed. *)
Definition flakyApi : DexScreenerService.Upstream :=
  {| DexScreenerService.latency := fun _ => 100;
     DexScreenerService.search := fun n _ =>
       if (n <? 2)%nat then DexScreenerService.Failed serverError
       else DexScreenerService.Fulfilled (Some [goodCandidate]);
     DexScreenerService.tokenBoostsTop := fun _ => DexScreenerService.Fulfilled None;
     DexScreenerService.tokenBoostsLatest := fun _ => DexScreenerService.Fulfilled None;
     DexScreenerService.tokenProfilesLatest := fun _ => DexScreenerService.Fulfilled None;
     DexScreenerService.tokens := fun _ _ => DexScreenerService.Fulfilled None;
     DexScreenerService.pairs := fun _ _ => DexScreenerService.Fulfilled None;
     DexScreenerService.tokenPairs := fun _ _ => DexScreenerService.Fulfilled None |}.

(** The pair endpoint answers [reply]; everything else is quiet. *)
Definition pairsApi (reply : nat -> DexScreenerService.Reply (option (list DexScreenerPair.t)))
    : DexScreenerService.Upstream :=
  {| DexScreenerService.latency := fun _ => 100;
     DexScreenerService.search := fun _ _ => DexScreenerService.Fulfilled None;
     DexScreenerService.tokenBoostsTop := fun _ => DexScreenerService.Fulfilled None;
     DexScreenerService.tokenBoostsLatest := fun _ => DexScreenerService.Fulfilled None;
     DexScreenerService.tokenProfilesLatest := fun _ => DexScreenerService.Fulfilled None;
     DexScreenerService.tokens := fun _ _ => DexScreenerService.Fulfilled None;
     DexScreenerService.pairs := fun n _ => reply n;
     DexScreenerService.tokenPairs := fun _ _ => DexScreenerService.Fulfilled None |}.

Definition startWorld : DexScreenerService.World :=
  {| DexScreenerService.clock := now;
     DexScreenerService.lastRequestTime := 0;
     DexScreenerService.requests := 0;
     DexScreenerService.trace := [] |}.

(** The same pool under two spellings of its address, and another pool. *)
Definition poolUpper : DexScreenerPair.t := goodCandidate.
Definition poolLower : DexScreenerPair.t :=
  {| DexScreenerPair.chainId := "base";
     DexScreenerPair.dexId := "aerodrome";
     DexScreenerPair.url := "https://dexscreener.com/base/0xpool9";
     DexScreenerPair.pairAddress := "0xpool9";
     DexScreenerPair.baseToken := DexScreenerPair.baseToken goodCandidate;
     DexScreenerPair.priceUsd := Some "0.0043"%string;
     DexScreenerPair.volume_h24 := Some 10500%Q;
     DexScreenerPair.priceChange_h24 := Some 13%Q;
     DexScreenerPair.liquidity_usd := Some 5100%Q;
     DexScreenerPair.fdv := None;
     DexScreenerPair.marketCap := Some 101000%Q;
     DexScreenerPair.pairCreatedAt := Some (now - hours 1) |}.
Definition otherPool : DexScreenerPair.t :=
  {| DexScreenerPair.chainId := "base";
     DexScreenerPair.dexId := "uniswap";
     DexScreenerPair.url := "https://dexscreener.com/base/0xpool7";
     DexScreenerPair.pairAddress := "0xpool7";
     DexScreenerPair.baseToken := DexScreenerPair.baseToken goodCandidate;
     DexScreenerPair.priceUsd := Some "1.5"%string;
     DexScreenerPair.volume_h24 := Some 700%Q;
     DexScreenerPair.priceChange_h24 := None;
     DexScreenerPair.liquidity_usd := Some 2000%Q;
     DexScreenerPair.fdv := Some 9000%Q;
     DexScreenerPair.marketCap := None;
     DexScreenerPair.pairCreatedAt := Some (now - hours 3) |}.

(** The profile listing leads to [poolUpper]; the search for "cat" finds
    [poolLower] and [otherPool]; the other calls find nothing. *)
Definition overlappingApi : DexScreenerService.Upstream :=
  {| DexScreenerService.latency := fun _ => 100;
     DexScreenerService.search := fun _ q =>
       if bool_decide (q = "cat"%string)
       then DexScreenerService.Fulfilled (Some [poolLower; otherPool])
       else DexScreenerService.Fulfilled (Some []);
     DexScreenerService.tokenBoostsTop := fun _ => DexScreenerService.Failed serverError;
     DexScreenerService.tokenBoostsLatest := fun _ => DexScreenerService.Fulfilled (Some []);
     DexScreenerService.tokenProfilesLatest := fun _ =>
       DexScreenerService.Fulfilled
         (Some [ {| TokenListing.chainId := "base"; TokenListing.tokenAddress := "0xToken9" |} ]);
     DexScreenerService.tokens := fun _ _ => DexScreenerService.Fulfilled (Some [poolUpper]);
     DexScreenerService.pairs := fun _ _ => DexScreenerService.Fulfilled None;
     DexScreenerService.tokenPairs := fun _ _ => DexScreenerService.Fulfilled None |}.

End Samples.

(** ** Further vocabulary: the store *)

Module StoreInv.

Import TokenLaunch LaunchStore.

(** The launches of a batch observed for pool [k], in batch order. *)
Definition observations (k : string) (items : list TokenLaunch.t) : list TokenLaunch.t :=
  filter (fun l => pairAddress l = k) items.

(** Every row of [launches] is stored under its own pool address. *)
Definition keyed (db : LaunchStore.t) : Prop :=
  forall k l, launches db !! k = Some l -> pairAddress l = k.

(** The ids of [alerts] are pairwise distinct and none exceeds the
    AUTOINCREMENT counter. *)
Definition alertIdsFresh (db : LaunchStore.t) : Prop :=
  NoDup (Alert.id <$> alerts db) /\
  forall a, a ∈ alerts db -> Alert.id a <= alertSeq db.

(** [NULL] sorts below every number. *)
Definition nullsLowest (a b : option Q) : Prop :=
  match a, b with
  | None, _ => True
  | Some _, None => False
  | Some x, Some y => (x <= y)%Q
  end.

End StoreInv.

Module AlertMatch.


End AlertMatch.

(** ** Further vocabulary: the service *)

Module Pacing.

Import DexScreenerService.

(** A run of paced requests, one after the other, answers dropped. *)
Fixpoint dispatchAll (api : Upstream) (eps : list Endpoint) (w : World) : World :=
  match eps with
  | [] => w
  | ep :: rest =>
      dispatchAll api rest
        (rateLimitedRequest (clientGet api ep (fun _ => Fulfilled tt)) w).2
  end.

(** The shape shared by the fetchers: up to three paced requests to one
    endpoint, the body mapped by [f]. *)
Definition fetcher {A B} (api : Upstream) (ep : Endpoint) (reply : nat -> Reply A)
    (f : A -> B) : M B :=
  retryWithBackoff
    (rateLimitedRequest (data ← clientGet api ep reply; mret (f data)))
    defaultMaxRetries.

(** What a fetcher makes of the answers to its requests, the first of
    which is numbered [n]. *)
Definition firstFulfilled {A B} (reply : nat -> Reply A) (f : A -> B) (n : nat)
    : Result B * nat :=
  match reply n with
  | Fulfilled d => (Ok (f d), 1%nat)
  | Failed _ =>
      match reply (S n) with
      | Fulfilled d => (Ok (f d), 2%nat)
      | Failed _ =>
          match reply (S (S n)) with
          | Fulfilled d => (Ok (f d), 3%nat)
          | Failed e => (Throw (ThrownError e), 3%nat)
          end
      end
  end.

End Pacing.

Module Words.

(** The last character of a string. *)
Fixpoint lastChar (s : string) : option ascii :=
  match s with
  | EmptyString => None
  | String c EmptyString => Some c
  | String _ s' => lastChar s'
  end.

(** [name] holds [w] as a whole word: between a start or a character
    that is no word character and an end or a character that is no word
    character. *)
Definition holdsWord (name w : string) : Prop :=
  exists pre post,
    name = (pre ++ w ++ post)%string /\
    match lastChar pre with Some c => JS.isWord c = false | None => True end /\
    match post with String c _ => JS.isWord c = false | EmptyString => True end.

End Words.

(** ** services/dexscreener.ts: [pairToLaunch] *)

Module Normalize.

Import DexScreenerService.

Section PairToLaunch.

(** The library function [parseFloat]; [None] stands for NaN, which
    SQLite stores as NULL. *)
Variable parseFloat : string -> option Q.

(** [pair.priceUsd || '0'] *)
Definition priceText (pair : DexScreenerPair.t) : string :=
  match DexScreenerPair.priceUsd pair with
  | Some s => if bool_decide (s = "") then "0" else s
  | None => "0"
  end.

(** [pair.pairCreatedAt || Date.now()] *)
Definition createdOrNow (now : Z) (pair : DexScreenerPair.t) : Z :=
  match DexScreenerPair.pairCreatedAt pair with
  | Some c => if c =? 0 then now else c
  | None => now
  end.

(** [pairToLaunch]; [now] is the value of [Date.now()].  Reading
    [pair.baseToken.address] of a pair without base token throws a
    TypeError: the result is [None] then. *)
Definition pairToLaunch (now : Z) (pair : DexScreenerPair.t) : option TokenLaunch.t :=
  match DexScreenerPair.baseToken pair with
  | None => None
  | Some baseToken =>
      Some {| TokenLaunch.pairAddress := JS.toLowerCase (DexScreenerPair.pairAddress pair);
              TokenLaunch.tokenAddress := JS.toLowerCase (DexScreenerPair.address baseToken);
              TokenLaunch.name := DexScreenerPair.name baseToken;
              TokenLaunch.symbol := DexScreenerPair.symbol baseToken;
              TokenLaunch.dexId := DexScreenerPair.dexId pair;
              TokenLaunch.priceUsd := parseFloat (priceText pair);
              TokenLaunch.marketCap := Some (effectiveMarketCap pair);
              TokenLaunch.volume24h := Some (effectiveVolume pair);
              TokenLaunch.liquidityUsd := Some (effectiveLiquidity pair);
              TokenLaunch.priceChange24h := Some (JS.orZero (DexScreenerPair.priceChange_h24 pair));
              TokenLaunch.pairCreatedAt := Some (createdOrNow now pair);
              TokenLaunch.dexscreenerUrl := DexScreenerPair.url pair;
              TokenLaunch.lastUpdated := now |}
  end.

(** [validPairs.map(pair => pairToLaunch(pair))]: one throw aborts the map. *)
Definition pairsToLaunches (now : Z) (pairs : list DexScreenerPair.t)
    : option (list TokenLaunch.t) :=
  mapM (pairToLaunch now) pairs.

End PairToLaunch.

End Normalize.

(** ** Timers of the two schedules *)

Module Timers.

(** The interval timers of the process: [live] holds the handles that
    [setInterval] returned and [clearInterval] has not cleared. *)
Record t := {
  live : gset nat;
  nextHandle : nat
}.

Definition setInterval (ts : t) : nat * t :=
  (nextHandle ts, {| live := {[nextHandle ts]} ∪ live ts; nextHandle := S (nextHandle ts) |}).

Definition clearInterval (handle : nat) (ts : t) : t :=
  {| live := live ts ∖ {[handle]}; nextHandle := nextHandle ts |}.

(** Every live handle was handed out already. *)
Definition handlesIssued (ts : t) : Prop :=
  forall h, h ∈ live ts -> (h < nextHandle ts)%nat.

(** [AlertChecker.startChecking] and [stopChecking], as far as the timer
    goes: [checkInterval] is the field of that name. *)
Definition startChecking (st : option nat * t) : option nat * t :=
  let '(_, ts) := st in
  let '(handle, ts') := setInterval ts in
  (Some handle, ts').

Definition stopChecking (st : option nat * t) : option nat * t :=
  match st with
  | (Some handle, ts) => (None, clearInterval handle ts)
  | (None, ts) => (None, ts)
  end.

End Timers.

(** ** services/tokenTracker.ts *)

Module TokenTracker.

Import DexScreenerService Normalize.

Section Poll.

Variable api : Upstream.
Variable filters : Config.Filters.
Variable parseFloat : string -> option Q.

(** [poll]: the body of the [try]; a throw inside it is caught and
    logged, and the store keeps what it had.  The calls of [Date.now()]
    after the fetch happen without a suspension in between and read the
    same clock. *)
Definition poll (st : World * LaunchStore.t) : World * LaunchStore.t :=
  let '(w, store) := st in
  match fetchBasePairs api w with
  | (Ok pairs, w') =>
      let validPairs := filterValidPairs filters (clock w') pairs in
      match pairsToLaunches parseFloat (clock w') validPairs with
      | Some launches =>
          let stored := LaunchStore.upsertLaunches launches store in
          (w', (LaunchStore.pruneOldLaunches 48 (clock w') stored).2)
      | None => (w', store)
      end
  | (Throw _, w') => (w', store)
  end.

(** The fields [pollInterval] and [isPolling]. *)
Record t := {
  pollInterval : option nat;
  isPolling : bool
}.

(** [startPolling], run to its end without another call of the tracker
    in between: the guard, the first poll, then the interval timer. *)
Definition startPolling (st : t * Timers.t * (World * LaunchStore.t))
    : t * Timers.t * (World * LaunchStore.t) :=
  let '(tracker, timers, state) := st in
  if isPolling tracker then st
  else
    let state' := poll state in
    let '(handle, timers') := Timers.setInterval timers in
    ({| pollInterval := Some handle; isPolling := true |}, timers', state').

Definition stopPolling (st : t * Timers.t * (World * LaunchStore.t))
    : t * Timers.t * (World * LaunchStore.t) :=
  let '(tracker, timers, state) := st in
  let timers' := match pollInterval tracker with
                 | Some handle => Timers.clearInterval handle timers
                 | None => timers
                 end in
  ({| pollInterval := None; isPolling := false |}, timers', state).

End Poll.

End TokenTracker.


(** ** Further sample data *)

Module Samples2.

(** A candidate whose only fault is its symbol. *)
Definition wethCandidate : DexScreenerPair.t :=
  {| DexScreenerPair.chainId := "base";
     DexScreenerPair.dexId := "uniswap";
     DexScreenerPair.url := "";
     DexScreenerPair.pairAddress := "0xPool9";
     DexScreenerPair.baseToken :=
       Some {| DexScreenerPair.address := "0xToken9";
               DexScreenerPair.name := "Moon Cat";
               DexScreenerPair.symbol := "wEth" |};
     DexScreenerPair.priceUsd := None;
     DexScreenerPair.volume_h24 := Some 10000%Q;
     DexScreenerPair.priceChange_h24 := None;
     DexScreenerPair.liquidity_usd := Some 5000%Q;
     DexScreenerPair.fdv := None;
     DexScreenerPair.marketCap := Some 100000%Q;
     DexScreenerPair.pairCreatedAt := Some (Samples.now - Samples.hours 1) |}.

(** A [parseFloat] that knows the price texts of the samples. *)
Definition sampleParseFloat (s : string) : option Q :=
  if bool_decide (s = "0.0042"%string) then Some (42 # 10000)%Q
  else if bool_decide (s = "0"%string) then Some 0%Q
  else None.

(** A pool created three days ago that passes every rule of the filter. *)
Definition threeDaysOld : DexScreenerPair.t :=
  {| DexScreenerPair.chainId := "base";
     DexScreenerPair.dexId := "uniswap";
     DexScreenerPair.url := "https://dexscreener.com/base/0xpool3d";
     DexScreenerPair.pairAddress := "0xPool3D";
     DexScreenerPair.baseToken :=
       Some {| DexScreenerPair.address := "0xToken3D";
               DexScreenerPair.name := "Moon Cat";
               DexScreenerPair.symbol := "MCAT" |};
     DexScreenerPair.priceUsd := Some "0.0042"%string;
     DexScreenerPair.volume_h24 := Some 10000%Q;
     DexScreenerPair.priceChange_h24 := Some 12%Q;
     DexScreenerPair.liquidity_usd := Some 5000%Q;
     DexScreenerPair.fdv := None;
     DexScreenerPair.marketCap := Some 100000%Q;
     DexScreenerPair.pairCreatedAt := Some (Samples.now + 3600 - Samples.hours 72) |}.

(** The search for "cat" finds [threeDaysOld] and [Samples.goodCandidate];
    every other call finds nothing. *)
Definition agedApi : DexScreenerService.Upstream :=
  {| DexScreenerService.latency := fun _ => 100;
     DexScreenerService.search := fun _ q =>
       if bool_decide (q = "cat"%string)
       then DexScreenerService.Fulfilled (Some [threeDaysOld; Samples.goodCandidate])
       else DexScreenerService.Fulfilled (Some []);
     DexScreenerService.tokenBoostsTop := fun _ => DexScreenerService.Fulfilled None;
     DexScreenerService.tokenBoostsLatest := fun _ => DexScreenerService.Fulfilled None;
     DexScreenerService.tokenProfilesLatest := fun _ => DexScreenerService.Fulfilled None;
     DexScreenerService.tokens := fun _ _ => DexScreenerService.Fulfilled None;
     DexScreenerService.pairs := fun _ _ => DexScreenerService.Fulfilled None;
     DexScreenerService.tokenPairs := fun _ _ => DexScreenerService.Fulfilled None |}.

(** An alert "mcap = 1000000". *)
Definition mcapEqualityAlert : Alert.t :=
  {| Alert.id := 3; Alert.userId := "u1"; Alert.tokenAddress := "0xtoken5";
     Alert.conditionType := mcap; Alert.operator := OpEq; Alert.threshold := 1000000;
     Alert.triggered := false; Alert.createdAt := Samples.now |}.

(** What the closure of [fetchLatestBoosts] throws when the body is
    truthy and no array: a TypeError, which has no [response]. *)
Definition filterTypeError : DexScreenerService.AxiosError :=
  {| DexScreenerService.status := None;
     DexScreenerService.message := "(response.data || []).filter is not a function" |}.

(** Every answer of the latest-boosts endpoint is an object that is no
    array; the other endpoints find nothing. *)
Definition objectBoostsApi : DexScreenerService.Upstream :=
  {| DexScreenerService.latency := fun _ => 100;
     DexScreenerService.search := fun _ _ => DexScreenerService.Fulfilled (Some []);
     DexScreenerService.tokenBoostsTop := fun _ => DexScreenerService.Fulfilled None;
     DexScreenerService.tokenBoostsLatest := fun _ => DexScreenerService.Failed filterTypeError;
     DexScreenerService.tokenProfilesLatest := fun _ => DexScreenerService.Fulfilled None;
     DexScreenerService.tokens := fun _ _ => DexScreenerService.Fulfilled None;
     DexScreenerService.pairs := fun _ _ => DexScreenerService.Fulfilled None;
     DexScreenerService.tokenPairs := fun _ _ => DexScreenerService.Fulfilled None |}.

End Samples2.

(** ** discord/commands/launches.ts *)

Module LaunchesCommand.

(** The input without its last character, and that character. *)
Fixpoint splitLast (s : string) : option (string * ascii) :=
  match s with
  | EmptyString => None
  | String c EmptyString => Some (EmptyString, c)
  | String c s' =>
      match splitLast s' with
      | Some (init, l) => Some (String c init, l)
      | None => None
      end
  end.

Fixpoint dropDigits (s : string) : string :=
  match s with
  | String c s' => if JS.isDigit c then dropDigits s' else s
  | EmptyString => s
  end.

(** [\d+$] *)
Definition isDigits (s : string) : bool :=
  match s with
  | String _ _ => AlertCommand.allDigits s
  | EmptyString => false
  end.

(** The first group of the pattern: digits, then at most once a dot
    followed by digits, up to the end. *)
Definition isDecimal (s : string) : bool :=
  match s with
  | String c _ =>
      JS.isDigit c &&
      match dropDigits s with
      | EmptyString => true
      | String "." frac => isDigits frac
      | _ => false
      end
  | EmptyString => false
  end.

(** [parseTimeframe]: the pattern is anchored at both ends and its unit
    is one character, so a match splits the lower-cased input into the
    unit at the end and the number before it. *)
Definition parseTimeframe (input : string) : option Q :=
  match splitLast (JS.toLowerCase input) with
  | None => None
  | Some (number, unit) =>
      if isDecimal number then
        match AlertCommand.parseFloat number with
        | None => None
        | Some value =>
            if bool_decide (unit = "m"%char) then Some (value / 60)%Q
            else if bool_decide (unit = "h"%char) then Some value
            else if bool_decide (unit = "d"%char) then Some (value * 24)%Q
            else None
        end
      else None
  end.

(** [sortArg && SORT_MAP[sortArg] ? SORT_MAP[sortArg] : 'volume'], as
    far as [getLaunches] tells the results apart: a word that is no key
    of [SORT_MAP] gives the volume order, and so does a name that the
    object inherits, which [getLaunches] sends to its default branch. *)
Definition sortOf (sortArg : option string) : SortOption :=
  match sortArg with
  | None => SortVolume
  | Some arg =>
      let word := JS.toLowerCase arg in
      if bool_decide (word = "mcap") || bool_decide (word = "marketcap") then SortMcap
      else if bool_decide (word = "age") then SortAge
      else SortVolume
  end.

Inductive Response :=
| Usage
| Launches (timeframeHours : Q) (sortBy : SortOption) (rows : list TokenLaunch.t).

(** [handleLaunches]; an empty list of rows is the answer that no
    launches were found.  [now] is the value of [Date.now()]. *)
Definition handleLaunches (args : list string) (now : Z) (store : LaunchStore.t) : Response :=
  match args with
  | [] => Usage
  | arg0 :: rest =>
      let timeframeArg := JS.toLowerCase arg0 in
      if bool_decide (timeframeArg = "") then Usage
      else
        match parseTimeframe timeframeArg with
        | None => Usage
        | Some timeframeHours =>
            if Qle_bool timeframeHours 0 || JS.Qltb 168 timeframeHours then Usage
            else
              let sortBy := sortOf (head rest) in
              Launches timeframeHours sortBy
                (LaunchStore.getLaunches timeframeHours sortBy 15 now store)
        end
  end.

End LaunchesCommand.

(** ** database/store.ts: the watchlist table *)

Module Watchlist.

Record Entry := {
  id : Z;
  userId : string;
  tokenAddress : string;
  addedAt : Z
}.

(** The rows of [watchlist] in insertion order and the AUTOINCREMENT
    counter of the table. *)
Record t := {
  entries : list Entry;
  seq : Z
}.

Definition sameKey (user address : string) (e : Entry) : bool :=
  bool_decide (userId e = user) && bool_decide (tokenAddress e = address).

(** [addToWatchlist]: the insert fails on [UNIQUE(user_id, token_address)]
    and the method answers [false]; [now] is the value of [Date.now()]. *)
Definition addToWatchlist (user address : string) (now : Z) (tbl : t) : bool * t :=
  let key := JS.toLowerCase address in
  if existsb (sameKey user key) (entries tbl) then (false, tbl)
  else
    (true,
     {| entries := entries tbl ++
          [ {| id := seq tbl + 1; userId := user; tokenAddress := key; addedAt := now |} ];
        seq := seq tbl + 1 |}).

(** [DELETE FROM watchlist WHERE user_id = ? AND token_address = ?] *)
Definition removeFromWatchlist (user address : string) (tbl : t) : bool * t :=
  let key := JS.toLowerCase address in
  (existsb (sameKey user key) (entries tbl),
   {| entries := List.filter (fun e => negb (sameKey user key e)) (entries tbl);
      seq := seq tbl |}).

Definition newestFirst : relation Entry := fun a b => addedAt b <= addedAt a.

#[global] Instance newestFirst_dec a b : Decision (newestFirst a b).
Proof. unfold newestFirst. apply _. Defined.

(** [SELECT ... WHERE user_id = ? ORDER BY added_at DESC] *)
Definition getWatchlist (user : string) (tbl : t) : list Entry :=
  merge_sort newestFirst (List.filter (fun e => bool_decide (userId e = user)) (entries tbl)).

(** No two rows share user and token address. *)
Definition unique (tbl : t) : Prop :=
  NoDup ((fun e => (userId e, tokenAddress e)) <$> entries tbl).

End Watchlist.
(** * Theorems *)

(** ** Launch store: upsert *)

Section UpsertFacts.

Import TokenLaunch LaunchStore Frame.

Lemma sameIdentity_refl a : sameIdentity a a.
Proof. by repeat split. Qed.

Lemma sameIdentity_trans a b c : sameIdentity a b -> sameIdentity b c -> sameIdentity a c.
Proof. unfold sameIdentity. intros H1 H2. destruct_and!. repeat split; congruence. Qed.

Lemma sameMarket_refl a : sameMarket a a.
Proof. by repeat split. Qed.

Lemma onConflict_identity old new : sameIdentity old (onConflict old new).
Proof. by repeat split. Qed.

Lemma onConflict_market old new : sameMarket new (onConflict old new).
Proof. by repeat split. Qed.

Lemma upsertRow_conflict launch tbl old :
  tbl !! pairAddress launch = Some old ->
  upsertRow launch tbl !! pairAddress launch = Some (onConflict old launch).
Proof. intros H. unfold upsertRow. rewrite H. apply lookup_insert_eq. Qed.

Lemma upsertRow_fresh launch tbl :
  tbl !! pairAddress launch = None ->
  upsertRow launch tbl !! pairAddress launch = Some launch.
Proof. intros H. unfold upsertRow. rewrite H. apply lookup_insert_eq. Qed.

Lemma upsertRow_other launch tbl k :
  pairAddress launch <> k -> upsertRow launch tbl !! k = tbl !! k.
Proof.
  intros H. unfold upsertRow.
  destruct (tbl !! pairAddress launch); by rewrite lookup_insert_ne.
Qed.

Lemma upsertLaunches_cons launch items db :
  upsertLaunches (launch :: items) db = upsertLaunches items (upsertLaunch launch db).
Proof. reflexivity. Qed.

Lemma upsertLaunches_row items : forall db k old cur,
  launches db !! k = Some old ->
  sameMarket cur old ->
  exists r, launches (upsertLaunches items db) !! k = Some r /\
            sameIdentity old r /\ sameMarket (latestObservation k items cur) r.
Proof.
  induction items as [|l rest IH]; intros db k old cur Hk Hcur.
  - exists old. simpl. auto using sameIdentity_refl.
  - rewrite upsertLaunches_cons. simpl latestObservation.
    destruct (decide (pairAddress l = k)) as [<-|Hne].
    + destruct (IH (upsertLaunch l db) (pairAddress l) (onConflict old l) l)
        as (r & Hr & Hid & Hm).
      * simpl. by apply upsertRow_conflict.
      * apply onConflict_market.
      * exists r. split; [done|]. split; [|done].
        eapply sameIdentity_trans; [apply onConflict_identity|done].
    + apply IH; [|done]. simpl. by rewrite upsertRow_other.
Qed.

(** C2. Upserting onto a stored pool overwrites the six market columns
    (price, market cap, volume, liquidity, price change, last update) and
    nothing else: after one [upsertLaunch] the row is the old one with the
    market columns of the new launch; after any batch [upsertLaunches] the
    row keeps tokenAddress, name, symbol, dexId, pairCreatedAt and the
    DexScreener URL of the stored row and carries the market columns of
    the batch's last launch for that pool (those of the stored row if the
    batch has none). *)
Theorem upsert_overwrites_only_market_fields :
  forall (db : LaunchStore.t) (k : string) (old : TokenLaunch.t),
    launches db !! k = Some old ->
    (forall launch, pairAddress launch = k ->
       exists r, launches (upsertLaunch launch db) !! k = Some r /\
                 sameIdentity old r /\ sameMarket launch r) /\
    (forall items,
       exists r, launches (upsertLaunches items db) !! k = Some r /\
                 sameIdentity old r /\ sameMarket (latestObservation k items old) r).
Proof.
  intros db k old Hk. split.
  - intros launch <-. exists (onConflict old launch). simpl.
    split; [by apply upsertRow_conflict|].
    split; [apply onConflict_identity|apply onConflict_market].
  - intros items. apply upsertLaunches_row; [done|apply sameMarket_refl].
Qed.

(** C2 on concrete rows: pool 1 is observed again with every column
    changed. *)
Lemma upsert_overwrites_only_market_fields_witness :
  launches Samples.fourLaunches !! "0xpool1"%string = Some Samples.aged10min /\
  exists r,
    launches (upsertLaunch Samples.reobserved Samples.fourLaunches) !! "0xpool1"%string
      = Some r /\
    sameIdentity Samples.aged10min r /\ sameMarket Samples.reobserved r.
Proof.
  assert (H : launches Samples.fourLaunches !! "0xpool1"%string = Some Samples.aged10min)
    by (vm_compute; reflexivity).
  split; [exact H|].
  apply (upsert_overwrites_only_market_fields _ _ _ H). reflexivity.
Defined.

End UpsertFacts.

(** ** Launch store: queries *)

Section QueryFacts.

Import TokenLaunch LaunchStore.

Lemma Qltb_lt a b : JS.Qltb a b = true <-> (a < b)%Q.
Proof.
  unfold JS.Qltb. rewrite negb_true_iff. split.
  - intros H. apply Qnot_le_lt. intros Hle.
    apply Qle_bool_iff in Hle. congruence.
  - intros H. destruct (Qle_bool b a) eqn:E; [|reflexivity].
    apply Qle_bool_iff in E. exfalso. exact (Qlt_not_le _ _ H E).
Qed.

Lemma Qltb_ge a b : JS.Qltb a b = false <-> (b <= a)%Q.
Proof. unfold JS.Qltb. rewrite negb_false_iff. apply Qle_bool_iff. Qed.

Lemma descNullsLast_spec a b :
  descNullsLast a b = true <->
  b = None \/ exists x y, a = Some x /\ b = Some y /\ (y <= x)%Q.
Proof.
  destruct a as [x|], b as [y|]; simpl; split; intros H; try done; auto.
  - right. exists x, y. by rewrite <- Qle_bool_iff.
  - destruct H as [?|(x' & y' & [= <-] & [= <-] & H)]; [done|].
    by apply Qle_bool_iff.
  - destruct H as [?|(? & ? & ? & _)]; done.
Qed.

#[local] Instance orderedBy_total key : Total (orderedBy key).
Proof.
  intros a b. unfold orderedBy.
  destruct (key a) as [x|], (key b) as [y|]; simpl; auto.
  destruct (Qlt_le_dec x y) as [H|H].
  - right. apply Qle_bool_iff. by apply Qlt_le_weak.
  - left. by apply Qle_bool_iff.
Qed.

#[local] Instance orderedBy_trans key : Transitive (orderedBy key).
Proof.
  intros a b c. unfold orderedBy.
  destruct (key a) as [x|], (key b) as [y|], (key c) as [z|]; simpl; try done.
  rewrite !Qle_bool_iff. intros H1 H2. by eapply Qle_trans.
Qed.

Lemma orderBy_perm key l : orderBy key l ≡ₚ l.
Proof. apply merge_sort_Permutation. Qed.

Lemma orderBy_sorted key l : StronglySorted (orderedBy key) (orderBy key l).
Proof. apply StronglySorted_merge_sort; apply _. Qed.

Lemma sqlLimit_split {A} limit (l : list A) :
  exists rest, l = sqlLimit limit l ++ rest /\
    (0 <= limit -> length (sqlLimit limit l) = Nat.min (Z.to_nat limit) (length l)) /\
    (limit < 0 -> rest = []).
Proof.
  unfold sqlLimit. destruct (limit <? 0) eqn:E.
  - exists []. rewrite app_nil_r. apply Z.ltb_lt in E.
    split; [done|]. split; [lia|done].
  - apply Z.ltb_ge in E. exists (drop (Z.to_nat limit) l).
    rewrite take_drop. split; [done|]. split; [|lia].
    intros _. apply length_take.
Qed.

Lemma elem_of_rows db l : l ∈ rows db <-> exists k, launches db !! k = Some l.
Proof.
  unfold rows. rewrite list_elem_of_fmap. split.
  - intros ([k v] & -> & H). exists k. by apply elem_of_map_to_list in H.
  - intros (k & H). exists (k, l). split; [done|]. by apply elem_of_map_to_list.
Qed.

Lemma createdSince_spec cutoff l :
  createdSince cutoff l = true <->
  exists c, pairCreatedAt l = Some c /\ (cutoff <= inject_Z c)%Q.
Proof.
  unfold createdSince. destruct (pairCreatedAt l) as [c|]; split.
  - intros H. exists c. by rewrite <- Qle_bool_iff.
  - intros (c' & [= <-] & H). by apply Qle_bool_iff.
  - done.
  - by intros (? & ? & _).
Qed.

Lemma positive_spec o :
  positive o = true <-> exists v, o = Some v /\ (0 < v)%Q.
Proof.
  unfold positive. destruct o as [v|]; split.
  - intros H. exists v. split; [done|]. by apply Qltb_lt.
  - intros (v' & [= <-] & H). by apply Qltb_lt.
  - done.
  - by intros (? & ? & _).
Qed.

(** The shape shared by [getLaunches] and [getTrendingLaunches]:
    [SELECT ... WHERE P ORDER BY key DESC LIMIT limit]. *)
Lemma select_spec (P : TokenLaunch.t -> bool) key limit db :
  exists ranked rest,
    ranked ≡ₚ filter (fun l => P l = true) (rows db) /\
    (forall l, l ∈ ranked <-> (exists k, launches db !! k = Some l) /\ P l = true) /\
    StronglySorted (orderedBy key) ranked /\
    ranked = sqlLimit limit (orderBy key (filter (fun l => P l = true) (rows db))) ++ rest /\
    (forall x y,
       x ∈ sqlLimit limit (orderBy key (filter (fun l => P l = true) (rows db))) ->
       y ∈ rest -> orderedBy key x y) /\
    (0 <= limit ->
       length (sqlLimit limit (orderBy key (filter (fun l => P l = true) (rows db))))
       = Nat.min (Z.to_nat limit) (length ranked)) /\
    (limit < 0 -> rest = []).
Proof.
  set (matching := filter (fun l => P l = true) (rows db)).
  destruct (sqlLimit_split limit (orderBy key matching)) as (rest & Hsplit & Hlen & Hneg).
  exists (orderBy key matching), rest.
  split; [apply orderBy_perm|].
  split.
  { intros l. rewrite orderBy_perm. unfold matching.
    rewrite list_elem_of_filter, elem_of_rows. tauto. }
  split; [apply orderBy_sorted|].
  split; [done|]. split; [|split; done].
  intros x y Hx Hy. pose proof (orderBy_sorted key matching) as Hs.
  rewrite Hsplit in Hs. by apply (StronglySorted_app_1_elem_of _ _ _ _ _ Hs).
Qed.

End QueryFacts.

Section QueryClaims.

Import TokenLaunch LaunchStore.

Ltac q2z :=
  unfold Qle, Qlt, Qminus, Qplus, Qopp, Qmult, inject_Z in *; simpl in *; lia.

Lemma rows_upsert_fresh l db :
  launches db !! pairAddress l = None ->
  rows (upsertLaunch l db) ≡ₚ l :: rows db.
Proof.
  intros H. unfold rows, upsertLaunch, upsertRow. simpl. rewrite H.
  by rewrite map_to_list_insert.
Qed.

Lemma launches_upsert_other l db k :
  pairAddress l <> k -> launches (upsertLaunch l db) !! k = launches db !! k.
Proof. intros H. simpl. by apply upsertRow_other. Qed.

Lemma rows_four l1 l2 l3 l4 :
  NoDup [pairAddress l1; pairAddress l2; pairAddress l3; pairAddress l4] ->
  rows (upsertLaunches [l1; l2; l3; l4] Samples.emptyStore) ≡ₚ [l1; l2; l3; l4].
Proof.
  intros Hnd.
  assert (H12 : pairAddress l1 <> pairAddress l2) by (intros E; rewrite E in Hnd; inversion Hnd; set_solver).
  assert (H13 : pairAddress l1 <> pairAddress l3) by (intros E; rewrite E in Hnd; inversion Hnd; set_solver).
  assert (H14 : pairAddress l1 <> pairAddress l4) by (intros E; rewrite E in Hnd; inversion Hnd; set_solver).
  assert (H23 : pairAddress l2 <> pairAddress l3)
    by (intros E; rewrite E in Hnd; inversion Hnd as [|? ? _ Hnd']; inversion Hnd'; set_solver).
  assert (H24 : pairAddress l2 <> pairAddress l4)
    by (intros E; rewrite E in Hnd; inversion Hnd as [|? ? _ Hnd']; inversion Hnd'; set_solver).
  assert (H34 : pairAddress l3 <> pairAddress l4)
    by (intros E; rewrite E in Hnd; inversion Hnd as [|? ? _ Hnd'];
        inversion Hnd' as [|? ? _ Hnd'']; inversion Hnd''; set_solver).
  unfold upsertLaunches. simpl foldl.
  rewrite rows_upsert_fresh.
  2:{ rewrite !launches_upsert_other by done. apply lookup_empty. }
  rewrite rows_upsert_fresh.
  2:{ rewrite !launches_upsert_other by done. apply lookup_empty. }
  rewrite rows_upsert_fresh.
  2:{ rewrite !launches_upsert_other by done. apply lookup_empty. }
  rewrite rows_upsert_fresh by apply lookup_empty.
  unfold rows, Samples.emptyStore. simpl. rewrite map_to_list_empty. simpl.
  change [l4; l3; l2; l1] with (reverse [l1; l2; l3; l4]).
  apply reverse_Permutation.
Qed.

Lemma getLaunches_four now l1 l2 l3 l4 :
  NoDup [pairAddress l1; pairAddress l2; pairAddress l3; pairAddress l4] ->
  pairCreatedAt l1 = Some (now - 10 * 60 * 1000) ->
  pairCreatedAt l2 = Some (now - 2 * 60 * 60 * 1000) ->
  pairCreatedAt l3 = Some (now - 10 * 60 * 60 * 1000) ->
  pairCreatedAt l4 = Some (now - 30 * 60 * 60 * 1000) ->
  getLaunches 6 SortVolume 10 now
    (upsertLaunches [l1; l2; l3; l4] Samples.emptyStore) ≡ₚ [l1; l2].
Proof.
  intros Hnd H1 H2 H3 H4. unfold getLaunches.
  set (cutoff := (inject_Z now - 6 * 60 * 60 * 1000)%Q).
  assert (Hin1 : createdSince cutoff l1 = true).
  { apply createdSince_spec. eexists. split; [done|]. subst cutoff. q2z. }
  assert (Hin2 : createdSince cutoff l2 = true).
  { apply createdSince_spec. eexists. split; [done|]. subst cutoff. q2z. }
  assert (Hout3 : createdSince cutoff l3 <> true).
  { rewrite createdSince_spec. intros (c & Hc & Hle).
    rewrite H3 in Hc. injection Hc as <-. subst cutoff. q2z. }
  assert (Hout4 : createdSince cutoff l4 <> true).
  { rewrite createdSince_spec. intros (c & Hc & Hle).
    rewrite H4 in Hc. injection Hc as <-. subst cutoff. q2z. }
  assert (Hf : filter (fun l => createdSince cutoff l = true)
                 (rows (upsertLaunches [l1; l2; l3; l4] Samples.emptyStore)) ≡ₚ [l1; l2]).
  { rewrite rows_four by done.
    rewrite filter_cons_True by done. rewrite filter_cons_True by done.
    rewrite filter_cons_False by done. rewrite filter_cons_False by done.
    by rewrite filter_nil. }
  unfold sqlLimit. change (10 <? 0) with false. cbv iota.
  rewrite take_ge.
  - by rewrite orderBy_perm.
  - rewrite orderBy_perm, Hf. simpl. lia.
Qed.

(** C5. [getLaunches timeframeHours sortBy limit] selects exactly the
    stored launches whose pairCreatedAt is at least
    [now - timeframeHours * 3600000], ranks them descending by 24h volume,
    market cap or creation time as [sortBy] says, rows without a sort
    value last, and returns the first [limit] rows of that ranking (all of
    them when SQLite is given a negative limit).  With four launches
    aged 10 minutes, 2 hours, 10 hours and 30 hours, the query for 6 hours
    by volume with limit 10 returns the first two and nothing else. *)
Theorem getLaunches_window_ranked_limited :
  forall (timeframeHours : Q) (sortBy : SortOption) (limit now : Z) (db : LaunchStore.t),
    (exists ranked rest,
       ranked ≡ₚ filter (fun l => createdSince
                    (inject_Z now - timeframeHours * 60 * 60 * 1000) l = true) (rows db) /\
       (forall l, l ∈ ranked <->
          (exists k, launches db !! k = Some l) /\
          (exists c, pairCreatedAt l = Some c /\
                     (inject_Z now - timeframeHours * 60 * 60 * 1000 <= inject_Z c)%Q)) /\
       StronglySorted (orderedBy (sortKey sortBy)) ranked /\
       ranked = getLaunches timeframeHours sortBy limit now db ++ rest /\
       (forall x y, x ∈ getLaunches timeframeHours sortBy limit now db -> y ∈ rest ->
                    orderedBy (sortKey sortBy) x y) /\
       (0 <= limit ->
          length (getLaunches timeframeHours sortBy limit now db)
          = Nat.min (Z.to_nat limit) (length ranked)) /\
       (limit < 0 -> rest = [])) /\
    (forall a b, orderedBy (sortKey sortBy) a b <->
       sortKey sortBy b = None \/
       exists x y, sortKey sortBy a = Some x /\ sortKey sortBy b = Some y /\ (y <= x)%Q) /\
    (sortKey SortVolume = volume24h /\ sortKey SortMcap = marketCap /\
     forall l, sortKey SortAge l = inject_Z <$> pairCreatedAt l) /\
    (forall l1 l2 l3 l4,
       NoDup [pairAddress l1; pairAddress l2; pairAddress l3; pairAddress l4] ->
       pairCreatedAt l1 = Some (now - 10 * 60 * 1000) ->
       pairCreatedAt l2 = Some (now - 2 * 60 * 60 * 1000) ->
       pairCreatedAt l3 = Some (now - 10 * 60 * 60 * 1000) ->
       pairCreatedAt l4 = Some (now - 30 * 60 * 60 * 1000) ->
       getLaunches 6 SortVolume 10 now
         (upsertLaunches [l1; l2; l3; l4] Samples.emptyStore) ≡ₚ [l1; l2]).
Proof.
  intros timeframeHours sortBy limit now db.
  split; [|split; [|split]].
  - unfold getLaunches.
    destruct (select_spec
                (createdSince (inject_Z now - timeframeHours * 60 * 60 * 1000))
                (sortKey sortBy) limit db)
      as (ranked & rest & Hperm & Hmem & Hsorted & Hsplit & Htop & Hlen & Hneg).
    exists ranked, rest. split; [done|]. split; [|done].
    intros l. rewrite Hmem, createdSince_spec. tauto.
  - intros a b. apply descNullsLast_spec.
  - done.
  - apply getLaunches_four.
Qed.

(** The example of C5 on concrete rows. *)
Lemma getLaunches_window_ranked_limited_witness :
  getLaunches 6 SortVolume 10 Samples.now Samples.fourLaunches
    ≡ₚ [Samples.aged10min; Samples.aged2h].
Proof.
  apply (getLaunches_window_ranked_limited 6 SortVolume 10 Samples.now Samples.emptyStore).
  - apply (bool_decide_unpack _). vm_compute. exact I.
  - reflexivity.
  - reflexivity.
  - reflexivity.
  - reflexivity.
Defined.

Lemma isTrendingCandidate_spec cutoff l :
  isTrendingCandidate cutoff l = true <->
  (exists c, pairCreatedAt l = Some c /\ (cutoff <= inject_Z c)%Q) /\
  (exists v, volume24h l = Some v /\ (0 < v)%Q) /\
  (exists q, liquidityUsd l = Some q /\ (0 < q)%Q).
Proof.
  unfold isTrendingCandidate.
  rewrite !andb_true_iff, createdSince_spec, !positive_spec. tauto.
Qed.

Lemma score_zero_iff (v p : Q) :
  (0 < v)%Q -> ((v * Qabs (p + 1) == 0)%Q <-> (p == -1)%Q).
Proof.
  intros Hv. split.
  - intros H. apply Qmult_integral in H as [H|H].
    + rewrite H in Hv. by apply Qlt_irrefl in Hv.
    + assert (Hz : (p + 1 == 0)%Q).
      { revert H. apply Qabs_case; intros _ H; [done|].
        rewrite <- (Qopp_involutive (p + 1)), H. reflexivity. }
      rewrite <- (Qplus_0_r p), <- (Qplus_opp_r 1), Qplus_assoc, Hz. reflexivity.
  - intros ->. change (Qabs (-1 + 1)) with 0%Q. apply Qmult_0_r.
Qed.

(** C3 (amended). [getTrendingLaunches limit] selects exactly the stored
    launches created within the last 24 hours whose volume24h and
    liquidityUsd are strictly positive, ranks them descending by the
    score [volume24h * |priceChange24h + 1|] (a missing price change
    counts as 0) and returns the first [limit] rows of that ranking.  The
    price change is a number of percent: the score of a selected launch
    is zero exactly when its price change is -1, that is -1.00%, and a
    launch at -100.00% scores 99 times its volume. *)
Theorem getTrendingLaunches_ranked :
  forall (limit now : Z) (db : LaunchStore.t),
    (exists ranked rest,
       ranked ≡ₚ filter (fun l => isTrendingCandidate
                    (inject_Z now - 24 * 60 * 60 * 1000) l = true) (rows db) /\
       (forall l, l ∈ ranked <->
          (exists k, launches db !! k = Some l) /\
          (exists c, pairCreatedAt l = Some c /\
                     (inject_Z now - 24 * 60 * 60 * 1000 <= inject_Z c)%Q) /\
          (exists v, volume24h l = Some v /\ (0 < v)%Q) /\
          (exists q, liquidityUsd l = Some q /\ (0 < q)%Q)) /\
       StronglySorted (orderedBy trendingScore) ranked /\
       ranked = getTrendingLaunches limit now db ++ rest /\
       (forall x y, x ∈ getTrendingLaunches limit now db -> y ∈ rest ->
                    orderedBy trendingScore x y) /\
       (0 <= limit ->
          length (getTrendingLaunches limit now db)
          = Nat.min (Z.to_nat limit) (length ranked)) /\
       (limit < 0 -> rest = [])) /\
    (forall a b, orderedBy trendingScore a b <->
       trendingScore b = None \/
       exists x y, trendingScore a = Some x /\ trendingScore b = Some y /\ (y <= x)%Q) /\
    (forall l v, volume24h l = Some v ->
       trendingScore l = Some (v * Qabs (default 0 (priceChange24h l) + 1))%Q) /\
    (forall l v p, volume24h l = Some v -> (0 < v)%Q -> priceChange24h l = Some p ->
       exists s, trendingScore l = Some s /\ ((s == 0)%Q <-> (p == -1)%Q)) /\
    (forall l v, volume24h l = Some v -> priceChange24h l = Some (-100)%Q ->
       exists s, trendingScore l = Some s /\ (s == 99 * v)%Q) /\
    Formatters.formatPercent (Some (-1)%Q) = "-1.00%"%string /\
    Formatters.formatPercent (Some (-100)%Q) = "-100.00%"%string.
Proof.
  intros limit now db.
  split; [|split; [|split; [|split; [|split; [|split]]]]].
  - unfold getTrendingLaunches.
    destruct (select_spec
                (isTrendingCandidate (inject_Z now - 24 * 60 * 60 * 1000))
                trendingScore limit db)
      as (ranked & rest & Hperm & Hmem & Hsorted & Hsplit & Htop & Hlen & Hneg).
    exists ranked, rest. split; [done|]. split; [|done].
    intros l. rewrite Hmem, isTrendingCandidate_spec. tauto.
  - intros a b. apply descNullsLast_spec.
  - intros l v Hv. unfold trendingScore. by rewrite Hv.
  - intros l v p Hv Hpos Hp. eexists. split.
    + unfold trendingScore. rewrite Hv, Hp. reflexivity.
    + simpl. by apply score_zero_iff.
  - intros l v Hv Hp. eexists. split.
    + unfold trendingScore. rewrite Hv, Hp. reflexivity.
    + simpl. change (Qabs (-100 + 1)) with 99%Q. apply Qmult_comm.
  - reflexivity.
  - reflexivity.
Qed.

(** The trending rule at a launch that sells for one percent less than
    a day before: it is selected and its score is zero. *)
Lemma getTrendingLaunches_ranked_witness :
  exists s, trendingScore Samples.dipped = Some s /\ ((s == 0)%Q <-> (-1 == -1)%Q).
Proof.
  destruct (getTrendingLaunches_ranked 10 Samples.now Samples.trendingStore)
    as (_ & _ & _ & H & _).
  apply (H Samples.dipped 1000%Q (-1)%Q); reflexivity.
Defined.

(** C3, as stated, fails: a launch whose price change reads -100.00% is
    selected, scores 99000 rather than zero and heads the ranking, ahead
    of a launch of the same volume whose price did not move. *)
Lemma trending_collapsed_counterexample :
  Formatters.formatPercent (priceChange24h Samples.collapsed) = "-100.00%"%string /\
  head (getTrendingLaunches 10 Samples.now Samples.trendingStore) = Some Samples.collapsed /\
  exists s, trendingScore Samples.collapsed = Some s /\ ~ (s == 0)%Q.
Proof.
  split; [reflexivity|]. split; [by vm_compute|].
  eexists. split; [reflexivity|]. intros H. vm_compute in H. discriminate H.
Qed.

End QueryClaims.

(** ** Alert checker *)

Section AlertFacts.

Import AlertChecker AlertLoop.

(** C4. With operator [=], [evaluateAlert] holds exactly when the current
    value of the field named by conditionType (priceUsd for [price],
    volume24h for [volume], marketCap for [mcap], a NULL column counting
    as 0) lies within one percent of the threshold,
    [|v - t| <= 0.01 * t]; at threshold 0 this is [v = 0]; for a price
    alert at threshold 100 a price of 100.9 matches and a price of 102
    does not, whatever the volume and the market cap are. *)
Theorem evaluateAlert_tolerance_band :
  forall (alert : Alert.t) (launch : TokenLaunch.t),
    Alert.operator alert = OpEq ->
    (0 <= Alert.threshold alert)%Q ->
    let t := Alert.threshold alert in
    let field := match Alert.conditionType alert with
                 | price => TokenLaunch.priceUsd launch
                 | volume => TokenLaunch.volume24h launch
                 | mcap => TokenLaunch.marketCap launch
                 end in
    let v := match field with Some number => number | None => 0%Q end in
    (evaluateAlert alert launch = true <-> (Qabs (v - t) <= (1 # 100) * t)%Q) /\
    ((t == 0)%Q -> (evaluateAlert alert launch = true <-> (v == 0)%Q)) /\
    (Alert.conditionType alert = price -> (t == 100)%Q ->
       (TokenLaunch.priceUsd launch = Some (1009 # 10)%Q -> evaluateAlert alert launch = true) /\
       (TokenLaunch.priceUsd launch = Some 102%Q -> evaluateAlert alert launch = false)).
Proof.
  intros alert launch Hop Ht t field v.
  assert (Hv : JS.toNumber (currentValue alert launch) = v).
  { subst v field. unfold currentValue, JS.toNumber.
    by destruct (Alert.conditionType alert). }
  assert (Hiff : evaluateAlert alert launch = true <-> (Qabs (v - t) <= (1 # 100) * t)%Q).
  { unfold evaluateAlert. rewrite Hop, Hv. fold t.
    rewrite Qle_bool_iff. by rewrite (Qmult_comm t). }
  split; [exact Hiff|]. split.
  - intros Hz. rewrite Hiff. split.
    + apply Qabs_case; intros; lra.
    + intros Hv0. apply Qabs_case; intros; lra.
  - intros Hty H100. split; intros Hp.
    + apply Hiff.
      replace v with (1009 # 10)%Q by (subst v field; rewrite Hty, Hp; reflexivity).
      apply Qabs_case; intros; lra.
    + apply not_true_is_false. intros E.
      apply Hiff in E. revert E.
      replace v with 102%Q by (subst v field; rewrite Hty, Hp; reflexivity).
      apply Qabs_case; intros; lra.
Qed.

(** C4 at the alert "price = 100" and at the alert "mcap = 1000000", on
    a launch priced 100.9 with market cap 1000000 and volume 5000. *)
Lemma evaluateAlert_tolerance_band_witness :
  Alert.operator Samples.equalityAlert = OpEq /\
  (0 <= Alert.threshold Samples.equalityAlert)%Q /\
  evaluateAlert Samples.equalityAlert (Samples.pricedAt (1009 # 10)) = true /\
  evaluateAlert Samples2.mcapEqualityAlert (Samples.pricedAt (1009 # 10)) = true.
Proof.
  assert (Hop : Alert.operator Samples.equalityAlert = OpEq) by reflexivity.
  assert (Ht : (0 <= Alert.threshold Samples.equalityAlert)%Q) by (by vm_compute).
  split; [exact Hop|]. split; [exact Ht|]. split.
  - destruct (evaluateAlert_tolerance_band Samples.equalityAlert
                (Samples.pricedAt (1009 # 10)) Hop Ht) as (_ & _ & H).
    destruct H as [H _]; [reflexivity|reflexivity|].
    apply H. reflexivity.
  - assert (Hop' : Alert.operator Samples2.mcapEqualityAlert = OpEq) by reflexivity.
    assert (Ht' : (0 <= Alert.threshold Samples2.mcapEqualityAlert)%Q) by (by vm_compute).
    destruct (evaluateAlert_tolerance_band Samples2.mcapEqualityAlert
                (Samples.pricedAt (1009 # 10)) Hop' Ht') as (H & _).
    apply H. by vm_compute.
Defined.

Lemma triggerAlert_resolves discord alert launch :
  (triggerAlert discord alert launch).2 = Resolved.
Proof.
  unfold triggerAlert.
  destruct (usersFetch discord _) as [| |e]; [|done|by case_bool_decide].
  destruct (userSend discord _ _) as [|e]; [done|by case_bool_decide].
Qed.

Lemma getLaunchByToken_launches token db1 db2 :
  LaunchStore.launches db1 = LaunchStore.launches db2 ->
  LaunchStore.getLaunchByToken token db1 = LaunchStore.getLaunchByToken token db2.
Proof.
  intros H. unfold LaunchStore.getLaunchByToken, LaunchStore.rows. by rewrite H.
Qed.

Lemma alertsAdvance_refl db : alertsAdvance db db.
Proof. by repeat split. Qed.

Lemma alertsAdvance_trans db1 db2 db3 :
  alertsAdvance db1 db2 -> alertsAdvance db2 db3 -> alertsAdvance db1 db3.
Proof.
  intros (Hl1 & Hi1 & Ht1) (Hl2 & Hi2 & Ht2). repeat split.
  - congruence.
  - congruence.
  - intros i H. by apply Ht2, Ht1.
Qed.

Lemma markAlertTriggered_elem alertId db x :
  x ∈ LaunchStore.alerts (LaunchStore.markAlertTriggered alertId db) ->
  exists y, y ∈ LaunchStore.alerts db /\
            ((Alert.id y = alertId /\ x = LaunchStore.setTriggered y) \/
             (Alert.id y <> alertId /\ x = y)).
Proof.
  simpl. intros H. apply list_elem_of_In, in_map_iff in H as (y & Hy & Hin).
  exists y. split; [by apply list_elem_of_In|].
  case_bool_decide; [left|right]; done.
Qed.

Lemma markAlertTriggered_advance alertId db :
  alertsAdvance db (LaunchStore.markAlertTriggered alertId db).
Proof.
  repeat split.
  - simpl. induction (LaunchStore.alerts db) as [|a l IH]; [done|].
    cbn [List.map]. rewrite !fmap_cons, IH. f_equal. by case_bool_decide.
  - intros i H x Hx Hid.
    apply markAlertTriggered_elem in Hx as (y & Hy & [[_ ->]|[_ ->]]); [done|].
    by apply H.
Qed.

Lemma markAlertTriggered_hit alertId db x :
  x ∈ LaunchStore.alerts (LaunchStore.markAlertTriggered alertId db) ->
  Alert.id x = alertId -> Alert.triggered x = true.
Proof.
  intros Hx Hid.
  apply markAlertTriggered_elem in Hx as (y & Hy & [[_ ->]|[Hne ->]]); done.
Qed.

Lemma checkAlert_advance discord st alert :
  alertsAdvance st.2 (checkAlert discord st alert).2.
Proof.
  destruct st as [console db]. unfold checkAlert. simpl.
  destruct (LaunchStore.getLaunchByToken _ db) as [launch|]; [|apply alertsAdvance_refl].
  destruct (evaluateAlert alert launch); [|apply alertsAdvance_refl].
  destruct (triggerAlert discord alert launch) as [out [|e]]; simpl.
  - apply markAlertTriggered_advance.
  - apply alertsAdvance_refl.
Qed.

Lemma checkAlerts_loop_advance discord alerts : forall st,
  alertsAdvance st.2 (foldl (checkAlert discord) st alerts).2.
Proof.
  induction alerts as [|a rest IH]; intros st; simpl.
  - apply alertsAdvance_refl.
  - eapply alertsAdvance_trans; [apply checkAlert_advance|apply IH].
Qed.

Lemma checkAlert_hit discord st alert launch :
  LaunchStore.getLaunchByToken (Alert.tokenAddress alert) st.2 = Some launch ->
  evaluateAlert alert launch = true ->
  forall x, x ∈ LaunchStore.alerts (checkAlert discord st alert).2 ->
            Alert.id x = Alert.id alert -> Alert.triggered x = true.
Proof.
  destruct st as [console db]. simpl. intros Hl He x.
  unfold checkAlert. rewrite Hl, He.
  pose proof (triggerAlert_resolves discord alert launch) as Hr.
  destruct (triggerAlert discord alert launch) as [out c]. simpl in Hr. subst c.
  simpl. apply markAlertTriggered_hit.
Qed.

(** C1 (amended). An active alert whose condition matches on a tick is
    marked triggered by that tick whatever the delivery did: the user was
    found and the message sent, the user was not found, or the fetch or
    the send was rejected, by "cannot send messages to this user" (50007)
    or by any other error.  [triggerAlert] never rejects, so the loop
    always goes on to [markAlertTriggered]. *)
Theorem checkAlerts_marks_every_match :
  forall (discord : DiscordClient) (db : LaunchStore.t)
         (alert : Alert.t) (launch : TokenLaunch.t),
    alert ∈ LaunchStore.getActiveAlerts db ->
    LaunchStore.getLaunchByToken (Alert.tokenAddress alert) db = Some launch ->
    evaluateAlert alert launch = true ->
    (triggerAlert discord alert launch).2 = Resolved /\
    (exists x, x ∈ LaunchStore.alerts (checkAlerts discord db).2 /\
               Alert.id x = Alert.id alert) /\
    (forall x, x ∈ LaunchStore.alerts (checkAlerts discord db).2 ->
               Alert.id x = Alert.id alert -> Alert.triggered x = true) /\
    (forall x, x ∈ LaunchStore.getActiveAlerts (checkAlerts discord db).2 ->
               Alert.id x <> Alert.id alert).
Proof.
  intros discord db alert launch Hactive Hlaunch Heval.
  split; [apply triggerAlert_resolves|].
  assert (Hmarked : forall x, x ∈ LaunchStore.alerts (checkAlerts discord db).2 ->
                      Alert.id x = Alert.id alert -> Alert.triggered x = true).
  { unfold checkAlerts.
    apply list_elem_of_split in Hactive as (pre & post & ->).
    rewrite foldl_app. simpl.
    set (st := foldl (checkAlert discord) ([], db) pre).
    pose proof (checkAlerts_loop_advance discord pre ([], db)) as (Hl & _ & _).
    fold st in Hl. simpl in Hl.
    pose proof (checkAlerts_loop_advance discord post (checkAlert discord st alert))
      as (_ & _ & Hkeep).
    apply Hkeep. apply (checkAlert_hit discord st alert launch); [|done].
    by rewrite (getLaunchByToken_launches _ _ db). }
  split; [|split; [exact Hmarked|]].
  - pose proof (checkAlerts_loop_advance discord (LaunchStore.getActiveAlerts db) ([], db))
      as (_ & Hids & _). simpl in Hids.
    assert (Hin : Alert.id alert ∈ Alert.id <$> LaunchStore.alerts db).
    { apply list_elem_of_fmap. exists alert. split; [done|].
      unfold LaunchStore.getActiveAlerts in Hactive.
      apply list_elem_of_In, filter_In in Hactive as [Hin _]. by apply list_elem_of_In. }
    rewrite <- Hids in Hin. apply list_elem_of_fmap in Hin as (x & Hx & Hin).
    exists x. done.
  - intros x Hx Hid. unfold LaunchStore.getActiveAlerts in Hx.
    apply list_elem_of_In, filter_In in Hx as [Hin Hneg].
    apply list_elem_of_In in Hin. rewrite (Hmarked x Hin Hid) in Hneg. done.
Qed.

(** C1 at the alert "price above 1" on a launch priced 2, with a Discord
    client that delivers. *)
Lemma checkAlerts_marks_every_match_witness :
  LaunchStore.getActiveAlerts (checkAlerts Samples.workingDiscord Samples.alertStore).2 = [] /\
  forall x, x ∈ LaunchStore.alerts (checkAlerts Samples.workingDiscord Samples.alertStore).2 ->
            Alert.id x = 1 -> Alert.triggered x = true.
Proof.
  split; [by vm_compute|].
  assert (Hactive : Samples.priceAlert ∈ LaunchStore.getActiveAlerts Samples.alertStore)
    by (vm_compute; apply list_elem_of_here).
  assert (Hlaunch : LaunchStore.getLaunchByToken (Alert.tokenAddress Samples.priceAlert)
                      Samples.alertStore = Some Samples.aged10min)
    by (vm_compute; reflexivity).
  assert (Heval : evaluateAlert Samples.priceAlert Samples.aged10min = true)
    by (vm_compute; reflexivity).
  apply (checkAlerts_marks_every_match Samples.workingDiscord Samples.alertStore
           Samples.priceAlert Samples.aged10min Hactive Hlaunch Heval).
Defined.

(** C1, as stated, fails: the send is rejected by an error other than
    "cannot send messages to this user", and the alert is marked triggered
    all the same, so the next tick does not evaluate it again. *)
Lemma checkAlerts_other_failure_counterexample :
  Samples.priceAlert ∈ LaunchStore.getActiveAlerts Samples.alertStore /\
  LaunchStore.getLaunchByToken (Alert.tokenAddress Samples.priceAlert) Samples.alertStore
    = Some Samples.aged10min /\
  evaluateAlert Samples.priceAlert Samples.aged10min = true /\
  userSend Samples.failingDiscord (Alert.userId Samples.priceAlert)
    (alertMessage Samples.priceAlert Samples.aged10min) = SendRejected Samples.outage /\
  code Samples.outage <> Some 50007 /\
  (checkAlerts Samples.failingDiscord Samples.alertStore).1 = [LogSendError Samples.outage] /\
  LaunchStore.alerts (checkAlerts Samples.failingDiscord Samples.alertStore).2
    = [LaunchStore.setTriggered Samples.priceAlert] /\
  LaunchStore.getActiveAlerts (checkAlerts Samples.failingDiscord Samples.alertStore).2 = [].
Proof.
  repeat split; try (by vm_compute).
  vm_compute. apply list_elem_of_here.
Qed.

End AlertFacts.

(** ** Classifier *)

Section FilterFacts.

Import DexScreenerService.

Lemma orZero_eq v : (JS.orZero (Some v) == v)%Q.
Proof.
  simpl. destruct (Qeq_bool v 0) eqn:E; [|reflexivity].
  apply Qeq_bool_iff in E. by rewrite E.
Qed.

Lemma isValidPair_thresholds filters now pair :
  isValidPair filters now pair = true ->
  (inject_Z (Config.minLiquidityUsd filters) <= effectiveLiquidity pair)%Q /\
  (inject_Z (Config.minVolumeUsd filters) <= effectiveVolume pair)%Q /\
  (effectiveMarketCap pair <= MAX_MCAP_FOR_NEW_LAUNCH)%Q.
Proof.
  unfold isValidPair. intros H.
  repeat (case_match; try discriminate).
  rewrite <- !Qltb_ge. done.
Qed.

Lemma effectiveMarketCap_cap pair cap :
  DexScreenerPair.marketCap pair = Some cap -> (0 < cap)%Q ->
  (effectiveMarketCap pair == cap)%Q.
Proof.
  intros H Hpos. unfold effectiveMarketCap. rewrite H.
  assert (E : Qeq_bool cap 0 = false).
  { apply not_true_is_false. intros E. apply Qeq_bool_iff in E. lra. }
  simpl. by rewrite E.
Qed.

Lemma effectiveMarketCap_fdv pair f :
  DexScreenerPair.marketCap pair = None -> DexScreenerPair.fdv pair = Some f ->
  (effectiveMarketCap pair == f)%Q.
Proof.
  intros H Hf. unfold effectiveMarketCap. rewrite H, Hf.
  cbn [JS.truthy]. apply orZero_eq.
Qed.

(** C6. Whatever the list and whatever its other fields, a pair whose
    liquidity in USD is below [config.filters.minLiquidityUsd] is not in
    the output of [filterValidPairs], and neither is a pair whose market
    cap, or whose fully diluted value when it has no market cap, is above
    50,000,000. *)
Theorem filterValidPairs_floor_and_ceiling :
  forall (filters : Config.Filters) (now : Z)
         (pairs : list DexScreenerPair.t) (pair : DexScreenerPair.t),
    (forall v, DexScreenerPair.liquidity_usd pair = Some v ->
               (v < inject_Z (Config.minLiquidityUsd filters))%Q ->
               pair ∉ filterValidPairs filters now pairs) /\
    (forall cap, DexScreenerPair.marketCap pair = Some cap ->
                 (50000000 < cap)%Q ->
                 pair ∉ filterValidPairs filters now pairs) /\
    (forall f, DexScreenerPair.marketCap pair = None ->
               DexScreenerPair.fdv pair = Some f ->
               (50000000 < f)%Q ->
               pair ∉ filterValidPairs filters now pairs).
Proof.
  intros filters now pairs pair.
  assert (Hin : pair ∈ filterValidPairs filters now pairs ->
                isValidPair filters now pair = true).
  { intros H. apply list_elem_of_In, filter_In in H. tauto. }
  split; [|split].
  - intros v Hv Hlt Hp. apply Hin, isValidPair_thresholds in Hp as (Hl & _ & _).
    unfold effectiveLiquidity in Hl. rewrite Hv, orZero_eq in Hl. lra.
  - intros cap Hcap Hgt Hp. apply Hin, isValidPair_thresholds in Hp as (_ & _ & Hm).
    rewrite (effectiveMarketCap_cap pair cap) in Hm by (done || lra).
    unfold MAX_MCAP_FOR_NEW_LAUNCH in Hm. lra.
  - intros f Hnone Hf Hgt Hp. apply Hin, isValidPair_thresholds in Hp as (_ & _ & Hm).
    rewrite (effectiveMarketCap_fdv pair f) in Hm by done.
    unfold MAX_MCAP_FOR_NEW_LAUNCH in Hm. lra.
Qed.

(** C6 on a batch of four candidates that differ in liquidity and market
    cap only: the one with enough liquidity and a small cap is the only
    survivor. *)
Lemma filterValidPairs_floor_and_ceiling_witness :
  filterValidPairs Samples.defaultFilters Samples.now
    [Samples.thinCandidate; Samples.goodCandidate;
     Samples.largeCandidate; Samples.dilutedCandidate] = [Samples.goodCandidate] /\
  Samples.thinCandidate ∉
    filterValidPairs Samples.defaultFilters Samples.now
      [Samples.thinCandidate; Samples.goodCandidate;
       Samples.largeCandidate; Samples.dilutedCandidate].
Proof.
  split; [by vm_compute|].
  destruct (filterValidPairs_floor_and_ceiling Samples.defaultFilters Samples.now
              [Samples.thinCandidate; Samples.goodCandidate;
               Samples.largeCandidate; Samples.dilutedCandidate]
              Samples.thinCandidate) as (H & _ & _).
  apply (H 999%Q); [reflexivity|by vm_compute].
Defined.

End FilterFacts.

(** ** Retrying client *)

Section RetryFacts.

Import DexScreenerService Retry.

Context {A : Type} (fn : M A) (maxRetries : nat).

Lemma retryLoop_first_success : forall k remaining attempt lastError w wk v wk',
  (k < remaining)%nat -> (attempt + remaining = maxRetries)%nat ->
  afterFailuresFrom fn attempt k w = Some wk ->
  fn wk = (Ok v, wk') ->
  retryLoop fn maxRetries remaining attempt lastError w = (Ok v, wk').
Proof.
  induction k as [|k IH]; intros remaining attempt lastError w wk v wk' Hk Hsum Hchain Hok.
  - destruct remaining as [|r]; [lia|]. simpl in *. injection Hchain as ->.
    by rewrite Hok.
  - destruct remaining as [|r]; [lia|]. simpl in *.
    destruct (fn w) as [[a|e] w1]; [done|].
    replace (Z.of_nat attempt <? Z.of_nat maxRetries - 1) with true
      by (symmetry; apply Z.ltb_lt; lia).
    apply (IH r (S attempt) e _ wk v wk'); [lia|lia|exact Hchain|exact Hok].
Qed.

Lemma retryLoop_exhausted : forall l attempt lastError w wl e wl',
  (attempt + S l = maxRetries)%nat ->
  afterFailuresFrom fn attempt l w = Some wl ->
  fn wl = (Throw e, wl') ->
  retryLoop fn maxRetries (S l) attempt lastError w = (Throw e, wl').
Proof.
  induction l as [|l IH]; intros attempt lastError w wl e wl' Hsum Hchain Hfail.
  - simpl in *. injection Hchain as ->. rewrite Hfail.
    replace (Z.of_nat attempt <? Z.of_nat maxRetries - 1) with false
      by (symmetry; apply Z.ltb_ge; lia).
    done.
  - simpl in Hchain. cbn [retryLoop].
    destruct (fn w) as [[a|e0] w1]; [done|].
    replace (Z.of_nat attempt <? Z.of_nat maxRetries - 1) with true
      by (symmetry; apply Z.ltb_lt; lia).
    apply (IH (S attempt) e0 _ wl e wl'); [lia|exact Hchain|exact Hfail].
Qed.

Lemma retryLoop_outcomes : forall remaining attempt w,
  remaining = O \/
  (exists k wk v wk', (k < remaining)%nat /\
     afterFailuresFrom fn attempt k w = Some wk /\ fn wk = (Ok v, wk')) \/
  (exists l wl e wl', remaining = S l /\
     afterFailuresFrom fn attempt l w = Some wl /\ fn wl = (Throw e, wl')).
Proof.
  induction remaining as [|r IH]; intros attempt w; [by left|right].
  destruct (fn w) as [[v|e] w1] eqn:Hfn.
  - left. exists O, w, v, w1. split; [lia|done].
  - destruct (IH (S attempt) (sleep EvBackoff (2 ^ Z.of_nat attempt * 1000) w1))
      as [->|[(k & wk & v & wk' & Hk & Hchain & Hok)|(l & wl & e' & wl' & -> & Hchain & Hfail)]].
    + right. exists O, w, e, w1. done.
    + left. exists (S k), wk, v, wk'. split; [lia|]. simpl. by rewrite Hfn.
    + right. exists (S l), wl, e', wl'. split; [done|]. simpl. by rewrite Hfn.
Qed.

Lemma retryLoop_requests : forall remaining attempt lastError w,
  (forall w0, requests (fn w0).2 = S (requests w0)) ->
  (requests (retryLoop fn maxRetries remaining attempt lastError w).2
   <= requests w + remaining)%nat.
Proof.
  intros remaining attempt lastError w Hone. revert attempt lastError w.
  induction remaining as [|r IH]; intros attempt lastError w; simpl; [lia|].
  pose proof (Hone w) as H1.
  destruct (fn w) as [[v|e] w1]; simpl in *; [lia|].
  etrans; [apply IH|].
  destruct (Z.of_nat attempt <? Z.of_nat maxRetries - 1); simpl; lia.
Qed.

(** C7. [retryWithBackoff fn maxRetries] runs [fn] at most [maxRetries]
    times (3 by default).  If the attempts numbered [0 .. k-1] fail and
    attempt [k < maxRetries] succeeds, its result is returned; the failure
    of attempt [n] is followed by a wait of [2^n * 1000] ms before attempt
    [n+1]; if all [maxRetries] attempts fail, the error of the last one is
    thrown, with no wait after it.  One of the two always happens when
    [maxRetries] is positive. *)
Theorem retryWithBackoff_attempts_backoff_last_error :
  forall (w : World),
    (forall k wk v wk', (k < maxRetries)%nat ->
       afterFailures fn k w = Some wk -> fn wk = (Ok v, wk') ->
       retryWithBackoff fn maxRetries w = (Ok v, wk')) /\
    (forall l wl e wl', maxRetries = S l ->
       afterFailures fn l w = Some wl -> fn wl = (Throw e, wl') ->
       retryWithBackoff fn maxRetries w = (Throw e, wl')) /\
    (maxRetries = O \/
     (exists k wk v wk', (k < maxRetries)%nat /\
        afterFailures fn k w = Some wk /\ fn wk = (Ok v, wk')) \/
     (exists l wl e wl', maxRetries = S l /\
        afterFailures fn l w = Some wl /\ fn wl = (Throw e, wl'))) /\
    ((forall w0, requests (fn w0).2 = S (requests w0)) ->
     (requests (retryWithBackoff fn maxRetries w).2 <= requests w + maxRetries)%nat) /\
    (forall n w0 e w1, fn w0 = (Throw e, w1) ->
       afterFailuresFrom fn n 1 w0 = Some (sleep EvBackoff (2 ^ Z.of_nat n * 1000) w1)) /\
    (forall e0 w1 e1 w2 v w3, (3 <= maxRetries)%nat ->
       fn w = (Throw e0, w1) ->
       fn (sleep EvBackoff 1000 w1) = (Throw e1, w2) ->
       fn (sleep EvBackoff 2000 w2) = (Ok v, w3) ->
       retryWithBackoff fn maxRetries w = (Ok v, w3)) /\
    (forall e0 w1 e1 w2 e2 w3, maxRetries = defaultMaxRetries ->
       fn w = (Throw e0, w1) ->
       fn (sleep EvBackoff 1000 w1) = (Throw e1, w2) ->
       fn (sleep EvBackoff 2000 w2) = (Throw e2, w3) ->
       retryWithBackoff fn maxRetries w = (Throw e2, w3)) /\
    defaultMaxRetries = 3%nat.
Proof.
  intros w. unfold retryWithBackoff, afterFailures.
  split; [|split; [|split; [|split; [|split; [|split; [|split]]]]]].
  - intros k wk v wk' Hk Hchain Hok.
    by apply (retryLoop_first_success k maxRetries O ThrownNull w wk).
  - intros l wl e wl' Hm Hchain Hfail.
    pose proof (retryLoop_exhausted l O ThrownNull w wl e wl') as H.
    rewrite <- Hm in H. apply H; [reflexivity|exact Hchain|exact Hfail].
  - apply retryLoop_outcomes.
  - intros Hone. by apply retryLoop_requests.
  - intros n w0 e w1 Hfail. simpl. by rewrite Hfail.
  - intros e0 w1 e1 w2 v w3 Hm H0 H1 H2.
    apply (retryLoop_first_success 2 maxRetries O ThrownNull w (sleep EvBackoff 2000 w2));
      [lia|reflexivity| |exact H2].
    simpl. rewrite H0. change (2 ^ Z.of_nat 0 * 1000) with 1000. rewrite H1. reflexivity.
  - intros e0 w1 e1 w2 e2 w3 Hm H0 H1 H2.
    pose proof (retryLoop_exhausted 2 O ThrownNull w (sleep EvBackoff 2000 w2) e2 w3) as H.
    rewrite Hm in *. apply H; [reflexivity| |exact H2].
    simpl. rewrite H0. change (2 ^ Z.of_nat 0 * 1000) with 1000. rewrite H1. reflexivity.
  - reflexivity.
Qed.

End RetryFacts.

Section RetryClaims.

Import DexScreenerService Retry.

(** C7 on a search that fails twice and then succeeds: the third attempt
    is returned after waits of 1000 and 2000 ms. *)
Lemma retryWithBackoff_attempts_backoff_last_error_witness :
  exists w',
    searchPairs Samples.flakyApi "cat" Samples.startWorld = (Ok [Samples.goodCandidate], w') /\
    backoffs (trace w') = [1000; 2000] /\ requests w' = 3%nat.
Proof.
  eexists. split.
  - unfold searchPairs.
    eapply (retryWithBackoff_attempts_backoff_last_error _ defaultMaxRetries
              Samples.startWorld) with (k := 2%nat).
    + vm_compute. lia.
    + vm_compute. reflexivity.
    + vm_compute. reflexivity.
  - split; reflexivity.
Defined.

Variable api : Upstream.

Lemma sleep_requests ev ms w : requests (sleep ev ms w) = requests w.
Proof. reflexivity. Qed.

Lemma backoffs_app t1 t2 : backoffs (t1 ++ t2) = backoffs t1 ++ backoffs t2.
Proof. apply omap_app. Qed.

Lemma gets_app t1 t2 : gets (t1 ++ t2) = gets t1 ++ gets t2.
Proof. apply omap_app. Qed.

(** The pacing gate hands [fn] a world that differs from the caller's in
    the clock, the gate and pacing timers only. *)
Lemma rateLimitedRequest_runs {A} (fn : M A) w :
  exists w0, rateLimitedRequest fn w = fn w0 /\
             requests w0 = requests w /\
             backoffs (trace w0) = backoffs (trace w) /\
             gets (trace w0) = gets (trace w).
Proof.
  unfold rateLimitedRequest. eexists. split; [reflexivity|].
  destruct (_ <? _); simpl; [|done].
  rewrite backoffs_app, gets_app. simpl. by rewrite !app_nil_r.
Qed.

Lemma pairLookup_not_found pairAddress w e :
  pairs api (requests w) pairAddress = Failed e -> status e = Some 404 ->
  exists w', pairLookup api pairAddress w = (Ok None, w') /\
             requests w' = S (requests w) /\
             backoffs (trace w') = backoffs (trace w) /\
             gets (trace w') = gets (trace w) ++ [EpPairs pairAddress].
Proof.
  intros Hreply Hstatus. unfold pairLookup, tryCatch, mbind, M_bind, clientGet.
  rewrite Hreply. rewrite bool_decide_eq_true_2 by done.
  eexists. split; [reflexivity|]. simpl.
  rewrite backoffs_app, gets_app. simpl. by rewrite app_nil_r.
Qed.

Lemma pairLookup_rethrows pairAddress w e :
  pairs api (requests w) pairAddress = Failed e -> status e <> Some 404 ->
  exists w', pairLookup api pairAddress w = (Throw (ThrownError e), w') /\
             requests w' = S (requests w) /\
             backoffs (trace w') = backoffs (trace w) /\
             gets (trace w') = gets (trace w) ++ [EpPairs pairAddress].
Proof.
  intros Hreply Hstatus. unfold pairLookup, tryCatch, mbind, M_bind, clientGet.
  rewrite Hreply. rewrite bool_decide_eq_false_2 by done.
  eexists. split; [reflexivity|]. simpl.
  rewrite backoffs_app, gets_app. simpl. by rewrite app_nil_r.
Qed.

Lemma pairLookup_found pairAddress w data :
  pairs api (requests w) pairAddress = Fulfilled data ->
  exists w', pairLookup api pairAddress w = (Ok (data ≫= head), w') /\
             requests w' = S (requests w) /\
             backoffs (trace w') = backoffs (trace w) /\
             gets (trace w') = gets (trace w) ++ [EpPairs pairAddress].
Proof.
  intros Hreply. unfold pairLookup, tryCatch, mbind, M_bind, clientGet.
  rewrite Hreply.
  eexists. split; [reflexivity|]. simpl.
  rewrite backoffs_app, gets_app. simpl. by rewrite app_nil_r.
Qed.

(** One paced attempt of [fetchPairByAddress], by the answer of the
    upstream to the request it dispatches. *)
Lemma attempt_not_found pairAddress w e :
  pairs api (requests w) pairAddress = Failed e -> status e = Some 404 ->
  exists w', rateLimitedRequest (pairLookup api pairAddress) w = (Ok None, w') /\
             requests w' = S (requests w) /\
             backoffs (trace w') = backoffs (trace w) /\
             gets (trace w') = gets (trace w) ++ [EpPairs pairAddress].
Proof.
  intros Hreply Hstatus.
  destruct (rateLimitedRequest_runs (pairLookup api pairAddress) w)
    as (w0 & -> & Hreq & Hb & Hg).
  rewrite <- Hreq in Hreply.
  destruct (pairLookup_not_found pairAddress w0 e Hreply Hstatus) as (w' & -> & ? & ? & ?).
  exists w'. split; [done|]. split; [congruence|]. split; congruence.
Qed.

Lemma attempt_rethrows pairAddress w e :
  pairs api (requests w) pairAddress = Failed e -> status e <> Some 404 ->
  exists w', rateLimitedRequest (pairLookup api pairAddress) w = (Throw (ThrownError e), w') /\
             requests w' = S (requests w) /\
             backoffs (trace w') = backoffs (trace w) /\
             gets (trace w') = gets (trace w) ++ [EpPairs pairAddress].
Proof.
  intros Hreply Hstatus.
  destruct (rateLimitedRequest_runs (pairLookup api pairAddress) w)
    as (w0 & -> & Hreq & Hb & Hg).
  rewrite <- Hreq in Hreply.
  destruct (pairLookup_rethrows pairAddress w0 e Hreply Hstatus) as (w' & -> & ? & ? & ?).
  exists w'. split; [done|]. split; [congruence|]. split; congruence.
Qed.

(** C8. In [fetchPairByAddress] a 404 answer is a normal result: the
    attempt returns [null], nothing is retried and no backoff is waited.
    Any other rejection (no response at all, or a status other than 404)
    is rethrown by the attempt and retried: three rejections in a row
    make three requests with waits of 1000 and 2000 ms between them, and
    the last error is thrown to the caller. *)
Theorem fetchPairByAddress_not_found_is_not_retried :
  forall (pairAddress : string) (w : World),
    (forall e, pairs api (requests w) pairAddress = Failed e -> status e = Some 404 ->
       exists w', fetchPairByAddress api pairAddress w = (Ok None, w') /\
                  requests w' = S (requests w) /\
                  backoffs (trace w') = backoffs (trace w) /\
                  gets (trace w') = gets (trace w) ++ [EpPairs pairAddress]) /\
    (forall e w0, pairs api (requests w0) pairAddress = Failed e -> status e <> Some 404 ->
       exists w1, rateLimitedRequest (pairLookup api pairAddress) w0
                    = (Throw (ThrownError e), w1)) /\
    (forall e0 e1 e2,
       pairs api (requests w) pairAddress = Failed e0 -> status e0 <> Some 404 ->
       pairs api (S (requests w)) pairAddress = Failed e1 -> status e1 <> Some 404 ->
       pairs api (S (S (requests w))) pairAddress = Failed e2 -> status e2 <> Some 404 ->
       exists w', fetchPairByAddress api pairAddress w = (Throw (ThrownError e2), w') /\
                  requests w' = S (S (S (requests w))) /\
                  backoffs (trace w') = backoffs (trace w) ++ [1000; 2000] /\
                  gets (trace w') = gets (trace w) ++
                    [EpPairs pairAddress; EpPairs pairAddress; EpPairs pairAddress]).
Proof.
  intros pairAddress w. split; [|split].
  - intros e Hreply Hstatus.
    destruct (attempt_not_found pairAddress w e Hreply Hstatus) as (w' & Hrun & Hrest).
    exists w'. split; [|exact Hrest].
    unfold fetchPairByAddress, retryWithBackoff, defaultMaxRetries. cbn [retryLoop].
    by rewrite Hrun.
  - intros e w0 Hreply Hstatus.
    destruct (attempt_rethrows pairAddress w0 e Hreply Hstatus) as (w1 & Hrun & _).
    by exists w1.
  - intros e0 e1 e2 Hr0 Hs0 Hr1 Hs1 Hr2 Hs2.
    unfold fetchPairByAddress, retryWithBackoff, defaultMaxRetries. cbn [retryLoop].
    destruct (attempt_rethrows pairAddress w e0 Hr0 Hs0) as (w1 & -> & Hq1 & Hb1 & Hg1).
    change (Z.of_nat 0 <? Z.of_nat 3 - 1) with true. cbv iota.
    set (w1' := sleep EvBackoff (2 ^ Z.of_nat 0 * 1000) w1).
    assert (Hq1' : requests w1' = S (requests w)) by done.
    rewrite <- Hq1' in Hr1.
    destruct (attempt_rethrows pairAddress w1' e1 Hr1 Hs1) as (w2 & -> & Hq2 & Hb2 & Hg2).
    change (Z.of_nat 1 <? Z.of_nat 3 - 1) with true. cbv iota.
    set (w2' := sleep EvBackoff (2 ^ Z.of_nat 1 * 1000) w2).
    assert (Hq2' : requests w2' = S (S (requests w))) by (simpl; congruence).
    rewrite <- Hq2' in Hr2.
    destruct (attempt_rethrows pairAddress w2' e2 Hr2 Hs2) as (w3 & -> & Hq3 & Hb3 & Hg3).
    change (Z.of_nat 2 <? Z.of_nat 3 - 1) with false. cbv iota.
    exists w3. split; [done|]. split; [congruence|].
    subst w1' w2'. simpl in Hb2, Hg2, Hb3, Hg3.
    rewrite backoffs_app in Hb2, Hb3. rewrite gets_app in Hg2, Hg3.
    simpl in Hb2, Hg2, Hb3, Hg3. rewrite app_nil_r in Hg2, Hg3.
    split.
    + rewrite Hb3, Hb2, Hb1. by rewrite <- !app_assoc.
    + rewrite Hg3, Hg2, Hg1. by rewrite <- !app_assoc.
Qed.

End RetryClaims.

(** C8 on an upstream that answers 404: one request, no wait, [null]. *)
Lemma fetchPairByAddress_not_found_is_not_retried_witness :
  exists w',
    DexScreenerService.fetchPairByAddress
      (Samples.pairsApi (fun _ => DexScreenerService.Failed Samples.notFound))
      "0xabc" Samples.startWorld = (DexScreenerService.Ok None, w') /\
    DexScreenerService.requests w' = 1%nat /\
    Retry.backoffs (DexScreenerService.trace w') = [] /\
    Retry.gets (DexScreenerService.trace w') = [DexScreenerService.EpPairs "0xabc"].
Proof.
  destruct (fetchPairByAddress_not_found_is_not_retried
              (Samples.pairsApi (fun _ => DexScreenerService.Failed Samples.notFound))
              "0xabc" Samples.startWorld) as (H & _).
  apply (H Samples.notFound); reflexivity.
Defined.

(** ** Discovery aggregator *)

Section DedupFacts.

Import DexScreenerService Dedup.

Variable api : Upstream.

Lemma addPairs_concat (batches : list (list DexScreenerPair.t)) : forall init : Seen,
  foldl (fun acc ps => addPairs ps acc) init batches = foldl addPair init (concat batches).
Proof.
  induction batches as [|ps rest IH]; intros init; simpl; [done|].
  by rewrite IH, foldl_app.
Qed.

Lemma firstOccurrence_snoc arrivals x p :
  firstOccurrence (arrivals ++ [x]) p <->
  firstOccurrence arrivals p \/ (p = x /\ poolKey x ∉ poolKey <$> arrivals).
Proof.
  unfold firstOccurrence. split.
  - intros (pre & post & Heq & Hfresh).
    destruct post as [|y post _] using rev_ind.
    + apply app_inj_tail in Heq as [-> ->]. by right.
    + left. exists pre, post. split; [|done].
      rewrite app_comm_cons, app_assoc in Heq. by apply app_inj_tail in Heq as [-> _].
  - intros [(pre & post & -> & Hfresh)|[-> Hfresh]].
    + exists pre, (post ++ [x]). split; [|done]. by rewrite <- app_assoc.
    + by exists arrivals, [].
Qed.

(** The state of the closure after the pairs [arrivals] went through it. *)
Lemma addPair_invariant (arrivals : list DexScreenerPair.t) :
  let acc := foldl addPair ([], ∅) arrivals in
  (forall k, k ∈ acc.2 <-> k ∈ poolKey <$> arrivals) /\
  (forall k, k ∈ acc.2 <-> k ∈ poolKey <$> acc.1) /\
  NoDup (poolKey <$> acc.1) /\
  acc.1 `sublist_of` arrivals /\
  (forall p, p ∈ acc.1 <-> firstOccurrence arrivals p).
Proof.
  induction arrivals as [|x arrivals IH] using rev_ind.
  - simpl. split; [|split; [|split; [|split]]].
    + intros k. set_solver.
    + intros k. set_solver.
    + constructor.
    + constructor.
    + intros p. split; [by intros ?%elem_of_nil|].
      intros (pre & post & Heq & _). by destruct pre.
  - rewrite foldl_app. simpl.
    destruct (foldl addPair ([], ∅) arrivals) as [allPairs seen] eqn:Hacc.
    simpl in IH. destruct IH as (Hseen & Hkeys & Hnd & Hsub & Hfirst).
    unfold addPair. simpl. fold (poolKey x).
    destruct (decide (poolKey x ∈ seen)) as [Hin|Hout]; simpl.
    + split; [|split; [|split; [|split]]]; try done.
      * intros k. rewrite fmap_app, elem_of_app, <- Hseen. simpl.
        rewrite list_elem_of_singleton. split; [auto|]. by intros [?| ->].
      * by apply sublist_inserts_r.
      * intros p. rewrite firstOccurrence_snoc, Hfirst.
        split; [auto|]. intros [?|[_ Hfresh]]; [done|].
        by apply Hseen in Hin.
    + split; [|split; [|split; [|split]]].
      * intros k. rewrite fmap_app, elem_of_app, <- Hseen. simpl.
        rewrite list_elem_of_singleton, elem_of_union, elem_of_singleton. tauto.
      * intros k. rewrite fmap_app, elem_of_app, <- Hkeys. simpl.
        rewrite list_elem_of_singleton, elem_of_union, elem_of_singleton. tauto.
      * rewrite fmap_app. simpl. apply NoDup_app. split; [done|].
        split; [|apply NoDup_singleton].
        intros k Hk ->%list_elem_of_singleton. by apply Hkeys in Hk.
      * by apply sublist_app.
      * intros p. rewrite firstOccurrence_snoc, elem_of_app, Hfirst.
        rewrite list_elem_of_singleton.
        split; [intros [?| ->]; [by left|right]|intros [?|[-> _]]; [by left|by right]].
        split; [done|]. by rewrite <- Hseen.
Qed.

(** *** The lists handed to the closure *)

Lemma listingStrategy_feeds fetchListings w :
  exists batches w',
    feeds (fun Acc add => listingStrategy api add fetchListings) w batches w'.
Proof.
  unfold feeds, listingStrategy, tryCatch, mbind, M_bind.
  destruct (fetchListings w) as [[listings|e] w1].
  - destruct (0 <? length _)%nat.
    + destruct (fetchMultipleTokens api _ w1) as [[pairs|e] w2].
      * by exists [pairs], w2.
      * by exists [], w2.
    + by exists [], w1.
  - by exists [], w1.
Qed.

Lemma searchStrategy_feeds terms : forall w,
  exists batches w',
    feeds (fun Acc add => searchStrategy api add terms) w batches w'.
Proof.
  induction terms as [|term rest IH]; intros w.
  - by exists [], w.
  - unfold feeds. cbn [searchStrategy]. unfold tryCatch, mbind, M_bind.
    destruct (searchPairs api term w) as [[pairs|e] w1].
    + destruct (IH w1) as (batches & w' & Hrest).
      exists (List.filter (fun p => isBase (DexScreenerPair.chainId p)) pairs :: batches), w'.
      intros Acc add acc. simpl. apply Hrest.
    + destruct (IH w1) as (batches & w' & Hrest).
      exists batches, w'. intros Acc add acc. simpl. apply Hrest.
Qed.

Lemma fetchBasePairsWith_feeds w b1 b2 b3 b4 w1 w2 w3 w4 :
  feeds (fun Acc add => listingStrategy api add (fetchLatestProfiles api)) w b1 w1 ->
  feeds (fun Acc add => listingStrategy api add (fetchLatestBoosts api)) w1 b2 w2 ->
  feeds (fun Acc add => listingStrategy api add (fetchTopBoosts api)) w2 b3 w3 ->
  feeds (fun Acc add => searchStrategy api add SEARCH_TERMS) w3 b4 w4 ->
  feeds (fun Acc add => fetchBasePairsWith api add) w (b1 ++ b2 ++ b3 ++ b4) w4.
Proof.
  intros H1 H2 H3 H4 Acc add acc. unfold fetchBasePairsWith, mbind, M_bind.
  rewrite H1, H2, H3, H4. by rewrite !foldl_app.
Qed.

(** C9. One run of [fetchBasePairs] hands the closure [addPairs] the
    lists of the strategies in strategy order: latest profiles, latest
    boosts, top boosts, then the searches term by term (the lists are the
    same whatever the closure does with them).  The returned candidates
    hold each lower-cased pool address at most once; they are, in arrival
    order, exactly the pairs that arrive before any other pair of the
    same lower-cased pool address, so of two arrivals with one address
    the first is kept. *)
Theorem fetchBasePairs_keeps_first_occurrence :
  forall (w : World),
    exists (b1 b2 b3 b4 : list (list DexScreenerPair.t)) (w1 w2 w3 w' : World)
           (allPairs : list DexScreenerPair.t),
      feeds (fun Acc add => listingStrategy api add (fetchLatestProfiles api)) w b1 w1 /\
      feeds (fun Acc add => listingStrategy api add (fetchLatestBoosts api)) w1 b2 w2 /\
      feeds (fun Acc add => listingStrategy api add (fetchTopBoosts api)) w2 b3 w3 /\
      feeds (fun Acc add => searchStrategy api add SEARCH_TERMS) w3 b4 w' /\
      feeds (fun Acc add => fetchBasePairsWith api add) w (b1 ++ b2 ++ b3 ++ b4) w' /\
      fetchBasePairs api w = (Ok allPairs, w') /\
      NoDup (poolKey <$> allPairs) /\
      allPairs `sublist_of` concat (b1 ++ b2 ++ b3 ++ b4) /\
      (forall p, p ∈ allPairs <-> firstOccurrence (concat (b1 ++ b2 ++ b3 ++ b4)) p) /\
      (forall p, p ∈ concat (b1 ++ b2 ++ b3 ++ b4) ->
         exists q, q ∈ allPairs /\ poolKey q = poolKey p).
Proof.
  intros w.
  destruct (listingStrategy_feeds (fetchLatestProfiles api) w) as (b1 & w1 & H1).
  destruct (listingStrategy_feeds (fetchLatestBoosts api) w1) as (b2 & w2 & H2).
  destruct (listingStrategy_feeds (fetchTopBoosts api) w2) as (b3 & w3 & H3).
  destruct (searchStrategy_feeds SEARCH_TERMS w3) as (b4 & w' & H4).
  pose proof (fetchBasePairsWith_feeds w b1 b2 b3 b4 w1 w2 w3 w' H1 H2 H3 H4) as Hfeeds.
  set (batches := b1 ++ b2 ++ b3 ++ b4) in *.
  pose proof (addPair_invariant (concat batches)) as Hinv.
  cbv zeta in Hinv. destruct Hinv as (Hseen & Hkeys & Hnd & Hsub & Hfirst).
  exists b1, b2, b3, b4, w1, w2, w3, w', (foldl addPair ([], ∅) (concat batches)).1.
  do 5 (split; [done|]). split.
  { unfold fetchBasePairs, mbind, M_bind. rewrite Hfeeds.
    by rewrite addPairs_concat. }
  split; [done|]. split; [done|]. split; [done|].
  intros p Hp.
  assert (Hk : poolKey p ∈ poolKey <$> concat batches)
    by (apply list_elem_of_fmap; eauto).
  apply Hseen, Hkeys, list_elem_of_fmap in Hk as (q & Hq & Hin). eauto.
Qed.

End DedupFacts.

(** C9 on an upstream where the profile listing and the search for "cat"
    find the same pool under two spellings of its address. *)
Lemma fetchBasePairs_keeps_first_occurrence_witness :
  exists w',
    DexScreenerService.fetchBasePairs Samples.overlappingApi Samples.startWorld
    = (DexScreenerService.Ok [Samples.poolUpper; Samples.otherPool], w').
Proof.
  destruct (fetchBasePairs_keeps_first_occurrence Samples.overlappingApi Samples.startWorld)
    as (b1 & b2 & b3 & b4 & w1 & w2 & w3 & w' & allPairs & _ & _ & _ & _ & _ & Hrun & _).
  exists w'. rewrite Hrun. f_equal. f_equal.
  assert (H : (DexScreenerService.fetchBasePairs Samples.overlappingApi Samples.startWorld).1
              = DexScreenerService.Ok [Samples.poolUpper; Samples.otherPool])
    by (vm_compute; reflexivity).
  rewrite Hrun in H. simpl in H. by injection H.
Defined.

(** ** The alert command *)

Section CommandFacts.

Import AlertCommand Boundary.

Lemma matchTail_groups kw rest m :
  matchTail kw rest = Some m ->
  group2 m ∈ [">"; ">="; "<"; "<="]%string /\ isNumeral (group3 m) = true.
Proof.
  unfold matchTail. destruct rest as [|c rest1]; [done|].
  destruct (bool_decide (c = ">"%char) || bool_decide (c = "<"%char)) eqn:Hc; [|done].
  assert (Hop : String c "" = ">"%string \/ String c "" = "<"%string).
  { apply orb_true_iff in Hc as [Hc|Hc]; apply bool_decide_eq_true in Hc; subst; auto. }
  assert (Hop' : (String c "" ++ "=")%string = ">="%string \/
                 (String c "" ++ "=")%string = "<="%string).
  { destruct Hop as [->| ->]; auto. }
  intros H.
  assert (Hcases : (group2 m = String c "" \/ group2 m = (String c "" ++ "=")%string)
                   /\ isNumeral (group3 m) = true).
  { repeat case_match; simplify_eq; simpl; auto. }
  destruct Hcases as [Hg Hn]. split; [|done].
  rewrite !elem_of_cons.
  destruct Hg as [Hg|Hg]; rewrite Hg.
  - destruct Hop as [->| ->]; auto.
  - destruct Hop' as [->| ->]; auto.
Qed.

Lemma matchKeywords_groups kws cleaned m :
  matchKeywords kws cleaned = Some m ->
  group2 m ∈ [">"; ">="; "<"; "<="]%string /\ isNumeral (group3 m) = true.
Proof.
  induction kws as [|kw kws IH]; simpl; [done|].
  destruct (afterPrefix kw cleaned ≫= matchTail kw) as [m'|] eqn:E; [|done].
  intros [= <-]. destruct (afterPrefix kw cleaned) as [rest|]; [|done].
  simpl in E. by apply matchTail_groups in E.
Qed.

Lemma parseCondition_accepts input c :
  parseCondition input = Some c ->
  (operator c = OpGt \/ operator c = OpLt) /\ (0 <= threshold c)%Q.
Proof.
  unfold parseCondition.
  destruct (conditionPattern _) as [m|] eqn:Hm; [|done].
  apply matchKeywords_groups in Hm as [Hop _].
  intros H. repeat case_match; simplify_eq; simpl.
  all: try (split; [auto|by apply Qltb_ge]).
  all: exfalso; rewrite !elem_of_cons, elem_of_nil in Hop;
    repeat match goal with
    | H : _ || _ = false |- _ => apply orb_false_iff in H as [? ?]
    | H : bool_decide _ = false |- _ => apply bool_decide_eq_false in H
    end;
    destruct Hop as [Hop|[Hop|[Hop|[Hop|[]]]]]; congruence.
Qed.

Lemma createAlert_adds author tokenAddress conditionStr now store r store' :
  createAlert author tokenAddress conditionStr now store = (r, store') ->
  forall a, a ∈ LaunchStore.alerts store' -> a ∈ LaunchStore.alerts store \/ fromCommand a.
Proof.
  unfold createAlert. destruct (negb _); [by intros [= <- <-]; auto|].
  destruct (parseCondition conditionStr) as [c|] eqn:Hc; [|by intros [= <- <-]; auto].
  apply parseCondition_accepts in Hc as [Hop Ht].
  intros [= <- <-] a. simpl. rewrite elem_of_app, list_elem_of_singleton.
  intros [?| ->]; [by left|right]. by repeat split.
Qed.

Lemma deleteAlert_removes author alertIdStr store r store' :
  deleteAlert author alertIdStr store = (r, store') ->
  forall a, a ∈ LaunchStore.alerts store' -> a ∈ LaunchStore.alerts store.
Proof.
  unfold deleteAlert. destruct (parseInt alertIdStr) as [alertId|]; [|by intros [= <- <-]].
  intros [= <- <-] a. simpl. intros H.
  apply list_elem_of_In, filter_In in H as [H _]. by apply list_elem_of_In.
Qed.

(** C10. Every alert that [!alert] stores has operator [>] or [<] and a
    threshold that is not negative: [parseCondition] accepts an operator
    among [>], [>=], [<], [<=] only, maps [>=] to [>] and [<=] to [<],
    rejects a bare [=], and reads the threshold from an unsigned decimal
    numeral.  No alert with operator [=] comes out of [handleAlert]. *)
Theorem alert_command_never_stores_equality :
  (forall input c, parseCondition input = Some c ->
     (operator c = OpGt \/ operator c = OpLt) /\ (0 <= threshold c)%Q) /\
  (forall cleaned m, conditionPattern cleaned = Some m ->
     group2 m ∈ [">"; ">="; "<"; "<="]%string /\ isNumeral (group3 m) = true) /\
  (forall author args now store r store',
     handleAlert author args now store = (r, store') ->
     forall a, a ∈ LaunchStore.alerts store' ->
       a ∈ LaunchStore.alerts store \/
       ((Alert.operator a = OpGt \/ Alert.operator a = OpLt) /\
        (0 <= Alert.threshold a)%Q /\ Alert.triggered a = false)) /\
  parseCondition "price=5" = None /\
  parseCondition "price>=5" = Some {| type := price; operator := OpGt; threshold := 5 |} /\
  parseCondition "vol <= 7.5"
    = Some {| type := volume; operator := OpLt; threshold := 7 + 5 / 10 |} /\
  parseCondition "mcap>-1" = None.
Proof.
  split; [exact parseCondition_accepts|].
  split; [intros cleaned m; apply matchKeywords_groups|].
  split; [|by vm_compute].
  intros author args now store r store'. unfold handleAlert.
  destruct args as [|arg0 rest]; [by intros [= <- <-]; auto|].
  destruct (bool_decide _); [by intros [= <- <-]; auto|].
  destruct (_ || _).
  - destruct rest as [|arg1 rest']; [by intros [= <- <-]; auto|].
    intros H a Ha. left. by eapply deleteAlert_removes.
  - destruct rest as [|arg1 rest']; [by intros [= <- <-]; auto|].
    apply createAlert_adds.
Qed.

(** C10 at the command [!alert 0x1234...ef12 vol >= 50000]. *)
Lemma alert_command_never_stores_equality_witness :
  exists store',
    handleAlert "u1" ["0x1234567890abcdefABCDEF1234567890abcdef12"; "vol"; ">="; "50000"]%string
      Samples.now Samples.fourLaunches = (AlertCreated 1, store') /\
    forall a, a ∈ LaunchStore.alerts store' -> Alert.operator a <> OpEq.
Proof.
  eexists. split; [vm_compute; reflexivity|].
  intros a Ha.
  destruct alert_command_never_stores_equality as (_ & _ & H & _).
  destruct (H "u1"%string
              ["0x1234567890abcdefABCDEF1234567890abcdef12"; "vol"; ">="; "50000"]%string
              Samples.now Samples.fourLaunches _ _ eq_refl a Ha) as [Hold|[[Hop|Hop] _]].
  - vm_compute in Hold. by apply elem_of_nil in Hold.
  - by rewrite Hop.
  - by rewrite Hop.
Defined.

End CommandFacts.

(** * Further properties *)

(** ** Launch store: what a batch of upserts leaves in a row *)

Section UpsertMore.

Import TokenLaunch LaunchStore StoreInv.

Lemma onConflict_same l : onConflict l l = l.
Proof. by destruct l. Qed.

Lemma onConflict_onConflict old a b : onConflict (onConflict old a) b = onConflict old b.
Proof. reflexivity. Qed.

Lemma upsertLaunches_lookup items : forall db k,
  launches (upsertLaunches items db) !! k =
  match observations k items with
  | [] => launches db !! k
  | first :: rest =>
      Some (onConflict (default first (launches db !! k)) (default first (last rest)))
  end.
Proof.
  unfold observations.
  induction items as [|x xs IH]; intros db k; [done|].
  rewrite upsertLaunches_cons, IH.
  destruct (decide (pairAddress x = k)) as [<-|Hne].
  - rewrite filter_cons_True by done.
    assert (Hrow : launches (upsertLaunch x db) !! pairAddress x
                   = Some (onConflict (default x (launches db !! pairAddress x)) x)).
    { simpl. destruct (launches db !! pairAddress x) as [old|] eqn:E.
      - by apply upsertRow_conflict.
      - rewrite upsertRow_fresh by done. simpl. by rewrite onConflict_same. }
    rewrite Hrow.
    destruct (filter _ xs) as [|f' rest'] eqn:Hobs; [done|].
    simpl default at 1. rewrite onConflict_onConflict. f_equal. f_equal.
    rewrite last_cons. by destruct (last rest').
  - rewrite filter_cons_False by done.
    simpl. by rewrite upsertRow_other.
Qed.

Lemma upsertLaunches_alerts items : forall db,
  alerts (upsertLaunches items db) = alerts db /\
  alertSeq (upsertLaunches items db) = alertSeq db.
Proof.
  induction items as [|x xs IH]; intros db; [done|].
  rewrite upsertLaunches_cons. destruct (IH (upsertLaunch x db)) as [-> ->]. done.
Qed.

(** X1. After a batch of upserts the row of a pool that was not stored
    before carries the identity columns of the batch's first launch for
    that pool and the market columns of its last one; the row of a pool
    that the batch does not mention is what it was, and a pool that is
    neither stored nor mentioned stays absent. *)
Theorem upsertLaunches_first_identity_last_market :
  forall (items : list TokenLaunch.t) (db : LaunchStore.t) (k : string),
    (forall first rest, launches db !! k = None ->
       observations k items = first :: rest ->
       exists r, launches (upsertLaunches items db) !! k = Some r /\
                 Frame.sameIdentity first r /\
                 Frame.sameMarket (default first (last rest)) r) /\
    (observations k items = [] ->
       launches (upsertLaunches items db) !! k = launches db !! k) /\
    alerts (upsertLaunches items db) = alerts db /\
    alertSeq (upsertLaunches items db) = alertSeq db.
Proof.
  intros items db k. split; [|split; [|split]].
  - intros first rest Hnone Hobs. rewrite upsertLaunches_lookup, Hobs, Hnone.
    eexists. split; [reflexivity|]. simpl.
    split; [apply onConflict_identity|apply onConflict_market].
  - intros Hobs. by rewrite upsertLaunches_lookup, Hobs.
  - apply upsertLaunches_alerts.
  - apply upsertLaunches_alerts.
Qed.

(** X1 on the empty store and a batch that observes pool 1 twice. *)
Lemma upsertLaunches_first_identity_last_market_witness :
  exists r,
    launches (upsertLaunches [Samples.aged10min; Samples.aged2h; Samples.reobserved]
                Samples.emptyStore) !! "0xpool1"%string = Some r /\
    Frame.sameIdentity Samples.aged10min r /\ Frame.sameMarket Samples.reobserved r.
Proof.
  destruct (upsertLaunches_first_identity_last_market
              [Samples.aged10min; Samples.aged2h; Samples.reobserved]
              Samples.emptyStore "0xpool1"%string) as (H & _).
  apply (H Samples.aged10min [Samples.reobserved]); reflexivity.
Defined.

Lemma store_eq db1 db2 :
  launches db1 = launches db2 -> alerts db1 = alerts db2 -> alertSeq db1 = alertSeq db2 ->
  db1 = db2.
Proof. destruct db1, db2. simpl. by intros -> -> ->. Qed.

(** X2. Upserts are idempotent: applying the same launch twice, or the
    same batch twice, leaves the store as one application does. *)
Theorem upsert_idempotent :
  forall (db : LaunchStore.t),
    (forall launch, upsertLaunch launch (upsertLaunch launch db) = upsertLaunch launch db) /\
    (forall items,
       upsertLaunches items (upsertLaunches items db) = upsertLaunches items db).
Proof.
  assert (Hbatch : forall db items,
            upsertLaunches items (upsertLaunches items db) = upsertLaunches items db).
  { intros db items.
    destruct (upsertLaunches_alerts items (upsertLaunches items db)) as (Ha & Hs).
    apply store_eq; [|done|done].
    apply map_eq. intros k. rewrite (upsertLaunches_lookup items (upsertLaunches items db)).
    rewrite (upsertLaunches_lookup items db).
    destruct (observations k items) as [|first rest]; [done|]. simpl.
    by rewrite onConflict_onConflict. }
  intros db. split; [|apply Hbatch].
  intros launch. apply (Hbatch db [launch]).
Qed.

Lemma keyed_upsertLaunch l db : keyed db -> keyed (upsertLaunch l db).
Proof.
  intros Hk k r. simpl. destruct (decide (pairAddress l = k)) as [<-|Hne].
  - unfold upsertRow. destruct (launches db !! pairAddress l) as [old|] eqn:E.
    + rewrite lookup_insert_eq. intros [= <-]. simpl. by apply Hk.
    + rewrite lookup_insert_eq. by intros [= <-].
  - rewrite upsertRow_other by done. apply Hk.
Qed.

Lemma keyed_upsertLaunches items : forall db, keyed db -> keyed (upsertLaunches items db).
Proof.
  induction items as [|x xs IH]; intros db Hk; [done|].
  rewrite upsertLaunches_cons. by apply IH, keyed_upsertLaunch.
Qed.

Lemma keyed_rows_NoDup db : keyed db -> NoDup (pairAddress <$> rows db).
Proof.
  intros Hk. unfold rows.
  assert (Heq : pairAddress <$> (map_to_list (launches db)).*2 = (map_to_list (launches db)).*1).
  { rewrite <- list_fmap_compose. apply list_fmap_ext.
    intros i [k l] Hi. simpl. apply Hk.
    apply elem_of_map_to_list. by eapply list_elem_of_lookup_2. }
  rewrite Heq. apply NoDup_fst_map_to_list.
Qed.

(** X3. Upserts never remove a pool: the stored pool addresses after a
    batch are those stored before together with those of the batch.  A
    store in which every row sits under its own pool address stays so,
    and then no query returns two rows of one pool. *)
Theorem upsertLaunches_keeps_pools_keyed :
  forall (items : list TokenLaunch.t) (db : LaunchStore.t),
    (forall k, is_Some (launches (upsertLaunches items db) !! k) <->
               is_Some (launches db !! k) \/ k ∈ pairAddress <$> items) /\
    (keyed db ->
       keyed (upsertLaunches items db) /\
       forall timeframeHours sortBy limit now,
         NoDup (pairAddress <$>
                getLaunches timeframeHours sortBy limit now (upsertLaunches items db)) /\
         NoDup (pairAddress <$> getTrendingLaunches limit now (upsertLaunches items db))).
Proof.
  intros items db. split.
  - intros k. rewrite upsertLaunches_lookup.
    assert (Hobs : k ∈ pairAddress <$> items <-> observations k items <> []).
    { unfold observations. rewrite list_elem_of_fmap. split.
      - intros (l & -> & Hl) Hnil.
        assert (l ∈ filter (fun l0 => pairAddress l0 = pairAddress l) items)
          by (by apply list_elem_of_filter).
        rewrite Hnil in H. by apply elem_of_nil in H.
      - destruct (filter _ items) as [|f rest] eqn:E; [done|]. intros _.
        assert (Hf : f ∈ filter (fun l => pairAddress l = k) items)
          by (rewrite E; apply list_elem_of_here).
        apply list_elem_of_filter in Hf as [Hk Hin]. by exists f. }
    rewrite Hobs. destruct (observations k items) as [|f rest].
    + split; [auto|]. by intros [?|?].
    + split; [intros _; by right|intros _; eauto].
  - intros Hk. pose proof (keyed_upsertLaunches items db Hk) as Hk'.
    split; [done|]. intros timeframeHours sortBy limit now.
    pose proof (keyed_rows_NoDup _ Hk') as Hnd.
    assert (Hsub : forall P key lim,
              NoDup (pairAddress <$>
                     sqlLimit lim (orderBy key
                       (filter (fun l => P l = true) (rows (upsertLaunches items db)))))).
    { intros P key lim.
      destruct (sqlLimit_split lim (orderBy key
                  (filter (fun l => P l = true) (rows (upsertLaunches items db)))))
        as (rest & Hsplit & _).
      assert (Hnd' : NoDup (pairAddress <$> orderBy key
                  (filter (fun l => P l = true) (rows (upsertLaunches items db))))).
      { rewrite orderBy_perm.
        eapply sublist_NoDup; [exact Hnd|]. apply fmap_sublist. apply sublist_filter. }
      rewrite Hsplit, fmap_app in Hnd'. by apply NoDup_app in Hnd' as [? _]. }
    split; apply Hsub.
Qed.

(** X3 on the four sample launches followed by a second observation. *)
Lemma upsertLaunches_keeps_pools_keyed_witness :
  keyed (upsertLaunches [Samples.reobserved] Samples.fourLaunches).
Proof.
  apply (upsertLaunches_keeps_pools_keyed [Samples.reobserved] Samples.fourLaunches).
  apply (keyed_upsertLaunches
           [Samples.aged10min; Samples.aged2h; Samples.aged10h; Samples.aged30h]
           Samples.emptyStore).
  intros k l H. simpl in H. by rewrite lookup_empty in H.
Defined.

End UpsertMore.

(** ** Launch store: pruning and lookup by token *)

Section PruneFacts.

Import TokenLaunch LaunchStore StoreInv.

Lemma isStale_spec cutoff l :
  isStale cutoff l = true <-> exists c, pairCreatedAt l = Some c /\ (inject_Z c < cutoff)%Q.
Proof.
  unfold isStale. destruct (pairCreatedAt l) as [c|]; split.
  - intros H. exists c. split; [done|]. by apply Qltb_lt.
  - intros (c' & [= <-] & H). by apply Qltb_lt.
  - done.
  - by intros (? & ? & _).
Qed.

Lemma isStale_createdSince cutoff l c :
  pairCreatedAt l = Some c -> isStale cutoff l = negb (createdSince cutoff l).
Proof. intros H. unfold isStale, createdSince. by rewrite H. Qed.

Lemma pruneOldLaunches_lookup maxAgeHours now db k l :
  launches (pruneOldLaunches maxAgeHours now db).2 !! k = Some l <->
  launches db !! k = Some l /\
  ~ exists c, pairCreatedAt l = Some c /\
              (inject_Z c < inject_Z now - maxAgeHours * 60 * 60 * 1000)%Q.
Proof.
  unfold pruneOldLaunches. simpl.
  rewrite map_lookup_filter_Some. simpl. rewrite <- isStale_spec.
  destruct (isStale _ l); split; intros [? ?]; split; done.
Qed.

(** X4. [pruneOldLaunches maxAgeHours] deletes exactly the rows whose
    pairCreatedAt lies before [now - maxAgeHours * 3600000] (a row without
    a creation time is kept), returns the number of rows it deleted and
    leaves the alerts alone.  Afterwards no query, whatever its time
    frame, returns a launch created before that cutoff. *)
Theorem pruneOldLaunches_removes_exactly_the_stale :
  forall (maxAgeHours : Q) (now : Z) (db : LaunchStore.t),
    let cutoff := (inject_Z now - maxAgeHours * 60 * 60 * 1000)%Q in
    let pruned := pruneOldLaunches maxAgeHours now db in
    (forall k l, launches pruned.2 !! k = Some l <->
       launches db !! k = Some l /\
       ~ exists c, pairCreatedAt l = Some c /\ (inject_Z c < cutoff)%Q) /\
    pruned.1 = Z.of_nat (size (filter (fun kv => isStale cutoff kv.2 = true) (launches db))) /\
    Z.of_nat (size (launches pruned.2)) = Z.of_nat (size (launches db)) - pruned.1 /\
    alerts pruned.2 = alerts db /\
    (keyed db -> keyed pruned.2) /\
    (forall timeframeHours sortBy limit now' l,
       l ∈ getLaunches timeframeHours sortBy limit now' pruned.2 ->
       exists c, pairCreatedAt l = Some c /\ (cutoff <= inject_Z c)%Q) /\
    (forall limit now' l,
       l ∈ getTrendingLaunches limit now' pruned.2 ->
       exists c, pairCreatedAt l = Some c /\ (cutoff <= inject_Z c)%Q).
Proof.
  intros maxAgeHours now db cutoff pruned.
  assert (Hrow : forall k l, launches pruned.2 !! k = Some l <->
            launches db !! k = Some l /\
            ~ exists c, pairCreatedAt l = Some c /\ (inject_Z c < cutoff)%Q).
  { intros k l. apply pruneOldLaunches_lookup. }
  assert (Hsize : size (launches db)
                  = (size (filter (fun kv : string * TokenLaunch.t =>
                                     isStale cutoff kv.2 = false) (launches db))
                     + size (filter (fun kv : string * TokenLaunch.t =>
                                       isStale cutoff kv.2 = true) (launches db)))%nat).
  { rewrite <- map_size_disj_union.
    - f_equal. rewrite <- (map_filter_union_complement
                 (fun kv : string * TokenLaunch.t => isStale cutoff kv.2 = false) (launches db))
        at 1.
      f_equal. apply map_filter_ext. intros k l _. simpl.
      by destruct (isStale cutoff l).
    - apply map_disjoint_spec. intros k x y Hx Hy.
      apply map_lookup_filter_Some in Hx as [Hx1 Hx2], Hy as [Hy1 Hy2].
      rewrite Hx1 in Hy1. injection Hy1 as <-. simpl in *. congruence. }
  assert (Hwindow : forall l, l ∈ rows pruned.2 ->
            forall c, pairCreatedAt l = Some c -> (cutoff <= inject_Z c)%Q).
  { intros l Hl c Hc. apply elem_of_rows in Hl as (k & Hk).
    apply Hrow in Hk as [_ Hk]. apply Qnot_lt_le. intros Hlt. apply Hk. eauto. }
  split; [exact Hrow|].
  split.
  { subst pruned. unfold pruneOldLaunches. fold cutoff. simpl. lia. }
  split.
  { subst pruned. unfold pruneOldLaunches. fold cutoff. simpl. lia. }
  split; [done|].
  split.
  { intros Hk k l Hl. apply Hrow in Hl as [Hl _]. by apply Hk. }
  split.
  - intros timeframeHours sortBy limit now' l Hl. unfold getLaunches in Hl.
    destruct (sqlLimit_split limit (orderBy (sortKey sortBy)
       (filter (fun l0 => createdSince
          (inject_Z now' - timeframeHours * 60 * 60 * 1000) l0 = true) (rows pruned.2))))
      as (rest & Hsplit & _).
    assert (Hin : l ∈ orderBy (sortKey sortBy)
       (filter (fun l0 => createdSince
          (inject_Z now' - timeframeHours * 60 * 60 * 1000) l0 = true) (rows pruned.2)))
      by (rewrite Hsplit; apply elem_of_app; by left).
    rewrite orderBy_perm in Hin. apply list_elem_of_filter in Hin as [Hc Hin].
    apply createdSince_spec in Hc as (c & Hc & _). exists c. split; [done|].
    by apply (Hwindow l Hin).
  - intros limit now' l Hl. unfold getTrendingLaunches in Hl.
    destruct (sqlLimit_split limit (orderBy trendingScore
       (filter (fun l0 => isTrendingCandidate
          (inject_Z now' - 24 * 60 * 60 * 1000) l0 = true) (rows pruned.2))))
      as (rest & Hsplit & _).
    assert (Hin : l ∈ orderBy trendingScore
       (filter (fun l0 => isTrendingCandidate
          (inject_Z now' - 24 * 60 * 60 * 1000) l0 = true) (rows pruned.2)))
      by (rewrite Hsplit; apply elem_of_app; by left).
    rewrite orderBy_perm in Hin. apply list_elem_of_filter in Hin as [Hc Hin].
    apply isTrendingCandidate_spec in Hc as ((c & Hc & _) & _). exists c. split; [done|].
    by apply (Hwindow l Hin).
Qed.

Lemma descNullsLast_nullsLowest a b : descNullsLast a b = true <-> nullsLowest b a.
Proof.
  destruct a as [x|], b as [y|]; simpl; try done.
  apply Qle_bool_iff.
Qed.

(** X5. [getLaunchByToken] compares the address lower-cased.  It returns
    nothing exactly when no stored launch has that token address;
    otherwise it returns a stored launch of that token whose 24h volume
    is the highest among the pools of the token, a missing volume
    counting as lowest. *)
Theorem getLaunchByToken_highest_volume :
  forall (tokenAddress : string) (db : LaunchStore.t),
    (getLaunchByToken tokenAddress db = None <->
       forall k l, launches db !! k = Some l ->
                   TokenLaunch.tokenAddress l <> JS.toLowerCase tokenAddress) /\
    (forall best, getLaunchByToken tokenAddress db = Some best ->
       (exists k, launches db !! k = Some best) /\
       TokenLaunch.tokenAddress best = JS.toLowerCase tokenAddress /\
       forall k l, launches db !! k = Some l ->
                   TokenLaunch.tokenAddress l = JS.toLowerCase tokenAddress ->
                   nullsLowest (volume24h l) (volume24h best)).
Proof.
  intros tokenAddress db. unfold getLaunchByToken.
  set (key := JS.toLowerCase tokenAddress).
  set (pools := filter (fun l => TokenLaunch.tokenAddress l = key) (rows db)).
  assert (Hpools : forall l, l ∈ pools <->
            (exists k, launches db !! k = Some l) /\ TokenLaunch.tokenAddress l = key).
  { intros l. unfold pools. rewrite list_elem_of_filter, elem_of_rows. tauto. }
  split.
  - rewrite head_None. split.
    + intros Hnil k l Hl Hkey.
      assert (Hin : l ∈ orderBy volume24h pools)
        by (rewrite orderBy_perm; apply Hpools; eauto).
      rewrite Hnil in Hin. by apply elem_of_nil in Hin.
    + intros Hnone. destruct (orderBy volume24h pools) as [|l rest] eqn:E; [done|].
      assert (Hin : l ∈ orderBy volume24h pools) by (rewrite E; apply list_elem_of_here).
      rewrite orderBy_perm in Hin. apply Hpools in Hin as [(k & Hk) Hkey].
      by destruct (Hnone k l).
  - intros best Hbest.
    pose proof (orderBy_sorted volume24h pools) as Hsorted.
    destruct (orderBy volume24h pools) as [|l rest] eqn:E; [done|].
    simpl in Hbest. injection Hbest as ->.
    assert (Hin : best ∈ pools) by (rewrite <- orderBy_perm, E; apply list_elem_of_here).
    apply Hpools in Hin as [Hstored Hkey].
    split; [done|]. split; [done|].
    intros k l Hl Hlkey.
    assert (Hl' : l ∈ best :: rest) by (rewrite <- E, orderBy_perm; apply Hpools; eauto).
    apply descNullsLast_nullsLowest.
    apply StronglySorted_inv in Hsorted as [_ Hall].
    apply elem_of_cons in Hl' as [->|Hl'].
    + destruct (orderedBy_total volume24h best best); done.
    + rewrite Forall_forall in Hall. by apply Hall.
Qed.

End PruneFacts.

(** ** Launch store: the alerts table *)

Section AlertTableFacts.

Import LaunchStore StoreInv.

Lemma filter_In_elem {A} (f : A -> bool) (l : list A) x :
  x ∈ List.filter f l <-> x ∈ l /\ f x = true.
Proof. rewrite !list_elem_of_In. apply filter_In. Qed.

Lemma filter_all {A} (f : A -> bool) (l : list A) :
  (forall x, x ∈ l -> f x = true) -> List.filter f l = l.
Proof.
  induction l as [|a l IH]; intros H; [done|]. simpl.
  rewrite (H a) by apply list_elem_of_here. f_equal. apply IH.
  intros x Hx. apply H. by apply list_elem_of_further.
Qed.

Lemma fmap_filter_sublist {A B} (g : A -> B) (f : A -> bool) (l : list A) :
  g <$> List.filter f l `sublist_of` g <$> l.
Proof.
  induction l as [|a l IH]; [done|]. simpl. destruct (f a); simpl.
  - by apply sublist_skip.
  - by apply sublist_cons.
Qed.

Lemma filter_sublist_of {A} (f : A -> bool) (l : list A) : List.filter f l `sublist_of` l.
Proof.
  induction l as [|a l IH]; [done|]. simpl.
  destruct (f a); [by apply sublist_skip|by apply sublist_cons].
Qed.

Lemma existsb_false_filter {A} (f : A -> bool) (l : list A) :
  existsb f l = false -> List.filter (fun a => negb (f a)) l = l.
Proof.
  induction l as [|a l IH]; [done|]. simpl.
  intros [Ha Hl]%orb_false_iff. rewrite Ha. simpl. f_equal. by apply IH.
Qed.

(** X6. With pairwise distinct alert ids not above the AUTOINCREMENT
    counter, [createAlert] returns an id that no stored alert has, appends
    one untriggered alert with the token address lower-cased, leaves the
    other alerts as they are and keeps the ids distinct.  Deleting that
    alert again restores the alert list but not the counter, so the id is
    not handed out a second time. *)
Theorem createAlert_returns_unused_id :
  forall (userId tokenAddress : string) (conditionType : ConditionType)
         (operator : Operator) (threshold : Q) (now : Z) (db : LaunchStore.t),
    alertIdsFresh db ->
    let created := createAlert userId tokenAddress conditionType operator threshold now db in
    let new := {| Alert.id := created.1; Alert.userId := userId;
                  Alert.tokenAddress := JS.toLowerCase tokenAddress;
                  Alert.conditionType := conditionType; Alert.operator := operator;
                  Alert.threshold := threshold; Alert.triggered := false;
                  Alert.createdAt := now |} in
    (forall a, a ∈ alerts db -> Alert.id a < created.1) /\
    alerts created.2 = alerts db ++ [new] /\
    new ∈ getActiveAlerts created.2 /\
    alertIdsFresh created.2 /\
    launches created.2 = launches db /\
    (deleteAlert created.1 userId created.2).1 = true /\
    alerts (deleteAlert created.1 userId created.2).2 = alerts db /\
    (forall u t c o th n,
       (createAlert u t c o th n (deleteAlert created.1 userId created.2).2).1
       = created.1 + 1).
Proof.
  intros userId tokenAddress conditionType operator threshold now db [Hnd Hle] created new.
  assert (Hlt : forall a, a ∈ alerts db -> Alert.id a < created.1).
  { intros a Ha. apply Hle in Ha. simpl. lia. }
  split; [exact Hlt|]. split; [done|]. split.
  { unfold getActiveAlerts. apply filter_In_elem. split; [|done].
    simpl. apply elem_of_app. right. apply list_elem_of_here. }
  split.
  { split.
    - simpl. rewrite fmap_app. apply NoDup_app. split; [done|]. split.
      + intros i Hi Hnew. apply list_elem_of_singleton in Hnew.
        apply list_elem_of_fmap in Hi as (a & -> & Ha). apply Hlt in Ha. simpl in *. lia.
      + apply NoDup_singleton.
    - intros a. simpl. rewrite elem_of_app, list_elem_of_singleton.
      intros [Ha| ->]; [apply Hle in Ha; lia|simpl; lia]. }
  split; [done|].
  assert (Hdel : forall l,
            (forall a, a ∈ l -> Alert.id a < created.1) ->
            List.filter (fun a => negb (bool_decide (Alert.id a = created.1)
                                        && bool_decide (Alert.userId a = userId)))
              (l ++ [new]) = l).
  { intros l Hl. rewrite List.filter_app. simpl.
    rewrite !bool_decide_eq_true_2 by done. simpl. rewrite app_nil_r.
    apply filter_all. intros a Ha. apply Hl in Ha.
    rewrite bool_decide_eq_false_2; [done|]. simpl in *. lia. }
  split.
  { simpl. rewrite existsb_app. simpl.
    rewrite !bool_decide_eq_true_2 by done. by rewrite orb_true_r. }
  split.
  { simpl. by apply Hdel. }
  intros u t c o th n. reflexivity.
Qed.

(** X6 on the first alert of a store without alerts. *)
Lemma createAlert_returns_unused_id_witness :
  alerts (deleteAlert 1 "u1"
            (createAlert "u1" "0xTOKEN1" price OpGt 1 Samples.now Samples.fourLaunches).2).2
  = [].
Proof.
  apply (createAlert_returns_unused_id "u1" "0xTOKEN1" price OpGt 1 Samples.now
           Samples.fourLaunches).
  split; [constructor|]. intros a Ha. vm_compute in Ha. by apply elem_of_nil in Ha.
Defined.

(** X7. [deleteAlert alertId userId] removes the alerts that have both
    that id and that owner, and nothing else: it answers [true] exactly
    when there is one, an alert of another user or with another id is
    kept as it is, and the order and the ids of the remaining alerts do
    not change. *)
Theorem deleteAlert_only_the_owners_alert :
  forall (alertId : Z) (userId : string) (db : LaunchStore.t),
    let deleted := deleteAlert alertId userId db in
    (deleted.1 = true <->
       exists a, a ∈ alerts db /\ Alert.id a = alertId /\ Alert.userId a = userId) /\
    (forall a, a ∈ alerts deleted.2 <->
       a ∈ alerts db /\ ~ (Alert.id a = alertId /\ Alert.userId a = userId)) /\
    alerts deleted.2 `sublist_of` alerts db /\
    (deleted.1 = false -> deleted.2 = db) /\
    launches deleted.2 = launches db /\
    (alertIdsFresh db -> alertIdsFresh deleted.2).
Proof.
  intros alertId userId db deleted. subst deleted. unfold deleteAlert. simpl.
  set (doomed := fun a : Alert.t =>
         bool_decide (Alert.id a = alertId) && bool_decide (Alert.userId a = userId)).
  assert (Hdoomed : forall a, doomed a = true <->
            Alert.id a = alertId /\ Alert.userId a = userId).
  { intros a. unfold doomed. by rewrite andb_true_iff, !bool_decide_eq_true. }
  split; [|split; [|split; [|split; [|split]]]].
  - rewrite existsb_exists. split.
    + intros (a & Ha & Hd). exists a. rewrite list_elem_of_In. by rewrite <- Hdoomed.
    + intros (a & Ha & Hd). exists a. rewrite <- list_elem_of_In. by rewrite Hdoomed.
  - intros a. rewrite filter_In_elem, negb_true_iff.
    pose proof (Hdoomed a) as Hd. unfold doomed in Hd. revert Hd.
    destruct (_ && _); intuition congruence.
  - apply filter_sublist_of.
  - intros Hnone. destruct db as [ls al sq]. simpl in *. f_equal.
    by apply (existsb_false_filter doomed).
  - done.
  - intros [Hnd Hle]. split.
    + eapply sublist_NoDup; [exact Hnd|]. simpl. apply fmap_filter_sublist.
    + intros a Ha. simpl in *. apply filter_In_elem in Ha as [Ha _]. by apply Hle.
Qed.


End AlertTableFacts.

(** ** Alert checker: what a tick leaves alone *)

Section CheckerMore.

Import AlertChecker AlertLoop LaunchStore StoreInv AlertMatch.









(** X10. The comparisons of [evaluateAlert] are strict and a NULL column
    counts as 0: at a value equal to the threshold neither [>] nor [<]
    holds; an alert with [=] and a negative threshold never holds; an
    alert "below t" with t above 0 holds on a launch whose column is
    NULL, and an alert "above t" with t at least 0 does not. *)
Theorem evaluateAlert_strict_null_as_zero :
  forall (alert : Alert.t) (launch : TokenLaunch.t),
    let t := Alert.threshold alert in
    let v := JS.toNumber (currentValue alert launch) in
    (Alert.operator alert = OpGt -> (evaluateAlert alert launch = true <-> (t < v)%Q)) /\
    (Alert.operator alert = OpLt -> (evaluateAlert alert launch = true <-> (v < t)%Q)) /\
    ((v == t)%Q -> Alert.operator alert <> OpEq -> evaluateAlert alert launch = false) /\
    (Alert.operator alert = OpEq -> (t < 0)%Q -> evaluateAlert alert launch = false) /\
    (currentValue alert launch = None ->
       (Alert.operator alert = OpLt -> (0 < t)%Q -> evaluateAlert alert launch = true) /\
       (Alert.operator alert = OpGt -> (0 <= t)%Q -> evaluateAlert alert launch = false)).
Proof.
  intros alert launch t v.
  assert (Hgt : Alert.operator alert = OpGt ->
                (evaluateAlert alert launch = true <-> (t < v)%Q)).
  { intros Hop. unfold evaluateAlert. rewrite Hop. apply Qltb_lt. }
  assert (Hlt : Alert.operator alert = OpLt ->
                (evaluateAlert alert launch = true <-> (v < t)%Q)).
  { intros Hop. unfold evaluateAlert. rewrite Hop. apply Qltb_lt. }
  split; [done|]. split; [done|]. split; [|split; [|split]].
  - intros Heq Hop. apply not_true_is_false. intros He.
    destruct (Alert.operator alert) eqn:E; [| |done].
    + apply Hgt in He; [|done]. lra.
    + apply Hlt in He; [|done]. lra.
  - intros Hop Hneg. apply not_true_is_false. unfold evaluateAlert. rewrite Hop.
    fold t v. rewrite Qle_bool_iff. apply Qabs_case; intros; lra.
  - intros Hop Hpos. apply Hlt; [done|]. subst v. rewrite H. simpl. lra.
  - intros Hop Hpos. apply not_true_is_false. intros He. apply Hgt in He; [|done].
    subst v. rewrite H in He. simpl in He. lra.
Qed.

(** X10 at an alert "price below 5" and a launch without a price. *)
Lemma evaluateAlert_strict_null_as_zero_witness :
  evaluateAlert
    {| Alert.id := 3; Alert.userId := "u1"; Alert.tokenAddress := "0xtoken1";
       Alert.conditionType := price; Alert.operator := OpLt; Alert.threshold := 5;
       Alert.triggered := false; Alert.createdAt := Samples.now |}
    {| TokenLaunch.pairAddress := "0xpool1"; TokenLaunch.tokenAddress := "0xtoken1";
       TokenLaunch.name := "Sample"; TokenLaunch.symbol := "SMP";
       TokenLaunch.dexId := "uniswap"; TokenLaunch.priceUsd := None;
       TokenLaunch.marketCap := None; TokenLaunch.volume24h := Some 10%Q;
       TokenLaunch.liquidityUsd := None; TokenLaunch.priceChange24h := None;
       TokenLaunch.pairCreatedAt := Some Samples.now;
       TokenLaunch.dexscreenerUrl := ""; TokenLaunch.lastUpdated := Samples.now |} = true.
Proof.
  eapply evaluateAlert_strict_null_as_zero; [reflexivity|reflexivity|by vm_compute].
Defined.

End CheckerMore.

(** ** Client: pacing, batching, fetchers *)

Section ServiceMore.

Import DexScreenerService Retry Pacing.

Variable api : Upstream.

(** X11. The pacing gate: [rateLimitedRequest] runs the request at the
    later of the current time and 500 ms after the last dispatch, records
    that instant as the new last dispatch, and waits only when less than
    500 ms have passed.  So back-to-back requests are dispatched at
    least 500 ms apart, whatever the time the answers take. *)
Theorem rateLimitedRequest_spaces_dispatches :
  (forall A (fn : M A) (w : World),
     exists w0,
       rateLimitedRequest fn w = fn w0 /\
       clock w0 = Z.max (clock w) (lastRequestTime w + minRequestInterval) /\
       lastRequestTime w0 = clock w0 /\
       requests w0 = requests w /\
       trace w0 = trace w ++
         (if clock w - lastRequestTime w <? minRequestInterval
          then [EvPace (minRequestInterval - (clock w - lastRequestTime w))] else [])) /\
  (forall (eps : list Endpoint) (w : World),
     lastRequestTime w + minRequestInterval * Z.of_nat (length eps)
       <= lastRequestTime (dispatchAll api eps w)) /\
  (forall (eps : list Endpoint) (w : World),
     requests (dispatchAll api eps w) = (requests w + length eps)%nat /\
     gets (trace (dispatchAll api eps w)) = gets (trace w) ++ eps) /\
  minRequestInterval = 500.
Proof.
  split; [|split; [|split]].
  - intros A fn w. unfold rateLimitedRequest. eexists. split; [reflexivity|].
    unfold minRequestInterval. simpl.
    destruct (clock w - lastRequestTime w <? 500) eqn:E; simpl.
    + apply Z.ltb_lt in E. repeat split; lia.
    + apply Z.ltb_ge in E. repeat split; [lia|by rewrite app_nil_r].
  - intros eps. induction eps as [|ep rest IH]; intros w;
      [unfold minRequestInterval; simpl; lia|].
    cbn [dispatchAll].
    set (w1 := (rateLimitedRequest (clientGet api ep (fun _ => Fulfilled tt)) w).2).
    assert (H1 : lastRequestTime w + minRequestInterval <= lastRequestTime w1).
    { subst w1. unfold rateLimitedRequest, clientGet, minRequestInterval. simpl.
      destruct (clock w - lastRequestTime w <? 500) eqn:E; simpl.
      - apply Z.ltb_lt in E. lia.
      - apply Z.ltb_ge in E. lia. }
    specialize (IH w1). cbn [length]. rewrite Nat2Z.inj_succ.
    unfold minRequestInterval in *. lia.
  - intros eps. induction eps as [|ep rest IH]; intros w.
    + simpl. split; [lia|by rewrite app_nil_r].
    + cbn [dispatchAll].
      set (w1 := (rateLimitedRequest (clientGet api ep (fun _ => Fulfilled tt)) w).2).
      destruct (IH w1) as [Hr Hg]. rewrite Hr, Hg.
      assert (H1 : requests w1 = S (requests w) /\ gets (trace w1) = gets (trace w) ++ [ep]).
      { subst w1. unfold rateLimitedRequest, clientGet. simpl.
        destruct (_ <? _); simpl; rewrite ?gets_app; simpl;
          rewrite ?app_nil_r; done. }
      destruct H1 as [-> ->]. cbn [length]. split; [lia|by rewrite <- app_assoc].
  - reflexivity.
Qed.









Lemma pacedGet_step {A B} ep (reply : nat -> Reply A) (f : A -> B) w :
  exists w1,
    rateLimitedRequest (data ← clientGet api ep reply; mret (f data)) w
    = (match reply (requests w) with
       | Fulfilled d => Ok (f d)
       | Failed e => Throw (ThrownError e)
       end, w1) /\
    requests w1 = S (requests w) /\
    backoffs (trace w1) = backoffs (trace w) /\
    gets (trace w1) = gets (trace w) ++ [ep].
Proof.
  destruct (rateLimitedRequest_runs (data ← clientGet api ep reply; mret (f data)) w)
    as (w0 & -> & Hq & Hb & Hg).
  unfold mbind, M_bind, clientGet. rewrite <- Hq, <- Hb, <- Hg.
  destruct (reply (requests w0)); eexists; (split; [reflexivity|]); simpl;
    rewrite backoffs_app, gets_app; simpl; rewrite !app_nil_r; done.
Qed.

Lemma fetcher_first_fulfilled {A B} ep (reply : nat -> Reply A) (f : A -> B) w :
  exists w',
    fetcher api ep reply f w = ((firstFulfilled reply f (requests w)).1, w') /\
    requests w' = (requests w + (firstFulfilled reply f (requests w)).2)%nat /\
    backoffs (trace w') = backoffs (trace w)
      ++ take (pred (firstFulfilled reply f (requests w)).2) [1000; 2000] /\
    gets (trace w') = gets (trace w)
      ++ replicate (firstFulfilled reply f (requests w)).2 ep.
Proof.
  unfold fetcher, retryWithBackoff, defaultMaxRetries, firstFulfilled. cbn [retryLoop].
  destruct (pacedGet_step ep reply f w) as (w1 & -> & Hq1 & Hb1 & Hg1).
  destruct (reply (requests w)) as [d|e0].
  { exists w1. simpl. rewrite Hb1, Hg1, app_nil_r. split; [done|]. split; [lia|done]. }
  change (Z.of_nat 0 <? Z.of_nat 3 - 1) with true. cbv iota.
  set (w1' := sleep EvBackoff (2 ^ Z.of_nat 0 * 1000) w1).
  assert (Hq1' : requests w1' = S (requests w)) by done.
  assert (Hb1' : backoffs (trace w1') = backoffs (trace w) ++ [1000]).
  { subst w1'. simpl. rewrite backoffs_app, Hb1. done. }
  assert (Hg1' : gets (trace w1') = gets (trace w) ++ [ep]).
  { subst w1'. simpl. rewrite gets_app, Hg1. simpl. by rewrite app_nil_r. }
  destruct (pacedGet_step ep reply f w1') as (w2 & -> & Hq2 & Hb2 & Hg2).
  rewrite Hq1'. destruct (reply (S (requests w))) as [d|e1].
  { exists w2. simpl. rewrite Hb2, Hg2, Hb1', Hg1', Hq2, Hq1', <- app_assoc.
    split; [done|]. split; [lia|done]. }
  change (Z.of_nat 1 <? Z.of_nat 3 - 1) with true. cbv iota.
  set (w2' := sleep EvBackoff (2 ^ Z.of_nat 1 * 1000) w2).
  assert (Hq2' : requests w2' = S (S (requests w))) by (simpl; congruence).
  assert (Hb2' : backoffs (trace w2') = backoffs (trace w) ++ [1000; 2000]).
  { subst w2'. simpl. rewrite backoffs_app, Hb2, Hb1', <- app_assoc. done. }
  assert (Hg2' : gets (trace w2') = gets (trace w) ++ [ep; ep]).
  { subst w2'. simpl. rewrite gets_app, Hg2, Hg1'. simpl.
    by rewrite app_nil_r, <- app_assoc. }
  destruct (pacedGet_step ep reply f w2') as (w3 & -> & Hq3 & Hb3 & Hg3).
  rewrite Hq2'.
  change (Z.of_nat 2 <? Z.of_nat 3 - 1) with false.
  destruct (reply (S (S (requests w)))) as [d|e2]; cbv iota; simpl.
  - exists w3. rewrite Hb3, Hg3, Hb2', Hg2', Hq3, Hq2', <- app_assoc.
    split; [done|]. split; [lia|done].
  - exists w3. rewrite Hb3, Hg3, Hb2', Hg2', Hq3, Hq2', <- app_assoc.
    split; [done|]. split; [lia|done].
Qed.

(** X13. Each fetcher ([searchPairs], [fetchTopBoosts],
    [fetchLatestProfiles], [fetchLatestBoosts], [fetchTokenPairs]) sends
    between one and three requests to its endpoint and returns what its
    closure makes of the first request whose closure does not throw: the
    array of the body, no entries when the body (or its member [pairs])
    is missing, and for [fetchLatestBoosts] the Base-chain entries of
    it.  A request counts as failed when it is rejected and when the
    closure throws on its body, as the [.filter] of [fetchLatestBoosts]
    does on a body that is no array; the fetcher waits 1000 ms after a
    first failure and 2000 ms after a second, and throws the third error
    when all three fail. *)
Theorem fetchers_return_first_fulfilled :
  forall (w : World),
    let outcome {A B} (run : M B) (ep : Endpoint) (reply : nat -> Reply A) (f : A -> B) :=
      exists w',
        run w = ((firstFulfilled reply f (requests w)).1, w') /\
        requests w' = (requests w + (firstFulfilled reply f (requests w)).2)%nat /\
        backoffs (trace w') = backoffs (trace w)
          ++ take (pred (firstFulfilled reply f (requests w)).2) [1000; 2000] /\
        gets (trace w') = gets (trace w)
          ++ replicate (firstFulfilled reply f (requests w)).2 ep in
    (forall query,
       outcome (searchPairs api query) (EpSearch query)
         (fun n => search api n query) (default [])) /\
    outcome (fetchTopBoosts api) EpTokenBoostsTop (tokenBoostsTop api) (default []) /\
    outcome (fetchLatestProfiles api) EpTokenProfilesLatest
      (tokenProfilesLatest api) (default []) /\
    outcome (fetchLatestBoosts api) EpTokenBoostsLatest (tokenBoostsLatest api)
      (fun data => List.filter (fun boost => isBase (TokenListing.chainId boost))
                     (default [] data)) /\
    (forall tokenAddress,
       outcome (fetchTokenPairs api tokenAddress) (EpTokenPairs tokenAddress)
         (fun n => tokenPairs api n tokenAddress) (default [])) /\
    (forall boosts w', fetchLatestBoosts api w = (Ok boosts, w') ->
       forall b, b ∈ boosts -> TokenListing.chainId b = "base"%string) /\
    (forall A B (reply : nat -> Reply A) (f : A -> B) n,
       (1 <= (firstFulfilled reply f n).2 <= 3)%nat) /\
    (forall e1 e2 e3,
       tokenBoostsLatest api (requests w) = Failed e1 ->
       tokenBoostsLatest api (S (requests w)) = Failed e2 ->
       tokenBoostsLatest api (S (S (requests w))) = Failed e3 ->
       exists w',
         fetchLatestBoosts api w = (Throw (ThrownError e3), w') /\
         requests w' = (requests w + 3)%nat /\
         backoffs (trace w') = backoffs (trace w) ++ [1000; 2000] /\
         gets (trace w') = gets (trace w)
           ++ [EpTokenBoostsLatest; EpTokenBoostsLatest; EpTokenBoostsLatest]) /\
    (forall data,
       tokenBoostsLatest api (requests w) = Fulfilled data ->
       exists w',
         fetchLatestBoosts api w
         = (Ok (List.filter (fun boost => bool_decide (TokenListing.chainId boost = "base"%string))
                  (match data with Some entries => entries | None => [] end)), w') /\
         requests w' = S (requests w) /\
         backoffs (trace w') = backoffs (trace w)).
Proof.
  intros w outcome. subst outcome. cbv beta.
  split; [intros query; apply fetcher_first_fulfilled|].
  split; [apply fetcher_first_fulfilled|].
  split; [apply fetcher_first_fulfilled|].
  split; [apply (fetcher_first_fulfilled EpTokenBoostsLatest (tokenBoostsLatest api))|].
  split; [intros tokenAddress; apply fetcher_first_fulfilled|].
  split.
  - intros boosts w' Hrun b Hb.
    destruct (fetcher_first_fulfilled EpTokenBoostsLatest (tokenBoostsLatest api)
                (fun data => List.filter (fun boost => isBase (TokenListing.chainId boost))
                               (default [] data)) w) as (w'' & Hf & _).
    change (fetcher api EpTokenBoostsLatest (tokenBoostsLatest api) _ w)
      with (fetchLatestBoosts api w) in Hf.
    rewrite Hrun in Hf. injection Hf as Hf _.
    assert (Hfiltered : exists data,
              boosts = List.filter (fun boost => isBase (TokenListing.chainId boost)) data).
    { unfold firstFulfilled in Hf.
      destruct (tokenBoostsLatest api (requests w)); simpl in Hf; [injection Hf as ->; eauto|].
      destruct (tokenBoostsLatest api (S (requests w))); simpl in Hf;
        [injection Hf as ->; eauto|].
      destruct (tokenBoostsLatest api (S (S (requests w)))); simpl in Hf;
        [injection Hf as ->; eauto|discriminate]. }
    destruct Hfiltered as (data & ->).
    apply filter_In_elem in Hb as [_ Hb]. by apply bool_decide_eq_true in Hb.
  - split.
    { intros A B reply f n. unfold firstFulfilled. repeat case_match; simpl; lia. }
    pose proof (fetcher_first_fulfilled EpTokenBoostsLatest (tokenBoostsLatest api)
                  (fun data => List.filter (fun boost => isBase (TokenListing.chainId boost))
                                 (default [] data)) w) as (w' & Hf & Hq & Hb & Hg).
    change (fetcher api EpTokenBoostsLatest (tokenBoostsLatest api) _ w)
      with (fetchLatestBoosts api w) in Hf.
    split.
    + intros e1 e2 e3 H1 H2 H3. exists w'.
      unfold firstFulfilled in Hf, Hq, Hb, Hg. rewrite H1, H2, H3 in Hf, Hq, Hb, Hg.
      cbn [fst snd] in Hf, Hq, Hb, Hg. by repeat split.
    + intros data H1. exists w'.
      unfold firstFulfilled in Hf, Hq, Hb, Hg. rewrite H1 in Hf, Hq, Hb, Hg.
      cbn [fst snd] in Hf, Hq, Hb, Hg. simpl in Hb. rewrite app_nil_r in Hb.
      split; [exact Hf|]. split; [lia|done].
Qed.

End ServiceMore.

(** X13 on an upstream whose latest-boosts endpoint answers every
    request with an object that is no array: the closure throws each
    time, and [fetchLatestBoosts] rejects after three requests. *)
Lemma fetchers_return_first_fulfilled_witness :
  exists w',
    DexScreenerService.fetchLatestBoosts Samples2.objectBoostsApi Samples.startWorld
    = (DexScreenerService.Throw (DexScreenerService.ThrownError Samples2.filterTypeError), w') /\
    DexScreenerService.requests w' = 3%nat /\
    Retry.backoffs (DexScreenerService.trace w') = [1000; 2000].
Proof.
  destruct (fetchers_return_first_fulfilled Samples2.objectBoostsApi Samples.startWorld)
    as (_ & _ & _ & _ & _ & _ & _ & H & _).
  destruct (H Samples2.filterTypeError Samples2.filterTypeError Samples2.filterTypeError
              eq_refl eq_refl eq_refl) as (w' & Hrun & Hq & Hb & _).
  exists w'. split; [exact Hrun|]. split; [exact Hq|exact Hb].
Defined.

(** ** Classifier: the survivors *)

Section FilterMore.

Import DexScreenerService Words.


Lemma isValidPair_inv filters now pair :
  isValidPair filters now pair = true ->
  exists token created,
    DexScreenerPair.baseToken pair = Some token /\
    DexScreenerPair.name token <> ""%string /\
    DexScreenerPair.symbol token <> ""%string /\
    (JS.toUpperCase (DexScreenerPair.symbol token) ∉ BLOCKED_SYMBOLS) /\
    existsb (fun pattern => pattern (DexScreenerPair.name token)) BLOCKED_NAME_PATTERNS = false /\
    DexScreenerPair.pairCreatedAt pair = Some created /\
    created <> 0 /\
    Config.minPairAgeMinutes filters * 60 * 1000 <= now - created /\
    now - created <= 7 * 24 * 60 * 60 * 1000.
Proof.
  unfold isValidPair. intros H.
  destruct (DexScreenerPair.baseToken pair) as [token|]; [|done].
  destruct (bool_decide (DexScreenerPair.name token = "") ||
            bool_decide (DexScreenerPair.symbol token = "")) eqn:E1; [done|].
  apply orb_false_iff in E1 as [En Es].
  apply bool_decide_eq_false in En, Es.
  destruct (bool_decide (_ ∈ BLOCKED_SYMBOLS)) eqn:E2; [done|].
  apply bool_decide_eq_false in E2.
  destruct (existsb _ BLOCKED_NAME_PATTERNS) eqn:E3; [done|].
  destruct (DexScreenerPair.pairCreatedAt pair) as [created|]; [|done].
  destruct (created =? 0) eqn:E4; [done|]. apply Z.eqb_neq in E4.
  destruct (now - created <? _) eqn:E5; [done|]. apply Z.ltb_ge in E5.
  destruct (_ <? now - created) eqn:E6; [done|]. apply Z.ltb_ge in E6.
  exists token, created. repeat split; done.
Qed.


Lemma afterPrefixCI_app w : forall rest,
  afterPrefixCI (JS.toLowerCase w) (w ++ rest) = Some rest.
Proof.
  induction w as [|c w IH]; intros rest; [done|]. simpl.
  rewrite bool_decide_eq_true_2 by done. apply IH.
Qed.

Lemma lastChar_cons a s : exists x, lastChar (String a s) = Some x.
Proof.
  revert a. induction s as [|b s IH]; intros a; [by exists a|].
  destruct (IH b) as (x & Hx). exists x. by rewrite <- Hx.
Qed.

Lemma searchWord_found matchHere pre : forall prev s,
  matchHere s = true ->
  match lastChar pre with
  | Some c => JS.isWord c = false
  | None => match prev with Some c => JS.isWord c = false | None => True end
  end ->
  searchWord matchHere prev (pre ++ s) = true.
Proof.
  induction pre as [|c pre IH]; intros prev s Hs Hb.
  - simpl in *.
    assert (Hat : wordAt matchHere prev s = true).
    { unfold wordAt. destruct prev; [rewrite Hb|]; by rewrite Hs. }
    destruct s; simpl; by rewrite Hat.
  - cbn [String.append searchWord]. apply orb_true_iff. right.
    apply IH; [done|]. destruct pre as [|a pre']; [exact Hb|].
    change (lastChar (String c (String a pre'))) with (lastChar (String a pre')) in Hb.
    destruct (lastChar_cons a pre') as (x & Hx). rewrite Hx in *. exact Hb.
Qed.

Lemma wrappedHere_word w post :
  JS.toLowerCase w = "wrapped"%string ->
  match post with String c _ => JS.isWord c = false | EmptyString => True end ->
  wrappedHere (w ++ post) = true.
Proof.
  intros Hw Hpost. unfold wrappedHere. rewrite <- Hw, afterPrefixCI_app.
  destruct post; simpl; [done|by rewrite Hpost].
Qed.

Lemma bridgedHere_word w post :
  JS.toLowerCase w = "bridge"%string \/ JS.toLowerCase w = "bridged"%string ->
  match post with String c _ => JS.isWord c = false | EmptyString => True end ->
  bridgedHere (w ++ post) = true.
Proof.
  intros [Hw|Hw] Hpost; unfold bridgedHere.
  - rewrite <- Hw, afterPrefixCI_app. destruct post; simpl; [done|by rewrite Hpost].
  - do 7 (destruct w as [|? w]; [done|]). destruct w; [|done].
    simpl in Hw. injection Hw as H1 H2 H3 H4 H5 H6 H7.
    simpl. rewrite H1, H2, H3, H4, H5, H6. simpl.
    rewrite H7. simpl.
    destruct post; simpl; rewrite ?Hpost; by rewrite ?orb_true_r.
Qed.

(** X15. The blocklists do not look at letter case: whatever its other
    fields, a pair is rejected when its symbol, upper-cased, is on the
    symbol blocklist, and when its name holds "wrapped", "bridge" or
    "bridged" as a whole word in any mix of upper and lower case. *)
Theorem filterValidPairs_blocklists_ignore_case :
  forall (filters : Config.Filters) (now : Z) (pairs : list DexScreenerPair.t)
         (pair : DexScreenerPair.t) (token : DexScreenerPair.BaseToken),
    DexScreenerPair.baseToken pair = Some token ->
    (JS.toUpperCase (DexScreenerPair.symbol token) ∈ BLOCKED_SYMBOLS ->
       pair ∉ filterValidPairs filters now pairs) /\
    (forall w, holdsWord (DexScreenerPair.name token) w ->
       JS.toLowerCase w = "wrapped"%string \/ JS.toLowerCase w = "bridge"%string \/
       JS.toLowerCase w = "bridged"%string ->
       pair ∉ filterValidPairs filters now pairs).
Proof.
  intros filters now pairs pair token Ht.
  assert (Hinv : pair ∈ filterValidPairs filters now pairs ->
            (JS.toUpperCase (DexScreenerPair.symbol token) ∉ BLOCKED_SYMBOLS) /\
            existsb (fun pattern => pattern (DexScreenerPair.name token))
              BLOCKED_NAME_PATTERNS = false).
  { intros Hp. apply filter_In_elem in Hp as [_ Hv].
    destruct (isValidPair_inv filters now pair Hv)
      as (token' & created & Ht' & _ & _ & Hb & Hpat & _).
    rewrite Ht in Ht'. injection Ht' as <-. done. }
  split.
  - intros Hb Hp. by apply Hinv in Hp as [Hnb _].
  - intros w (pre & post & Hname & Hpre & Hpost) Hw Hp.
    apply Hinv in Hp as [_ Hpat]. rewrite Hname in Hpat.
    cbn [existsb BLOCKED_NAME_PATTERNS] in Hpat.
    repeat (apply orb_false_iff in Hpat as [? Hpat]).
    destruct Hw as [Hw|Hw].
    + assert (searchWord wrappedHere None (pre ++ w ++ post) = true); [|congruence].
      apply searchWord_found; [by apply wrappedHere_word|].
      by destruct (lastChar pre).
    + assert (searchWord bridgedHere None (pre ++ w ++ post) = true); [|congruence].
      apply searchWord_found; [by apply bridgedHere_word|].
      by destruct (lastChar pre).
Qed.

(** X15 at a pair whose only fault is its symbol, written [wEth]. *)
Lemma filterValidPairs_blocklists_ignore_case_witness :
  Samples2.wethCandidate ∉
    filterValidPairs Samples.defaultFilters Samples.now [Samples2.wethCandidate].
Proof.
  destruct (filterValidPairs_blocklists_ignore_case Samples.defaultFilters Samples.now
              [Samples2.wethCandidate] Samples2.wethCandidate _ eq_refl) as [H _].
  apply H. apply (bool_decide_unpack _). by vm_compute.
Defined.

End FilterMore.

(** ** From candidates to stored launches *)

Section PipelineMore.

Import DexScreenerService Dedup Normalize TokenTracker StoreInv.

Variable parseFloat : string -> option Q.

Lemma pairToLaunch_valid filters now pair :
  isValidPair filters now pair = true ->
  exists l token created,
    pairToLaunch parseFloat now pair = Some l /\
    DexScreenerPair.baseToken pair = Some token /\
    DexScreenerPair.pairCreatedAt pair = Some created /\
    TokenLaunch.pairAddress l = poolKey pair /\
    TokenLaunch.tokenAddress l = JS.toLowerCase (DexScreenerPair.address token) /\
    TokenLaunch.name l = DexScreenerPair.name token /\
    TokenLaunch.symbol l = DexScreenerPair.symbol token /\
    TokenLaunch.pairCreatedAt l = Some created /\
    TokenLaunch.lastUpdated l = now /\
    TokenLaunch.liquidityUsd l = Some (effectiveLiquidity pair) /\
    TokenLaunch.volume24h l = Some (effectiveVolume pair) /\
    TokenLaunch.marketCap l = Some (effectiveMarketCap pair).
Proof.
  intros Hv.
  destruct (isValidPair_inv filters now pair Hv)
    as (token & created & Ht & _ & _ & _ & _ & Hc & Hnz & _).
  unfold pairToLaunch. rewrite Ht. eexists _, token, created.
  split; [reflexivity|]. simpl. unfold createdOrNow. rewrite Hc.
  apply Z.eqb_neq in Hnz. rewrite Hnz. repeat split; done.
Qed.

Lemma pairsToLaunches_valid filters now pairs :
  exists launches,
    pairsToLaunches parseFloat now (filterValidPairs filters now pairs) = Some launches /\
    Forall2 (fun pair l => pairToLaunch parseFloat now pair = Some l)
      (filterValidPairs filters now pairs) launches.
Proof.
  unfold pairsToLaunches.
  assert (Hs : is_Some (mapM (pairToLaunch parseFloat now) (filterValidPairs filters now pairs))).
  { apply mapM_is_Some, Forall_forall. intros p Hp.
    apply filter_In_elem in Hp as [_ Hv].
    destruct (pairToLaunch_valid filters now p Hv) as (l & _ & _ & Hl & _).
    unfold compose. rewrite Hl. by eexists. }
  destruct Hs as (launches & Hm). exists launches. split; [done|]. by apply mapM_Some.
Qed.

Lemma launches_keys filters now valid launches :
  Forall (fun p => isValidPair filters now p = true) valid ->
  Forall2 (fun pair l => pairToLaunch parseFloat now pair = Some l) valid launches ->
  TokenLaunch.pairAddress <$> launches = poolKey <$> valid.
Proof.
  intros Hv H. induction H as [|p l ps ls Hp _ IH]; [done|].
  apply Forall_cons in Hv as [Hvp Hv]. rewrite !fmap_cons, IH by done. f_equal.
  destruct (pairToLaunch_valid filters now p Hvp) as (l' & _ & _ & Hl' & _ & _ & Hk & _).
  rewrite Hp in Hl'. by injection Hl' as <-.
Qed.

(** X16. [pairToLaunch] never throws on a pair that [filterValidPairs]
    let through.  The launch it makes is keyed by the lower-cased pool
    address, carries the lower-cased token address, the name and symbol
    and the creation time of the pair, the instant of the call as
    lastUpdated, and liquidity, volume and market cap within the bounds
    of the filter; candidates with distinct lower-cased pool addresses
    give launches with distinct keys. *)
Theorem pairToLaunch_of_survivors :
  forall (filters : Config.Filters) (now : Z) (pairs : list DexScreenerPair.t),
    exists launches,
      pairsToLaunches parseFloat now (filterValidPairs filters now pairs) = Some launches /\
      TokenLaunch.pairAddress <$> launches = poolKey <$> filterValidPairs filters now pairs /\
      (NoDup (poolKey <$> pairs) -> NoDup (TokenLaunch.pairAddress <$> launches)) /\
      Forall2 (fun pair l =>
                 exists token created liquidity volume cap,
                   DexScreenerPair.baseToken pair = Some token /\
                   DexScreenerPair.pairCreatedAt pair = Some created /\
                   TokenLaunch.tokenAddress l = JS.toLowerCase (DexScreenerPair.address token) /\
                   TokenLaunch.name l = DexScreenerPair.name token /\
                   TokenLaunch.symbol l = DexScreenerPair.symbol token /\
                   TokenLaunch.pairCreatedAt l = Some created /\
                   TokenLaunch.lastUpdated l = now /\
                   TokenLaunch.liquidityUsd l = Some liquidity /\
                   (inject_Z (Config.minLiquidityUsd filters) <= liquidity)%Q /\
                   TokenLaunch.volume24h l = Some volume /\
                   (inject_Z (Config.minVolumeUsd filters) <= volume)%Q /\
                   TokenLaunch.marketCap l = Some cap /\
                   (cap <= 50000000)%Q)
        (filterValidPairs filters now pairs) launches.
Proof.
  intros filters now pairs.
  destruct (pairsToLaunches_valid filters now pairs) as (launches & Hm & Hf).
  assert (Hvalid : Forall (fun p => isValidPair filters now p = true)
                     (filterValidPairs filters now pairs)).
  { apply Forall_forall. intros p Hp. by apply filter_In_elem in Hp as [_ Hv]. }
  pose proof (launches_keys filters now _ _ Hvalid Hf) as Hkeys.
  exists launches. split; [done|]. split; [done|]. split.
  - intros Hnd. rewrite Hkeys. eapply sublist_NoDup; [exact Hnd|].
    apply fmap_sublist. apply filter_sublist_of.
  - clear Hm Hkeys. induction Hf as [|p l ps ls Hp _ IH]; [constructor|].
    apply Forall_cons in Hvalid as [Hvp Hvalid]. constructor; [|by apply IH].
    destruct (pairToLaunch_valid filters now p Hvp)
      as (l' & token & created & Hl' & Ht & Hc & _ & Hta & Hn & Hs & Hca & Hu & Hli & Hvo & Hmc).
    rewrite Hp in Hl'. injection Hl' as <-.
    destruct (isValidPair_thresholds filters now p Hvp) as (H1 & H2 & H3).
    exists token, created, (effectiveLiquidity p), (effectiveVolume p), (effectiveMarketCap p).
    repeat split; done.
Qed.

End PipelineMore.

(** ** One poll of the tracker *)

Section PollMore.

Import DexScreenerService Dedup Normalize TokenTracker StoreInv LaunchStore.

Variable api : Upstream.
Variable filters : Config.Filters.
Variable parseFloat : string -> option Q.

Lemma fetchBasePairs_distinct w :
  exists pairs w',
    fetchBasePairs api w = (Ok pairs, w') /\ NoDup (poolKey <$> pairs).
Proof.
  destruct (listingStrategy_feeds api (fetchLatestProfiles api) w) as (b1 & w1 & H1).
  destruct (listingStrategy_feeds api (fetchLatestBoosts api) w1) as (b2 & w2 & H2).
  destruct (listingStrategy_feeds api (fetchTopBoosts api) w2) as (b3 & w3 & H3).
  destruct (searchStrategy_feeds api SEARCH_TERMS w3) as (b4 & w' & H4).
  pose proof (fetchBasePairsWith_feeds api w b1 b2 b3 b4 w1 w2 w3 w' H1 H2 H3 H4) as Hfeeds.
  pose proof (addPair_invariant (concat (b1 ++ b2 ++ b3 ++ b4))) as Hinv.
  cbv zeta in Hinv. destruct Hinv as (_ & _ & Hnd & _).
  eexists _, w'. split; [|exact Hnd].
  unfold fetchBasePairs, mbind, M_bind. rewrite Hfeeds. by rewrite addPairs_concat.
Qed.

Lemma filter_none {A} (P : A -> Prop) `{forall x, Decision (P x)} (l : list A) :
  (forall y, y ∈ l -> ~ P y) -> filter P l = [].
Proof.
  induction l as [|x xs IH]; intros Hl; [done|].
  rewrite filter_cons_False by (apply Hl, list_elem_of_here).
  apply IH. intros y Hy. apply Hl. by apply list_elem_of_further.
Qed.

Lemma observations_single (items : list TokenLaunch.t) (l : TokenLaunch.t) :
  NoDup (TokenLaunch.pairAddress <$> items) -> l ∈ items ->
  observations (TokenLaunch.pairAddress l) items = [l].
Proof.
  unfold observations. induction items as [|x xs IH]; intros Hnd Hin.
  - by apply elem_of_nil in Hin.
  - rewrite fmap_cons in Hnd. apply NoDup_cons in Hnd as [Hx Hnd].
    apply elem_of_cons in Hin as [->|Hin].
    + rewrite filter_cons_True by done. f_equal.
      apply filter_none. intros y Hy Heq.
      apply Hx. rewrite <- Heq. by apply list_elem_of_fmap_2.
    + rewrite filter_cons_False; [by apply IH|].
      intros Heq. apply Hx. rewrite Heq. by apply list_elem_of_fmap_2.
Qed.

Lemma observations_none (items : list TokenLaunch.t) (k : string) :
  k ∉ TokenLaunch.pairAddress <$> items -> observations k items = [].
Proof.
  intros Hk. unfold observations. apply filter_none.
  intros y Hy Heq. apply Hk. rewrite <- Heq. by apply list_elem_of_fmap_2.
Qed.

Lemma cutoff48_lt (now c : Z) :
  (inject_Z c < inject_Z now - 48 * 60 * 60 * 1000)%Q <-> 48 * 60 * 60 * 1000 < now - c.
Proof.
  unfold Qlt, Qminus, Qplus, Qopp, Qmult, inject_Z. simpl. lia.
Qed.

Lemma Forall2_elem_l {A B} (R : A -> B -> Prop) xs ys x :
  Forall2 R xs ys -> x ∈ xs -> exists y, y ∈ ys /\ R x y.
Proof.
  intros H Hx. apply list_elem_of_lookup in Hx as (i & Hi).
  destruct (Forall2_lookup_l R xs ys i x H Hi) as (y & Hy & HR).
  exists y. split; [|done]. by eapply list_elem_of_lookup_2.
Qed.

(** X17. One poll of the tracker ends with the clock where the fetch
    left it, never touches the alerts, and keeps every row under its own
    pool address.  After it no stored row has a creation time more than
    48 hours before the poll's reading of the clock: a survivor of the
    filter whose pool was not yet stored is stored as [pairToLaunch]
    makes it when it is at most 48 hours old, and is not stored at all
    when it is older, although the filter admits pairs up to seven days
    old.  The rows of pools that are not among the survivors stay as
    they were unless they are older than 48 hours. *)
Theorem poll_keeps_only_the_last_48_hours :
  forall (w : World) (store : LaunchStore.t),
    exists (pairs : list DexScreenerPair.t) (w' : World),
      fetchBasePairs api w = (Ok pairs, w') /\
      (poll api filters parseFloat (w, store)).1 = w' /\
      alerts (poll api filters parseFloat (w, store)).2 = alerts store /\
      alertSeq (poll api filters parseFloat (w, store)).2 = alertSeq store /\
      (keyed store -> keyed (poll api filters parseFloat (w, store)).2) /\
      (forall k l c,
         launches (poll api filters parseFloat (w, store)).2 !! k = Some l ->
         TokenLaunch.pairCreatedAt l = Some c ->
         clock w' - c <= 48 * 60 * 60 * 1000) /\
      (forall p c,
         p ∈ filterValidPairs filters (clock w') pairs ->
         launches store !! poolKey p = None ->
         DexScreenerPair.pairCreatedAt p = Some c ->
         (clock w' - c <= 48 * 60 * 60 * 1000 ->
          launches (poll api filters parseFloat (w, store)).2 !! poolKey p
          = pairToLaunch parseFloat (clock w') p) /\
         (48 * 60 * 60 * 1000 < clock w' - c ->
          launches (poll api filters parseFloat (w, store)).2 !! poolKey p = None)) /\
      (forall k l,
         k ∉ poolKey <$> filterValidPairs filters (clock w') pairs ->
         (launches (poll api filters parseFloat (w, store)).2 !! k = Some l <->
          launches store !! k = Some l /\
          ~ exists c, TokenLaunch.pairCreatedAt l = Some c /\
                      48 * 60 * 60 * 1000 < clock w' - c)).
Proof.
  intros w store.
  destruct (fetchBasePairs_distinct w) as (pairs & w' & Hfetch & Hnd).
  exists pairs, w'. split; [done|].
  destruct (pairsToLaunches_valid parseFloat filters (clock w') pairs) as (items & Hm & Hf).
  assert (Hvalid : Forall (fun p => isValidPair filters (clock w') p = true)
                     (filterValidPairs filters (clock w') pairs)).
  { apply Forall_forall. intros p Hp. by apply filter_In_elem in Hp as [_ Hv]. }
  pose proof (launches_keys parseFloat filters (clock w') _ _ Hvalid Hf) as Hkeys.
  assert (Hndi : NoDup (TokenLaunch.pairAddress <$> items)).
  { rewrite Hkeys. eapply sublist_NoDup; [exact Hnd|].
    apply fmap_sublist. apply filter_sublist_of. }
  assert (Hpoll : poll api filters parseFloat (w, store)
                  = (w', (pruneOldLaunches 48 (clock w') (upsertLaunches items store)).2)).
  { unfold poll. rewrite Hfetch. cbv zeta. by rewrite Hm. }
  rewrite Hpoll. cbn [fst snd].
  assert (Hrow : forall k l,
            launches (pruneOldLaunches 48 (clock w') (upsertLaunches items store)).2 !! k
            = Some l <->
            launches (upsertLaunches items store) !! k = Some l /\
            ~ exists c, TokenLaunch.pairCreatedAt l = Some c /\
                        48 * 60 * 60 * 1000 < clock w' - c).
  { intros k l. rewrite pruneOldLaunches_lookup.
    split; intros [H1 H2]; (split; [done|]); intros (c & Hc & Hlt); apply H2;
      exists c; (split; [done|]); by apply cutoff48_lt. }
  destruct (upsertLaunches_alerts items store) as (Ha & Hs).
  split; [done|]. split; [done|]. split; [done|]. split; [|split; [|split]].
  - intros Hk k l Hl. apply Hrow in Hl as [Hl _].
    by apply (keyed_upsertLaunches items store Hk).
  - intros k l c Hl Hc. apply Hrow in Hl as [_ Hfresh].
    destruct (Z_le_gt_dec (clock w' - c) (48 * 60 * 60 * 1000)) as [|Hgt]; [done|].
    exfalso. apply Hfresh. exists c. split; [done|lia].
  - intros p c Hp Hnew Hc.
    destruct (Forall2_elem_l _ _ _ p Hf Hp) as (l & Hl & Hpl).
    pose proof Hp as Hv. apply filter_In_elem in Hv as [_ Hv].
    destruct (pairToLaunch_valid parseFloat filters (clock w') p Hv)
      as (l' & token & created & Hl' & _ & Hc' & Hk & _ & _ & _ & Hlc & _).
    rewrite Hpl in Hl'. injection Hl' as <-.
    rewrite Hc in Hc'. injection Hc' as <-.
    assert (Hstored : launches (upsertLaunches items store) !! poolKey p = Some l).
    { rewrite upsertLaunches_lookup, <- Hk, (observations_single items l Hndi Hl).
      rewrite Hk, Hnew. simpl. by rewrite onConflict_same. }
    split.
    + intros Hage. rewrite Hpl. apply Hrow. split; [done|].
      intros (c' & Hc' & Hlt). rewrite Hlc in Hc'. injection Hc' as <-. lia.
    + intros Hage.
      destruct (launches (pruneOldLaunches 48 (clock w') (upsertLaunches items store)).2
                  !! poolKey p) as [r|] eqn:Hr; [|done].
      exfalso. apply Hrow in Hr as [Hr Hfresh]. rewrite Hstored in Hr. injection Hr as <-.
      apply Hfresh. by exists c.
  - intros k l Hk. rewrite Hrow, upsertLaunches_lookup.
    rewrite observations_none by (by rewrite Hkeys). done.
Qed.

End PollMore.

(** X17 on an upstream whose search finds a pool created three days
    ago: the filter lets it through and the poll does not store it. *)
Lemma poll_keeps_only_the_last_48_hours_witness :
  Samples2.threeDaysOld ∈
    DexScreenerService.filterValidPairs Samples.defaultFilters (Samples.now + 14100)
      [Samples2.threeDaysOld; Samples.goodCandidate] /\
  LaunchStore.launches
    (TokenTracker.poll Samples2.agedApi Samples.defaultFilters Samples2.sampleParseFloat
       (Samples.startWorld, Samples.emptyStore)).2 !! "0xpool3d"%string = None.
Proof.
  split; [vm_compute; apply list_elem_of_here|].
  destruct (poll_keeps_only_the_last_48_hours Samples2.agedApi Samples.defaultFilters
              Samples2.sampleParseFloat Samples.startWorld Samples.emptyStore)
    as (pairs & w' & Hfetch & _ & _ & _ & _ & _ & Hnew & _).
  assert (Hpairs : [Samples2.threeDaysOld; Samples.goodCandidate] = pairs).
  { apply (f_equal fst) in Hfetch. vm_compute in Hfetch. by injection Hfetch. }
  assert (Hclock : Samples.now + 14100 = DexScreenerService.clock w').
  { apply (f_equal (fun r => DexScreenerService.clock r.2)) in Hfetch.
    vm_compute in Hfetch. exact Hfetch. }
  rewrite <- Hpairs, <- Hclock in Hnew.
  apply (Hnew Samples2.threeDaysOld (Samples.now + 3600 - Samples.hours 72)).
  - vm_compute. apply list_elem_of_here.
  - reflexivity.
  - reflexivity.
  - vm_compute. reflexivity.
Defined.

(** ** Starting and stopping the two schedules *)

Section TimerFacts.

Import DexScreenerService TokenTracker.

Lemma clear_after_set (ts : Timers.t) :
  Timers.handlesIssued ts ->
  Timers.live (Timers.clearInterval (Timers.setInterval ts).1 (Timers.setInterval ts).2)
  = Timers.live ts.
Proof.
  intros Hi. simpl. apply set_eq. intros h.
  rewrite elem_of_difference, elem_of_union, !elem_of_singleton. split.
  - intros [[->|H] Hne]; done.
  - intros H. split; [by right|]. intros ->. apply Hi in H. lia.
Qed.

Lemma startPolling_running api filters parseFloat tracker timers state :
  isPolling tracker = true ->
  startPolling api filters parseFloat (tracker, timers, state) = (tracker, timers, state).
Proof. intros Hp. unfold startPolling. by rewrite Hp. Qed.

Lemma startPolling_stopped api filters parseFloat tracker timers state :
  isPolling tracker = false ->
  startPolling api filters parseFloat (tracker, timers, state)
  = ({| pollInterval := Some (Timers.nextHandle timers); isPolling := true |},
     {| Timers.live := {[Timers.nextHandle timers]} ∪ Timers.live timers;
        Timers.nextHandle := S (Timers.nextHandle timers) |},
     poll api filters parseFloat state).
Proof. intros Hp. unfold startPolling. by rewrite Hp. Qed.

(** X18. [startPolling] is guarded by [isPolling]: after one call the
    tracker is polling, and a further call changes nothing, neither
    fetches nor sets a second timer.  From a stopped tracker, a start
    polls once and sets one timer, and the [stopPolling] that follows
    clears that timer: the live timers are those from before the start. *)
Theorem startPolling_is_guarded :
  forall (api : Upstream) (filters : Config.Filters) (parseFloat : string -> option Q)
         (tracker : TokenTracker.t) (timers : Timers.t) (state : World * LaunchStore.t),
    isPolling (startPolling api filters parseFloat (tracker, timers, state)).1.1 = true /\
    startPolling api filters parseFloat
      (startPolling api filters parseFloat (tracker, timers, state))
    = startPolling api filters parseFloat (tracker, timers, state) /\
    (isPolling tracker = false ->
       (startPolling api filters parseFloat (tracker, timers, state)).2
       = poll api filters parseFloat state /\
       Timers.live (startPolling api filters parseFloat (tracker, timers, state)).1.2
       = {[Timers.nextHandle timers]} ∪ Timers.live timers /\
       (Timers.handlesIssued timers ->
          stopPolling (startPolling api filters parseFloat (tracker, timers, state))
          = ({| pollInterval := None; isPolling := false |},
             {| Timers.live := Timers.live timers;
                Timers.nextHandle := S (Timers.nextHandle timers) |},
             poll api filters parseFloat state))).
Proof.
  intros api filters parseFloat tracker timers state.
  destruct (isPolling tracker) eqn:Hp.
  - rewrite (startPolling_running api filters parseFloat tracker timers state Hp).
    rewrite (startPolling_running api filters parseFloat tracker timers state Hp).
    done.
  - rewrite (startPolling_stopped api filters parseFloat tracker timers state Hp).
    split; [done|]. split; [by apply startPolling_running|].
    intros _. split; [done|]. split; [done|].
    intros Hi. unfold stopPolling. cbn [pollInterval]. f_equal. f_equal.
    pose proof (clear_after_set timers Hi) as Hlive. simpl in Hlive.
    unfold Timers.clearInterval. cbn [Timers.live Timers.nextHandle]. by rewrite Hlive.
Qed.

(** X19. [startChecking] has no such guard: every call sets a new timer
    and overwrites the field [checkInterval].  After two starts the
    timers of both are live; [stopChecking] clears the second only, the
    first stays live, and no further [stopChecking] clears it. *)
Theorem startChecking_is_not_guarded :
  forall (checkInterval : option nat) (timers : Timers.t),
    let started := Timers.startChecking (Timers.startChecking (checkInterval, timers)) in
    started.1 = Some (S (Timers.nextHandle timers)) /\
    Timers.nextHandle timers ∈ Timers.live started.2 /\
    S (Timers.nextHandle timers) ∈ Timers.live started.2 /\
    (Timers.stopChecking started).1 = None /\
    Timers.nextHandle timers ∈ Timers.live (Timers.stopChecking started).2 /\
    (S (Timers.nextHandle timers) ∉ Timers.live (Timers.stopChecking started).2) /\
    Timers.stopChecking (Timers.stopChecking started) = Timers.stopChecking started.
Proof.
  intros checkInterval timers. cbv zeta.
  unfold Timers.startChecking, Timers.stopChecking, Timers.setInterval, Timers.clearInterval.
  cbn [fst snd Timers.live Timers.nextHandle].
  rewrite !elem_of_difference, !elem_of_union, !elem_of_singleton.
  split; [done|]. split; [by right; left|]. split; [by left|]. split; [done|].
  split; [split; [by right; left|lia]|]. split; [|done].
  intros [_ H]. by apply H.
Qed.

End TimerFacts.

(** X18 from a stopped tracker with no timer set. *)
Lemma startPolling_is_guarded_witness :
  Timers.live
    (TokenTracker.stopPolling
       (TokenTracker.startPolling Samples2.agedApi Samples.defaultFilters
          Samples2.sampleParseFloat
          ({| TokenTracker.pollInterval := None; TokenTracker.isPolling := false |},
           {| Timers.live := ∅; Timers.nextHandle := 0 |},
           (Samples.startWorld, Samples.emptyStore)))).1.2 = ∅.
Proof.
  assert (Hi : Timers.handlesIssued {| Timers.live := ∅; Timers.nextHandle := 0 |}).
  { intros h Hh. cbn [Timers.live] in Hh. apply elem_of_empty in Hh. destruct Hh. }
  destruct (startPolling_is_guarded Samples2.agedApi Samples.defaultFilters
              Samples2.sampleParseFloat
              {| TokenTracker.pollInterval := None; TokenTracker.isPolling := false |}
              {| Timers.live := ∅; Timers.nextHandle := 0 |}
              (Samples.startWorld, Samples.emptyStore)) as (_ & _ & H).
  destruct (H eq_refl) as (_ & _ & Hstop).
  rewrite (Hstop Hi). reflexivity.
Defined.

(** ** The alert command and the store *)

Section CommandMore.

Import LaunchStore StoreInv AlertCommand AlertChecker.

Lemma alertIdsFresh_createAlert userId tokenAddress conditionType operator threshold now db :
  alertIdsFresh db ->
  alertIdsFresh (LaunchStore.createAlert userId tokenAddress conditionType operator
                   threshold now db).2.
Proof.
  intros [Hnd Hle]. split.
  - simpl. rewrite fmap_app. apply NoDup_app. split; [done|]. split; [|apply NoDup_singleton].
    intros i Hi Hnew. apply list_elem_of_singleton in Hnew.
    apply list_elem_of_fmap in Hi as (a & -> & Ha). apply Hle in Ha. simpl in Hnew. lia.
  - intros a. simpl. rewrite elem_of_app, list_elem_of_singleton.
    intros [Ha| ->]; [apply Hle in Ha; lia|simpl; lia].
Qed.

Lemma alertIdsFresh_deleteAlert alertId userId db :
  alertIdsFresh db -> alertIdsFresh (LaunchStore.deleteAlert alertId userId db).2.
Proof.
  intros [Hnd Hle]. split.
  - eapply sublist_NoDup; [exact Hnd|]. simpl. apply fmap_filter_sublist.
  - intros a Ha. simpl in Ha. apply filter_In_elem in Ha as [Ha _]. by apply Hle.
Qed.

Lemma deleteAlert_elem alertId userId db a :
  a ∈ alerts (LaunchStore.deleteAlert alertId userId db).2 <->
  a ∈ alerts db /\ ~ (Alert.id a = alertId /\ Alert.userId a = userId).
Proof.
  simpl. rewrite filter_In_elem, negb_true_iff, andb_false_iff, !bool_decide_eq_false.
  destruct (decide (Alert.id a = alertId)); tauto.
Qed.

Lemma deleteAlert_hit alertId userId db :
  (LaunchStore.deleteAlert alertId userId db).1 = true ->
  exists a, a ∈ alerts db /\ Alert.id a = alertId /\ Alert.userId a = userId.
Proof.
  simpl. rewrite existsb_exists. intros (a & Ha & Hd).
  apply andb_true_iff in Hd as [H1 H2]. apply bool_decide_eq_true in H1, H2.
  exists a. by rewrite list_elem_of_In.
Qed.

Lemma deleteAlert_miss alertId userId db :
  (LaunchStore.deleteAlert alertId userId db).1 = false ->
  (LaunchStore.deleteAlert alertId userId db).2 = db.
Proof.
  intros Hnone. destruct db as [ls al sq]. unfold LaunchStore.deleteAlert in *.
  cbn [fst snd launches alerts alertSeq] in *. f_equal.
  by apply (existsb_false_filter
              (fun a => bool_decide (Alert.id a = alertId)
                        && bool_decide (Alert.userId a = userId))).
Qed.

(** X20. A run of [!alert] never touches the launches and never adds,
    changes or removes an alert of another user.  It changes the store in
    two cases only.  When it answers that the alert was created, the
    first argument is a valid address, the other arguments joined parse
    as a condition, and one untriggered alert of the author for the
    lower-cased address is appended under the next id.  When it answers
    that alert [n] was deleted, the author owned an alert [n], and the
    alerts left are those that are not the author's alert [n].  With any
    other answer the store is as before. *)
Theorem handleAlert_changes_only_the_authors_alerts :
  forall (author : string) (args : list string) (now : Z) (store : LaunchStore.t),
    launches (handleAlert author args now store).2 = launches store /\
    (forall a, Alert.userId a <> author ->
       (a ∈ alerts (handleAlert author args now store).2 <-> a ∈ alerts store)) /\
    (alertIdsFresh store -> alertIdsFresh (handleAlert author args now store).2) /\
    match (handleAlert author args now store).1 with
    | AlertCreated alertId =>
        exists arg0 rest c,
          args = arg0 :: rest /\ rest <> [] /\
          isValidAddress arg0 = true /\
          parseCondition (String.concat "" rest) = Some c /\
          alertId = alertSeq store + 1 /\
          alerts (handleAlert author args now store).2
          = alerts store ++
              [ {| Alert.id := alertId; Alert.userId := author;
                   Alert.tokenAddress := JS.toLowerCase arg0;
                   Alert.conditionType := type c; Alert.operator := operator c;
                   Alert.threshold := threshold c; Alert.triggered := false;
                   Alert.createdAt := now |} ]
    | Deleted alertId =>
        (exists a, a ∈ alerts store /\ Alert.id a = alertId /\ Alert.userId a = author) /\
        (forall a, a ∈ alerts (handleAlert author args now store).2 <->
                   a ∈ alerts store /\ ~ (Alert.id a = alertId /\ Alert.userId a = author))
    | _ => (handleAlert author args now store).2 = store
    end.
Proof.
  intros author args now store.
  assert (Hsame : forall r : Response,
            match r with AlertCreated _ | Deleted _ => False | _ => True end ->
            launches (r, store).2 = launches store /\
            (forall a, Alert.userId a <> author -> (a ∈ alerts (r, store).2 <-> a ∈ alerts store)) /\
            (alertIdsFresh store -> alertIdsFresh (r, store).2) /\
            match (r, store).1 with
            | AlertCreated _ | Deleted _ => False
            | _ => (r, store).2 = store
            end).
  { intros r Hr. cbn [fst snd]. split; [done|]. split; [done|]. split; [done|].
    by destruct r. }
  unfold handleAlert.
  destruct args as [|arg0 rest].
  { destruct (Hsame ShowAlerts I) as (H1 & H2 & H3 & H4). done. }
  destruct (bool_decide (JS.toLowerCase arg0 = "list"%string)).
  { destruct (Hsame ShowAlerts I) as (H1 & H2 & H3 & H4). done. }
  destruct (_ || _).
  - destruct rest as [|arg1 rest'].
    { destruct (Hsame DeleteUsage I) as (H1 & H2 & H3 & H4). done. }
    unfold AlertCommand.deleteAlert.
    destruct (parseInt arg1) as [alertId|].
    2:{ destruct (Hsame InvalidAlertId I) as (H1 & H2 & H3 & H4). done. }
    pose proof (deleteAlert_elem alertId author store) as Helem.
    pose proof (deleteAlert_hit alertId author store) as Hhit.
    pose proof (deleteAlert_miss alertId author store) as Hmiss.
    pose proof (alertIdsFresh_deleteAlert alertId author store) as Hfresh.
    destruct (LaunchStore.deleteAlert alertId author store) as [deleted store'] eqn:Hd.
    cbn [fst snd] in *.
    split; [by injection Hd as _ <-|]. split.
    { intros a Hne. rewrite Helem. split; [tauto|]. intros Ha. split; [done|]. tauto. }
    split; [done|].
    destruct deleted; cbn [fst snd].
    + split; [by apply Hhit|exact Helem].
    + by apply Hmiss.
  - destruct rest as [|arg1 rest'].
    { destruct (Hsame AlertHelp I) as (H1 & H2 & H3 & H4). done. }
    unfold AlertCommand.createAlert.
    destruct (isValidAddress arg0) eqn:Hvalid; cbn [negb].
    2:{ destruct (Hsame InvalidAddress I) as (H1 & H2 & H3 & H4). done. }
    destruct (parseCondition (String.concat "" (arg1 :: rest'))) as [c|] eqn:Hc.
    2:{ destruct (Hsame AlertHelp I) as (H1 & H2 & H3 & H4). done. }
    pose proof (alertIdsFresh_createAlert author arg0 (type c) (operator c) (threshold c)
                  now store) as Hfresh.
    unfold LaunchStore.createAlert in *. cbn [fst snd] in *.
    split; [done|]. split.
    { intros a Hne. cbn [alerts]. rewrite elem_of_app, list_elem_of_singleton.
      split; [|by left]. intros [Ha| ->]; [done|]. by destruct Hne. }
    split; [done|].
    exists arg0, (arg1 :: rest'), c. by repeat split.
Qed.

(** X21. The inclusive operators are accepted and act as the strict
    ones: an alert that [!alert] created never holds on a launch whose
    observed value equals its threshold, whether the author wrote [>],
    [>=], [<] or [<=]. *)
Theorem command_alerts_are_strict :
  forall (author : string) (args : list string) (now : Z) (store : LaunchStore.t)
         (alertId : Z),
    (handleAlert author args now store).1 = AlertCreated alertId ->
    exists alert,
      alerts (handleAlert author args now store).2 = alerts store ++ [alert] /\
      Alert.id alert = alertId /\
      Alert.triggered alert = false /\
      forall launch,
        (JS.toNumber (currentValue alert launch) == Alert.threshold alert)%Q ->
        evaluateAlert alert launch = false.
Proof.
  intros author args now store alertId. unfold handleAlert.
  destruct args as [|arg0 rest]; [done|].
  destruct (bool_decide (JS.toLowerCase arg0 = "list"%string)); [done|].
  destruct (_ || _).
  - destruct rest as [|arg1 rest']; [done|].
    unfold AlertCommand.deleteAlert. destruct (parseInt arg1) as [n|]; [|done].
    destruct (LaunchStore.deleteAlert n author store) as [[] store']; done.
  - destruct rest as [|arg1 rest']; [done|].
    unfold AlertCommand.createAlert.
    destruct (isValidAddress arg0); cbn [negb]; [|done].
    destruct (parseCondition (String.concat "" (arg1 :: rest'))) as [c|] eqn:Hc; [|done].
    unfold LaunchStore.createAlert. cbn [fst snd alerts]. intros [= <-].
    eexists. split; [reflexivity|]. split; [done|]. split; [done|].
    intros launch Heq. unfold evaluateAlert. cbn [Alert.operator Alert.threshold] in *.
    destruct (parseCondition_accepts _ _ Hc) as [[Hop|Hop] _]; rewrite Hop.
    + apply Qltb_ge. rewrite Heq. apply Qle_refl.
    + apply Qltb_ge. rewrite Heq. apply Qle_refl.
Qed.

End CommandMore.

(** X21 at [!alert 0x1234...ef12 price >= 5] and a launch priced 5. *)
Lemma command_alerts_are_strict_witness :
  exists alert,
    LaunchStore.alerts
      (AlertCommand.handleAlert "u1"
         ["0x1234567890abcdef1234567890abcdef1234ef12"; "price"; ">="; "5"]%string
         Samples.now Samples.emptyStore).2 = [alert] /\
    Alert.operator alert = OpGt /\
    AlertChecker.evaluateAlert alert (Samples.launch "0xpool1" "0xtoken1" 5 1 1 1 1 0 0) = false.
Proof.
  destruct (command_alerts_are_strict "u1"
              ["0x1234567890abcdef1234567890abcdef1234ef12"; "price"; ">="; "5"]%string
              Samples.now Samples.emptyStore 1) as (alert & Hs & Hid & Ht & Hstrict).
  { vm_compute. reflexivity. }
  exists alert. split; [exact Hs|]. split.
  - assert (H : Alert.operator <$> LaunchStore.alerts
                  (AlertCommand.handleAlert "u1"
                     ["0x1234567890abcdef1234567890abcdef1234ef12"; "price"; ">="; "5"]%string
                     Samples.now Samples.emptyStore).2 = [OpGt]) by (vm_compute; reflexivity).
    rewrite Hs in H. by injection H.
  - apply Hstrict.
    assert (H : (fun a => JS.toNumber (AlertChecker.currentValue a
                    (Samples.launch "0xpool1" "0xtoken1" 5 1 1 1 1 0 0))
                    - Alert.threshold a)%Q <$> LaunchStore.alerts
                  (AlertCommand.handleAlert "u1"
                     ["0x1234567890abcdef1234567890abcdef1234ef12"; "price"; ">="; "5"]%string
                     Samples.now Samples.emptyStore).2 = [0%Q]) by (vm_compute; reflexivity).
    rewrite Hs in H. injection H as H.
    cbv beta in H. pose proof (Qeq_refl 0) as Hz. rewrite <- H in Hz at 1.
    apply Qplus_inj_r with (z := (- Alert.threshold alert)%Q).
    rewrite Qplus_opp_r. exact Hz.
Defined.

(** ** The launches command *)

Section LaunchesMore.

Import LaunchStore LaunchesCommand.

Lemma lowerAscii_idem c : JS.lowerAscii (JS.lowerAscii c) = JS.lowerAscii c.
Proof. destruct c as [[] [] [] [] [] [] [] []]; reflexivity. Qed.

Lemma toLowerCase_idem s : JS.toLowerCase (JS.toLowerCase s) = JS.toLowerCase s.
Proof. induction s as [|c s IH]; [done|]. simpl. by rewrite lowerAscii_idem, IH. Qed.











Lemma getLaunches_elem timeframeHours sortBy limit now db l :
  l ∈ getLaunches timeframeHours sortBy limit now db ->
  exists k c,
    launches db !! k = Some l /\ TokenLaunch.pairCreatedAt l = Some c /\
    (inject_Z now - timeframeHours * 60 * 60 * 1000 <= inject_Z c)%Q.
Proof.
  unfold getLaunches. intros Hl.
  destruct (sqlLimit_split limit
              (orderBy (sortKey sortBy)
                 (filter (fun l => createdSince
                            (inject_Z now - timeframeHours * 60 * 60 * 1000) l = true)
                    (rows db)))) as (rest & Heq & _).
  assert (Hin : l ∈ orderBy (sortKey sortBy)
                  (filter (fun l => createdSince
                             (inject_Z now - timeframeHours * 60 * 60 * 1000) l = true)
                     (rows db))).
  { rewrite Heq. apply elem_of_app. by left. }
  rewrite orderBy_perm in Hin. apply list_elem_of_filter in Hin as [Hc Hrow].
  apply elem_of_rows in Hrow as (k & Hk). apply createdSince_spec in Hc as (c & Hc & Hle).
  by exists k, c.
Qed.

Lemma getLaunches_length timeframeHours sortBy limit now db :
  0 <= limit ->
  (length (getLaunches timeframeHours sortBy limit now db) <= Z.to_nat limit)%nat.
Proof.
  intros Hl. unfold getLaunches.
  destruct (sqlLimit_split limit
              (orderBy (sortKey sortBy)
                 (filter (fun l => createdSince
                            (inject_Z now - timeframeHours * 60 * 60 * 1000) l = true)
                    (rows db)))) as (rest & _ & Hlen & _).
  rewrite (Hlen Hl). apply Nat.le_min_l.
Qed.

Lemma StronglySorted_weaken {A} (R1 R2 : relation A) (l : list A) :
  (forall x y, R1 x y -> R2 x y) -> StronglySorted R1 l -> StronglySorted R2 l.
Proof.
  intros HR Hs. induction Hs as [|x l _ IH Hall]; constructor; [done|].
  eapply Forall_impl; [exact Hall|]. intros y. apply HR.
Qed.

Lemma getLaunches_sorted timeframeHours sortBy limit now db :
  StronglySorted (orderedBy (sortKey sortBy))
    (getLaunches timeframeHours sortBy limit now db).
Proof.
  unfold getLaunches.
  set (matching := filter (fun l => createdSince
                             (inject_Z now - timeframeHours * 60 * 60 * 1000) l = true)
                     (rows db)).
  destruct (sqlLimit_split limit (orderBy (sortKey sortBy) matching)) as (rest & Heq & _).
  pose proof (orderBy_sorted (sortKey sortBy) matching) as Hs.
  rewrite Heq in Hs. by apply StronglySorted_app_1_l in Hs.
Qed.

Lemma sortOf_cases (sortArg : option string) :
  (sortOf sortArg = SortMcap <->
     exists word, sortArg = Some word /\
       (JS.toLowerCase word = "mcap"%string \/ JS.toLowerCase word = "marketcap"%string)) /\
  (sortOf sortArg = SortAge <->
     exists word, sortArg = Some word /\ JS.toLowerCase word = "age"%string) /\
  (sortOf sortArg = SortVolume <->
     forall word, sortArg = Some word ->
       JS.toLowerCase word <> "mcap"%string /\ JS.toLowerCase word <> "marketcap"%string /\
       JS.toLowerCase word <> "age"%string).
Proof.
  unfold sortOf. destruct sortArg as [arg|].
  2:{ split; [|split]; split; try done; by intros (? & ? & _). }
  destruct (decide (JS.toLowerCase arg = "mcap"%string)) as [Em|Em].
  { rewrite (bool_decide_eq_true_2 _ Em). cbn [orb]. split; [|split]; split; try done.
    - intros _. exists arg. auto.
    - intros (word & [= <-] & Hw). rewrite Em in Hw. discriminate Hw.
    - intros H. by destruct (H arg eq_refl) as (H1 & _). }
  rewrite (bool_decide_eq_false_2 _ Em). cbn [orb].
  destruct (decide (JS.toLowerCase arg = "marketcap"%string)) as [Ec|Ec].
  { rewrite (bool_decide_eq_true_2 _ Ec). split; [|split]; split; try done.
    - intros _. exists arg. auto.
    - intros (word & [= <-] & Hw). rewrite Ec in Hw. discriminate Hw.
    - intros H. by destruct (H arg eq_refl) as (_ & H2 & _). }
  rewrite (bool_decide_eq_false_2 _ Ec).
  destruct (decide (JS.toLowerCase arg = "age"%string)) as [Ea|Ea].
  { rewrite (bool_decide_eq_true_2 _ Ea). split; [|split]; split; try done.
    - intros (word & [= <-] & [Hw|Hw]); done.
    - intros _. by exists arg.
    - intros H. by destruct (H arg eq_refl) as (_ & _ & H3). }
  rewrite (bool_decide_eq_false_2 _ Ea). split; [|split]; split; try done.
  - intros (word & [= <-] & [Hw|Hw]); done.
  - intros (word & [= <-] & Hw). done.
  - intros _ word [= <-]. done.
Qed.

(** X23. When [!launches] answers with a listing, its first argument
    parsed as a timeframe of more than 0 and at most 168 hours.  The
    sort order is by market cap when the second argument is, in any
    letter case, mcap or marketcap, by creation time when it is age, and
    by 24h volume when there is no second argument or it is another
    word.  The rows are those of [getLaunches] with limit 15: at most 15
    stored launches, each created within the timeframe and so at most
    seven days before the call, in descending order of the sort column,
    rows without a value in it last. *)
Theorem handleLaunches_lists_at_most_15_within_7_days :
  forall (args : list string) (now : Z) (store : LaunchStore.t)
         (timeframeHours : Q) (sortBy : SortOption) (listed : list TokenLaunch.t),
    handleLaunches args now store = Launches timeframeHours sortBy listed ->
    (exists arg0 rest,
       args = arg0 :: rest /\ parseTimeframe arg0 = Some timeframeHours /\
       (sortBy = SortMcap <->
          exists word, head rest = Some word /\
            (JS.toLowerCase word = "mcap"%string \/
             JS.toLowerCase word = "marketcap"%string)) /\
       (sortBy = SortAge <->
          exists word, head rest = Some word /\ JS.toLowerCase word = "age"%string) /\
       (sortBy = SortVolume <->
          forall word, head rest = Some word ->
            JS.toLowerCase word <> "mcap"%string /\
            JS.toLowerCase word <> "marketcap"%string /\
            JS.toLowerCase word <> "age"%string)) /\
    (0 < timeframeHours)%Q /\ (timeframeHours <= 168)%Q /\
    listed = getLaunches timeframeHours sortBy 15 now store /\
    (length listed <= 15)%nat /\
    (forall l, l ∈ listed ->
       exists k c,
         launches store !! k = Some l /\ TokenLaunch.pairCreatedAt l = Some c /\
         (inject_Z (now - c) <= timeframeHours * 60 * 60 * 1000)%Q /\
         now - c <= 7 * 24 * 60 * 60 * 1000) /\
    (let column (l : TokenLaunch.t) : option Q :=
       match sortBy with
       | SortVolume => TokenLaunch.volume24h l
       | SortMcap => TokenLaunch.marketCap l
       | SortAge => match TokenLaunch.pairCreatedAt l with
                    | Some c => Some (inject_Z c)
                    | None => None
                    end
       end in
     StronglySorted
       (fun a b => column b = None \/
                   exists x y, column a = Some x /\ column b = Some y /\ (y <= x)%Q)
       listed).
Proof.
  intros args now store timeframeHours sortBy listed. unfold handleLaunches.
  destruct args as [|arg0 rest]; [done|].
  destruct (bool_decide (JS.toLowerCase arg0 = ""%string)); [done|].
  destruct (parseTimeframe (JS.toLowerCase arg0)) as [h|] eqn:Hp; [|done].
  destruct (Qle_bool h 0) eqn:Hpos; [done|].
  destruct (JS.Qltb 168 h) eqn:Hmax; [done|]. cbn [orb].
  intros [= <- <- <-].
  assert (H0 : (0 < h)%Q).
  { apply Qnot_le_lt. intros Hle. apply Qle_bool_iff in Hle. congruence. }
  apply Qltb_ge in Hmax.
  split.
  { exists arg0, rest. split; [done|]. split.
    - unfold parseTimeframe in *. by rewrite toLowerCase_idem in Hp.
    - apply sortOf_cases. }
  split; [done|]. split; [done|]. split; [done|]. split.
  { apply (getLaunches_length h (sortOf (head rest)) 15 now store). lia. }
  split.
  { intros l Hl. apply getLaunches_elem in Hl as (k & c & Hk & Hc & Hle).
    exists k, c. split; [done|]. split; [done|].
    assert (Hq : (inject_Z (now - c) <= h * 60 * 60 * 1000)%Q).
    { unfold Z.sub. rewrite inject_Z_plus, inject_Z_opp. lra. }
    split; [done|].
    rewrite Zle_Qle. change (inject_Z (7 * 24 * 60 * 60 * 1000)) with 604800000%Q. lra. }
  cbv zeta.
  eapply StronglySorted_weaken; [|apply getLaunches_sorted].
  intros a b Hab. apply descNullsLast_spec in Hab.
  assert (Hkey : forall l, sortKey (sortOf (head rest)) l
            = match sortOf (head rest) with
              | SortVolume => TokenLaunch.volume24h l
              | SortMcap => TokenLaunch.marketCap l
              | SortAge => match TokenLaunch.pairCreatedAt l with
                           | Some c => Some (inject_Z c)
                           | None => None
                           end
              end).
  { intros l. unfold sortKey.
    by destruct (sortOf (head rest)), (TokenLaunch.pairCreatedAt l). }
  by rewrite <- !Hkey.
Qed.

End LaunchesMore.


(** X23 at [!launches 3H MarketCap] on the store of four launches: the
    launch with the larger market cap comes first although its volume
    is the smaller one. *)
Lemma handleLaunches_lists_at_most_15_within_7_days_witness :
  StronglySorted
    (fun a b => TokenLaunch.marketCap b = None \/
                exists x y, TokenLaunch.marketCap a = Some x /\
                            TokenLaunch.marketCap b = Some y /\ (y <= x)%Q)
    [Samples.aged10min; Samples.aged2h] /\
  exists k c,
    LaunchStore.launches Samples.fourLaunches !! k = Some Samples.aged2h /\
    TokenLaunch.pairCreatedAt Samples.aged2h = Some c /\
    (inject_Z (Samples.now - c) <= 3 * 60 * 60 * 1000)%Q /\
    Samples.now - c <= 7 * 24 * 60 * 60 * 1000.
Proof.
  destruct (handleLaunches_lists_at_most_15_within_7_days ["3H"; "MarketCap"]%string
              Samples.now Samples.fourLaunches 3 SortMcap [Samples.aged10min; Samples.aged2h])
    as (_ & _ & _ & _ & _ & H & Hsorted); [by vm_compute|].
  split; [exact Hsorted|].
  apply (H Samples.aged2h). apply list_elem_of_further, list_elem_of_here.
Defined.

(** ** Launch store: the watchlist table *)

Section WatchlistFacts.

Import Watchlist.

Lemma sameKey_spec user address e :
  sameKey user address e = true <-> userId e = user /\ tokenAddress e = address.
Proof. unfold sameKey. by rewrite andb_true_iff, !bool_decide_eq_true. Qed.

Lemma existsb_sameKey user address l :
  existsb (sameKey user address) l = true <->
  exists e, e ∈ l /\ userId e = user /\ tokenAddress e = address.
Proof.
  rewrite existsb_exists. split; intros (e & He & Hk); exists e.
  - rewrite list_elem_of_In. by rewrite <- sameKey_spec.
  - rewrite <- list_elem_of_In. by rewrite sameKey_spec.
Qed.


Lemma getWatchlist_elem user tbl e :
  e ∈ getWatchlist user tbl <-> e ∈ entries tbl /\ userId e = user.
Proof.
  unfold getWatchlist. rewrite merge_sort_Permutation, filter_In_elem.
  by rewrite bool_decide_eq_true.
Qed.


(** X24. [addToWatchlist] is a set insert under the lower-cased address.
    It answers [false] exactly when the user already watches the token,
    and then the table is as before; otherwise it appends one row.
    Either way the token is on the user's watchlist afterwards, a second
    add of the address in any spelling of its case answers [false] and
    changes nothing, the rows of other users are untouched, and no two
    rows share user and token.  A remove after a successful add brings
    the rows back. *)
Theorem addToWatchlist_is_a_set_insert :
  forall (user address : string) (now : Z) (tbl : Watchlist.t),
    let added := addToWatchlist user address now tbl in
    (added.1 = false <->
       exists e, e ∈ entries tbl /\ userId e = user /\
                 tokenAddress e = JS.toLowerCase address) /\
    (added.1 = false -> added.2 = tbl) /\
    (added.1 = true ->
       entries added.2
       = entries tbl ++ [ {| id := seq tbl + 1; userId := user;
                             tokenAddress := JS.toLowerCase address; addedAt := now |} ]) /\
    (exists e, e ∈ getWatchlist user added.2 /\ tokenAddress e = JS.toLowerCase address) /\
    (forall address' now',
       JS.toLowerCase address' = JS.toLowerCase address ->
       addToWatchlist user address' now' added.2 = (false, added.2)) /\
    (forall e, userId e <> user -> (e ∈ entries added.2 <-> e ∈ entries tbl)) /\
    (unique tbl -> unique added.2) /\
    (added.1 = true ->
       (removeFromWatchlist user address added.2).1 = true /\
       entries (removeFromWatchlist user address added.2).2 = entries tbl).
Proof.
  intros user address now tbl added. subst added. unfold addToWatchlist.
  set (key := JS.toLowerCase address).
  set (new := {| id := seq tbl + 1; userId := user; tokenAddress := key; addedAt := now |}).
  pose proof (existsb_sameKey user key (entries tbl)) as Hex.
  destruct (existsb (sameKey user key) (entries tbl)) eqn:E; cbn [fst snd].
  - destruct Hex as [Hex _]. destruct (Hex eq_refl) as (e & He & Hu & Ht).
    split; [split; [by intros _; exists e|done]|].
    split; [done|]. split; [done|]. split.
    { exists e. split; [|done]. by apply getWatchlist_elem. }
    split.
    { intros address' now' Hsame. unfold addToWatchlist. rewrite Hsame. fold key.
      by rewrite E. }
    split; [done|]. split; done.
  - assert (Hnone : forall e, e ∈ entries tbl -> ~ (userId e = user /\ tokenAddress e = key)).
    { intros e He Hk. destruct Hex as [_ Hex].
      assert (Hft : false = true) by (apply Hex; by exists e). discriminate Hft. }
    assert (Hnew : sameKey user key new = true) by (by apply sameKey_spec).
    split; [split; [done|]|].
    { intros (e & He & Hk). by destruct (Hnone e He). }
    split; [done|]. split; [done|]. split.
    { exists new. split; [|done]. apply getWatchlist_elem. split; [|done].
      cbn [entries]. apply elem_of_app. right. apply list_elem_of_here. }
    split.
    { intros address' now' Hsame. unfold addToWatchlist. rewrite Hsame. fold key.
      cbn [entries]. by rewrite existsb_app, E; simpl; rewrite Hnew. }
    split.
    { intros e Hne. cbn [entries]. rewrite elem_of_app, list_elem_of_singleton.
      split; [|by left]. intros [He| ->]; [done|]. by destruct Hne. }
    split.
    { unfold unique. cbn [entries]. intros Hnd. rewrite fmap_app. apply NoDup_app.
      split; [done|]. split; [|apply NoDup_singleton].
      intros p Hp Hq. apply list_elem_of_singleton in Hq. subst p.
      apply list_elem_of_fmap in Hp as (e & Heq & He). injection Heq as Hu Ht.
      by destruct (Hnone e He). }
    intros _. unfold removeFromWatchlist. fold key. cbn [fst snd entries]. split.
    + by rewrite existsb_app; simpl; rewrite Hnew, orb_true_r.
    + rewrite List.filter_app. simpl. rewrite Hnew. simpl. rewrite app_nil_r.
      by apply existsb_false_filter.
Qed.


End WatchlistFacts.
